(** * The retrieval-augmented query pipeline of video-agent

    A shallow embedding of [backend/rag_engine.py] (chunking, indexing,
    search, the self-healing index guard), of the query path of
    [backend/query_handler.py] ([detect_intent], [handle_user_query] and
    the strategies it calls, the clock formatters; the helper-document
    functions are left out), of the snippet time windows and clip names
    of [create_snippet_from_query] in [backend/api.py] and of the link
    generators of [backend/video_transcriber.py], followed by the
    properties the design document states about them and by further
    properties of the same functions.

    Conventions of the embedding.
    - Python numbers (seconds, distances, durations) are exact rationals
      [Q]; two numbers are the same value when they are [==].  The code
      computes on binary64 floats, which round: a statement about the
      arithmetic of the code is made for the inputs on which no operation
      rounds ([exact_time] for the time windows, times that are not
      negative for the clock formatters), and the time window of
      [handle_user_query] is embedded a second time on the binary64
      numbers of the kernel ([on_floats]) to show what rounding does
      elsewhere.
    - A Python [str] is a [string], each character a code point below 256;
      [" ".join] is [String.concat " "] and [s[:n]] is
      [String.substring 0 n s].
    - A value produced by [json.loads] is a [json] tree.
    - A function that can raise returns a [result]; a function that reads
      or writes the module globals or the vector store runs in the state
      and exception monad [M] over a [world].
    - [hashlib.md5] is the algorithm of RFC 1321, checked against its test
      vectors.
    - The services the code calls but does not implement (OpenAI, the
      nearest-neighbour query of ChromaDB, its check of a collection name
      and its limit on the records of one call, [json.loads], ffmpeg) are
      the fields of the class [Services]; [urllib.parse] is the class
      [video_transcriber.Urllib]. *)

From Stdlib Require Import QArith Qminmax Qround Qpower Lqa Ascii.
From Stdlib Require Floats.
From stdpp Require Import gmap strings list fin_maps pretty sorting.

Set Warnings "-register-all".
#[local] Open Scope Q_scope.

(** ** Python values and exceptions *)

Inductive pyexc : Type :=
  | TypeError
  | ValueError
  | IndexError
  | AttributeError
  | KeyError (key : string)
  | JSONDecodeError
  | LibraryError (library : string)
  | AppError (cls : string).

Inductive result (A : Type) : Type :=
  | Ok (a : A)
  | Raise (e : pyexc).
Arguments Ok {A} a.
Arguments Raise {A} e.

Definition rbind {A B : Type} (r : result A) (k : A → result B) : result B :=
  match r with
  | Ok a => k a
  | Raise e => Raise e
  end.

Inductive json : Type :=
  | JNull
  | JBool (b : bool)
  | JNum (q : Q)
  | JStr (s : string)
  | JArr (items : list json)
  | JObj (members : list (string * json)).

Fixpoint assoc (key : string) (members : list (string * json)) : option json :=
  match members with
  | [] => None
  | (k, v) :: rest => if String.eqb k key then Some v else assoc key rest
  end.

(** [obj[key]] *)
Definition subscript (obj : json) (key : string) : result json :=
  match obj with
  | JObj members =>
      match assoc key members with
      | Some v => Ok v
      | None => Raise (KeyError key)
      end
  | _ => Raise TypeError
  end.

(** [obj.get(key, default)] *)
Definition dict_get (obj : json) (key : string) (default : json) : result json :=
  match obj with
  | JObj members =>
      match assoc key members with
      | Some v => Ok v
      | None => Ok default
      end
  | _ => Raise AttributeError
  end.

(** [value == "literal"] *)
Definition eq_str (value : json) (literal : string) : bool :=
  match value with
  | JStr s => String.eqb s literal
  | _ => false
  end.

(** The number a value stands for in arithmetic and in an ordering
    comparison with a number ([True] is [1]); anything else raises
    [TypeError]. *)
Definition as_number (value : json) : result Q :=
  match value with
  | JNum q => Ok q
  | JBool b => Ok (if b then 1 else 0)
  | _ => Raise TypeError
  end.

Definition Qgt_bool (x y : Q) : bool := negb (Qle_bool x y).

(** [x > value] *)
Definition gt (x : Q) (value : json) : result bool :=
  rbind (as_number value) (fun y => Ok (Qgt_bool x y)).

(** [value / 2] *)
Definition half (value : json) : result Q :=
  rbind (as_number value) (fun y => Ok (y / 2)).

(** [len(value)] *)
Definition len (value : json) : result nat :=
  match value with
  | JStr s => Ok (String.length s)
  | JArr items => Ok (length items)
  | JObj members => Ok (length members)
  | _ => Raise TypeError
  end.

(** [min(xs)] and [max(xs)] over a generator: the first element, replaced
    by each later one that is strictly smaller (larger). *)
Definition py_min (xs : list Q) : result Q :=
  match xs with
  | [] => Raise ValueError
  | x :: rest => Ok (fold_left Qmin rest x)
  end.

Definition py_max (xs : list Q) : result Q :=
  match xs with
  | [] => Raise ValueError
  | x :: rest => Ok (fold_left Qmax rest x)
  end.

(** [text[:n] + suffix] when [len(text) > n], else [text]. *)
Definition truncate (n : Z) (suffix text : string) : string :=
  if (n <? Z.of_nat (String.length text))%Z
  then String.substring 0 (Z.to_nat n) text +:+ suffix
  else text.

(** [f"{z:02d}"] *)
Definition fmt_02d (z : Z) : string :=
  let digits := pretty z in
  if (String.length digits <? 2)%nat then "0" +:+ digits else digits.

(** [seconds % m] for a positive [m], as the exact remainder.  On a float
    that is not negative and below 2^53 CPython computes this very number
    ([fmod] is exact); on a negative float it rounds, up to [m] itself
    for one of tiny magnitude, so the statements about a remainder assume
    [0 <= seconds]. *)
Definition Qmod (seconds : Q) (m : Z) : Q :=
  seconds - inject_Z (m * Qfloor (seconds / inject_Z m)).

Definition dq : string := String (Ascii.ascii_of_nat 34) EmptyString.

(** ** hashlib.md5 (RFC 1321) and [str.encode] *)

Module hashlib.
#[local] Open Scope Z_scope.

(** [text.encode()]: UTF-8, a character being a code point below 256. *)
Definition encode (text : string) : list Z :=
  mjoin ((fun c : ascii =>
            let n := Z.of_nat (nat_of_ascii c) in
            if n <? 128 then [n]
            else [Z.lor 192 (Z.shiftr n 6); Z.lor 128 (Z.land n 63)])
           <$> String.list_ascii_of_string text).

Definition word (x : Z) : Z := x mod 2 ^ 32.

Definition leftrotate (x c : Z) : Z :=
  word (Z.lor (Z.shiftl x c) (Z.shiftr x (32 - c))).

Definition lnot32 (x : Z) : Z := Z.lxor x 0xffffffff.

Definition K : list Z :=
  [ 0xd76aa478; 0xe8c7b756; 0x242070db; 0xc1bdceee;
    0xf57c0faf; 0x4787c62a; 0xa8304613; 0xfd469501;
    0x698098d8; 0x8b44f7af; 0xffff5bb1; 0x895cd7be;
    0x6b901122; 0xfd987193; 0xa679438e; 0x49b40821;
    0xf61e2562; 0xc040b340; 0x265e5a51; 0xe9b6c7aa;
    0xd62f105d; 0x02441453; 0xd8a1e681; 0xe7d3fbc8;
    0x21e1cde6; 0xc33707d6; 0xf4d50d87; 0x455a14ed;
    0xa9e3e905; 0xfcefa3f8; 0x676f02d9; 0x8d2a4c8a;
    0xfffa3942; 0x8771f681; 0x6d9d6122; 0xfde5380c;
    0xa4beea44; 0x4bdecfa9; 0xf6bb4b60; 0xbebfbc70;
    0x289b7ec6; 0xeaa127fa; 0xd4ef3085; 0x04881d05;
    0xd9d4d039; 0xe6db99e5; 0x1fa27cf8; 0xc4ac5665;
    0xf4292244; 0x432aff97; 0xab9423a7; 0xfc93a039;
    0x655b59c3; 0x8f0ccc92; 0xffeff47d; 0x85845dd1;
    0x6fa87e4f; 0xfe2ce6e0; 0xa3014314; 0x4e0811a1;
    0xf7537e82; 0xbd3af235; 0x2ad7d2bb; 0xeb86d391 ].

Definition shifts : list Z :=
  [ 7; 12; 17; 22; 7; 12; 17; 22; 7; 12; 17; 22; 7; 12; 17; 22;
    5; 9; 14; 20; 5; 9; 14; 20; 5; 9; 14; 20; 5; 9; 14; 20;
    4; 11; 16; 23; 4; 11; 16; 23; 4; 11; 16; 23; 4; 11; 16; 23;
    6; 10; 15; 21; 6; 10; 15; 21; 6; 10; 15; 21; 6; 10; 15; 21 ].

(** The message followed by the bit 1, zeros up to 56 modulo 64 bytes,
    and the bit length as 8 little-endian bytes. *)
Definition pad (message : list Z) : list Z :=
  let n := Z.of_nat (length message) in
  let zeros := Z.to_nat ((55 - n) mod 64) in
  message ++ [128] ++ replicate zeros 0
    ++ ((fun i => Z.shiftr (8 * n) (8 * Z.of_nat i) mod 256) <$> seq 0 8).

Definition le32 (bytes : list Z) : Z :=
  foldr (fun b acc => b + 256 * acc) 0 bytes.

Definition words (block : list Z) : list Z :=
  (fun g => le32 (take 4 (drop (4 * g) block))) <$> seq 0 16.

Definition round (M : list Z) (st : Z * Z * Z * Z) (i : nat) : Z * Z * Z * Z :=
  let '(A, B, C, D) := st in
  let iz := Z.of_nat i in
  let '(F, g) :=
    if iz <? 16 then (Z.lor (Z.land B C) (Z.land (lnot32 B) D), iz)
    else if iz <? 32 then (Z.lor (Z.land D B) (Z.land (lnot32 D) C), (5 * iz + 1) mod 16)
    else if iz <? 48 then (Z.lxor (Z.lxor B C) D, (3 * iz + 5) mod 16)
    else (Z.lxor C (Z.lor B (lnot32 D)), (7 * iz) mod 16) in
  let F := word (F + A + K !!! i + M !!! Z.to_nat g) in
  (D, word (B + leftrotate F (shifts !!! i)), B, C).

Definition compress (st : Z * Z * Z * Z) (block : list Z) : Z * Z * Z * Z :=
  let '(a0, b0, c0, d0) := st in
  let '(A, B, C, D) := fold_left (round (words block)) (seq 0 64) st in
  (word (a0 + A), word (b0 + B), word (c0 + C), word (d0 + D)).

Definition blocks (padded : list Z) : list (list Z) :=
  (fun k => take 64 (drop (64 * k) padded)) <$> seq 0 (length padded / 64).

Definition hexdigit (n : Z) : string :=
  String.substring (Z.to_nat n) 1 "0123456789abcdef".

Definition hex32 (x : Z) : string :=
  String.concat ""
    ((fun i => let b := Z.shiftr x (8 * Z.of_nat i) mod 256 in
               hexdigit (b / 16) +:+ hexdigit (b mod 16)) <$> seq 0 4).

Definition md5_hexdigest (message : list Z) : string :=
  let '(a, b, c, d) :=
    fold_left compress (blocks (pad message))
              (0x67452301, 0xefcdab89, 0x98badcfe, 0x10325476) in
  hex32 a +:+ hex32 b +:+ hex32 c +:+ hex32 d.

End hashlib.

(** ** The data model *)

Record segment : Type := {
  seg_start : Q;
  seg_end : Q;
  seg_text : string }.

Record transcript : Type := {
  segments : list segment;
  full_text : string }.

Record chunk : Type := {
  chunk_text : string;
  chunk_start : Q;
  chunk_end : Q }.

Record search_result : Type := {
  r_text : string;
  r_start : Q;
  r_end : Q;
  r_relevance : Q }.

Record timestamp : Type := {
  t_start : Q;
  t_end : Q;
  t_text : string }.

(** A member of a ChromaDB collection, and one row of a query answer. *)
Record item : Type := {
  document : string;
  embedding : list Q;
  meta_start : Q;
  meta_end : Q }.

Record hit : Type := {
  hit_id : string;
  hit_document : string;
  hit_start : Q;
  hit_end : Q;
  hit_distance : Q }.

Record message : Type := {
  role : string;
  content : string }.

Record chat_request : Type := {
  model : string;
  messages : list message;
  reasoning_effort : option string;
  response_format : option string }.

(** ** External collaborators *)

Class Services : Type := {
  (** [client.embeddings.create(model=EMBEDDING_MODEL, input=batch)], read
      as [[item.embedding for item in response.data]] *)
  embeddings_create : list json → result (list (list Q));
  (** [client.chat.completions.create(...)], read as
      [response.choices[0].message.content] *)
  chat_completions_create : chat_request → result string;
  (** [json.loads]; [None] is [json.JSONDecodeError] *)
  json_loads : string → option json;
  (** [collection.query(query_embeddings=[e], n_results=n, include=...)],
      read row by row *)
  collection_query : gmap string item → list Q → Z → result (list hit);
  (** [str(value)] for a value that is not a [str] *)
  py_repr : json → string;
  (** [video_transcriber.create_video_snippet(video_path, start, end)] *)
  create_video_snippet : string → Q → Q → result string;
  (** ChromaDB's check of a collection name: 3 to 512 characters out of
      [a-zA-Z0-9._-], alphanumeric at both ends, no two periods in a row,
      not an IP address *)
  valid_collection_name : string → bool;
  (** [chroma_client.get_max_batch_size()]: how many records one call may
      carry *)
  max_batch_size : nat }.

(** [f"{value}"] *)
Definition py_str `{Services} (value : json) : string :=
  match value with
  | JStr s => s
  | other => py_repr other
  end.

(** ** The process state *)

Record world : Type := {
  (** the collections of [chroma_client], by name; a collection maps the
      ids of its members to what was stored with them *)
  collections : gmap string (gmap string item);
  (** the module global of [rag_engine] *)
  _current_collection_name : option string }.

Definition M (A : Type) : Type := world → result A * world.

Definition ret {A : Type} (a : A) : M A := fun w => (Ok a, w).

Definition raise {A : Type} (e : pyexc) : M A := fun w => (Raise e, w).

Definition bind {A B : Type} (m : M A) (k : A → M B) : M B :=
  fun w =>
    match m w with
    | (Ok a, w') => k a w'
    | (Raise e, w') => (Raise e, w')
    end.

Definition lift {A : Type} (r : result A) : M A := fun w => (r, w).

(** [try: body / except Exception: handler] *)
Definition try_except {A : Type} (body : M A) (handler : M A) : M A :=
  fun w =>
    match body w with
    | (Ok a, w') => (Ok a, w')
    | (Raise _, w') => handler w'
    end.

Definition get_collections : M (gmap string (gmap string item)) :=
  fun w => (Ok (collections w), w).

Definition set_collections (cs : gmap string (gmap string item)) : M unit :=
  fun w => (Ok tt, {| collections := cs;
                      _current_collection_name := _current_collection_name w |}).

Definition get_current : M (option string) :=
  fun w => (Ok (_current_collection_name w), w).

Definition set_current (name : option string) : M unit :=
  fun w => (Ok tt, {| collections := collections w;
                      _current_collection_name := name |}).

Declare Scope py_scope.
Delimit Scope py_scope with py.
Notation "x <- c1 ;; c2" := (bind c1 (fun x => c2))
  (at level 100, c1 at next level, right associativity) : py_scope.
Notation "c1 ;; c2" := (bind c1 (fun _ => c2))
  (at level 100, right associativity) : py_scope.
#[local] Open Scope py_scope.

(** ** ChromaDB's persistent client

    The part of the client the code uses, by its documented behaviour: a
    collection is addressed by its name; [get_or_create_collection]
    refuses a name that fails the client's check, before it looks at the
    store; [get_collection] raises when the name is unknown; [add] refuses
    an empty batch, lists of different lengths, ids repeated within the
    batch, embeddings that are empty or not all of one dimension or not of
    the dimension of the members already stored, and more records than
    [max_batch_size], and leaves a member whose id is already stored as it
    is; [delete] refuses more ids than [max_batch_size].  A refused call
    changes nothing.  Which members a query returns, and at which
    distance, is the service's [collection_query]. *)

Module chroma_client.
Section with_services.
Context `{Services}.

Definition get_or_create_collection (name : string) : M string :=
  if negb (valid_collection_name name) then raise (LibraryError "chromadb")
  else
    cs <- get_collections ;;
    match cs !! name with
    | Some _ => ret name
    | None => set_collections (<[name := ∅]> cs) ;; ret name
    end.

Definition get_collection (name : string) : M string :=
  cs <- get_collections ;;
  match cs !! name with
  | Some _ => ret name
  | None => raise (LibraryError "chromadb")
  end.

Definition delete_collection (name : string) : M unit :=
  cs <- get_collections ;;
  match cs !! name with
  | Some _ => set_collections (delete name cs)
  | None => raise (LibraryError "chromadb")
  end.

(** [[c.name for c in chroma_client.list_collections()]] *)
Definition list_collections : M (list string) :=
  cs <- get_collections ;;
  ret (fst <$> map_to_list cs).

Definition members (collection : string) : M (gmap string item) :=
  cs <- get_collections ;;
  match cs !! collection with
  | Some c => ret c
  | None => raise (LibraryError "chromadb")
  end.

(** [collection.get()["ids"]] *)
Definition get_ids (collection : string) : M (list string) :=
  c <- members collection ;;
  ret (fst <$> map_to_list c).

(** [collection.delete(ids=ids)] *)
Definition delete (collection : string) (ids : list string) : M unit :=
  c <- members collection ;;
  if (max_batch_size <? length ids)%nat then raise (LibraryError "chromadb")
  else
    cs <- get_collections ;;
    set_collections (<[collection := foldr base.delete c ids]> cs).

Definition new_items (documents : list string) (embeddings : list (list Q))
    (metadatas : list (Q * Q)) : list item :=
  zip_with (fun '(d, e) '(s, e') =>
              {| document := d; embedding := e; meta_start := s; meta_end := e' |})
           (zip documents embeddings) metadatas.

(** The dimension of a batch of embeddings: the length its vectors share,
    when there is a vector, none is empty and all are equally long. *)
Definition dimension (embeddings : list (list Q)) : option nat :=
  match embeddings with
  | [] => None
  | first :: _ =>
      if bool_decide (first ≠ []
                      ∧ Forall (fun e => length e = length first) embeddings)
      then Some (length first)
      else None
  end.

(** [collection.add(documents=..., embeddings=..., metadatas=..., ids=...)] *)
Definition add (collection : string) (documents : list string)
    (embeddings : list (list Q)) (metadatas : list (Q * Q))
    (ids : list string) : M unit :=
  c <- members collection ;;
  if bool_decide (ids = []) then raise ValueError
  else if negb (bool_decide (length documents = length ids
                             ∧ length embeddings = length ids
                             ∧ length metadatas = length ids))
  then raise ValueError
  else if negb (bool_decide (NoDup ids)) then raise (LibraryError "chromadb")
  else
    match dimension embeddings with
    | None => raise ValueError
    | Some d =>
        if negb (bool_decide (map_Forall (fun _ it => length (embedding it) = d) c))
        then raise (LibraryError "chromadb")
        else if (max_batch_size <? length ids)%nat then raise ValueError
        else
          cs <- get_collections ;;
          set_collections
            (<[collection :=
                 c ∪ list_to_map (zip ids (new_items documents embeddings metadatas))]> cs)
    end.

(** [collection.query(...)] *)
Definition query (collection : string) (query_embedding : list Q)
    (n_results : Z) : M (list hit) :=
  c <- members collection ;;
  lift (collection_query c query_embedding n_results).

End with_services.
End chroma_client.

(** ** backend/rag_engine.py *)

Module rag_engine.
Section with_services.
Context `{Services}.

(** [range(0, stop, step)] *)
Definition range_step (stop step : nat) : list nat :=
  (fun k => k * step)%nat <$> seq 0 ((stop + step - 1) / step)%nat.

Definition generate_embeddings (texts : list json) : result (list (list Q)) :=
  let batch_size := 100%nat in
  fold_left
    (fun all_embeddings i =>
       rbind all_embeddings (fun all_embeddings =>
       let batch := take batch_size (drop i texts) in
       rbind (embeddings_create batch) (fun batch_embeddings =>
       Ok (all_embeddings ++ batch_embeddings))))
    (range_step (length texts) batch_size)
    (Ok []).

(** The loop state of [chunk_transcript]. *)
Record chunker : Type := {
  chunks : list chunk;
  current_texts : list string;
  current_start : Q;
  current_end : Q }.

(** One iteration of [for i, seg in enumerate(transcript["segments"])]. *)
Definition chunk_segment (min_chunk_length : Z) (n_segments : nat)
    (st : chunker) (i : nat) (seg : segment) : chunker :=
  let current_start :=
    match current_texts st with
    | [] => seg_start seg
    | _ => current_start st
    end in
  let current_texts := current_texts st ++ [seg_text seg] in
  let current_end := seg_end seg in
  let chunk_text := String.concat " " current_texts in
  if (min_chunk_length <=? Z.of_nat (String.length chunk_text))%Z
     || (Z.of_nat i =? Z.of_nat n_segments - 1)%Z
  then {| chunks := chunks st ++ [{| chunk_text := chunk_text;
                                     chunk_start := current_start;
                                     chunk_end := current_end |}];
          current_texts := [];
          current_start := current_start;
          current_end := current_end |}
  else {| chunks := chunks st;
          current_texts := current_texts;
          current_start := current_start;
          current_end := current_end |}.

Fixpoint chunk_loop (min_chunk_length : Z) (n_segments : nat) (i : nat)
    (segs : list segment) (st : chunker) : chunker :=
  match segs with
  | [] => st
  | seg :: rest =>
      chunk_loop min_chunk_length n_segments (S i) rest
                 (chunk_segment min_chunk_length n_segments st i seg)
  end.

Definition chunk_transcript (transcript : transcript) (min_chunk_length : Z)
    : list chunk :=
  chunks (chunk_loop min_chunk_length (length (segments transcript)) 0
                     (segments transcript)
                     {| chunks := []; current_texts := [];
                        current_start := 0; current_end := 0 |}).

Definition truthy (s : option string) : bool :=
  match s with
  | Some s => negb (String.eqb s "")
  | None => false
  end.

(** Lines 107-111 of [index_transcript]: the collection name. *)
Definition collection_name_of (transcript : transcript) (video_id : option string)
    : string :=
  let video_id :=
    match video_id with
    | Some v =>
        if String.eqb v "" then
          let content_hash :=
            hashlib.md5_hexdigest
              (hashlib.encode (String.substring 0 1000 (full_text transcript))) in
          "video_" +:+ String.substring 0 12 content_hash
        else v
    | None =>
        let content_hash :=
          hashlib.md5_hexdigest
            (hashlib.encode (String.substring 0 1000 (full_text transcript))) in
        "video_" +:+ String.substring 0 12 content_hash
    end in
  "transcript_" +:+ video_id.

Definition chunk_ids (n : nat) : list string :=
  (fun i : nat => "chunk_" +:+ pretty i) <$> seq 0 n.

Definition index_transcript (transcript : transcript) (video_id : option string)
    : M string :=
  let collection_name := collection_name_of transcript video_id in
  collection <- chroma_client.get_or_create_collection collection_name ;;
  existing <- chroma_client.get_ids collection ;;
  match existing with
  | [] => ret tt
  | _ => chroma_client.delete collection existing
  end ;;
  let chunks := chunk_transcript transcript 100 in
  let documents := chunk_text <$> chunks in
  let metadatas := (fun c => (chunk_start c, chunk_end c)) <$> chunks in
  let ids := chunk_ids (length chunks) in
  embeddings <- lift (generate_embeddings (JStr <$> documents)) ;;
  chroma_client.add collection documents embeddings metadatas ids ;;
  set_current (Some collection_name) ;;
  ret collection_name.

Definition format_hit (h : hit) : search_result :=
  {| r_text := hit_document h;
     r_start := hit_start h;
     r_end := hit_end h;
     r_relevance := 1 - hit_distance h |}.

Definition search (query : json) (n_results : Z) (collection_name : option string)
    : M (list search_result) :=
  current <- get_current ;;
  let name := if truthy collection_name then collection_name else current in
  match name with
  | Some name' =>
      if String.eqb name' "" then raise ValueError
      else
        collection <- chroma_client.get_collection name' ;;
        embeddings <- lift (generate_embeddings [query]) ;;
        match embeddings with
        | [] => raise IndexError
        | query_embedding :: _ =>
            results <- chroma_client.query collection query_embedding n_results ;;
            ret (format_hit <$> results)
        end
  | None => raise ValueError
  end.

Definition find_timestamps_for_topic (topic : json) (n_results : Z)
    : M (list timestamp) :=
  results <- search topic n_results None ;;
  ret ((fun r => {| t_start := r_start r; t_end := r_end r; t_text := r_text r |})
         <$> results).

Definition _format_time (seconds : Q) : string :=
  let hours := Qfloor (seconds / 3600) in
  let minutes := Qfloor (Qmod seconds 3600 / 60) in
  let secs := Qfloor (Qmod seconds 60) in
  if (0 <? hours)%Z
  then fmt_02d hours +:+ ":" +:+ fmt_02d minutes +:+ ":" +:+ fmt_02d secs
  else fmt_02d minutes +:+ ":" +:+ fmt_02d secs.

Definition nl : string := String (Ascii.ascii_of_nat 10) EmptyString.

Definition get_context_for_query (query : json) (n_results : Z) : M string :=
  results <- search query n_results None ;;
  let context_parts :=
    (fun r =>
       let timestamp :=
         "[" +:+ _format_time (r_start r) +:+ " - " +:+ _format_time (r_end r) +:+ "]" in
       timestamp +:+ nl +:+ r_text r) <$> results in
  ret (String.concat (nl +:+ nl) context_parts).

Definition list_collections : M (list string) :=
  collections <- chroma_client.list_collections ;;
  ret collections.

Definition delete_collection (collection_name : string) : M unit :=
  chroma_client.delete_collection collection_name ;;
  current <- get_current ;;
  if bool_decide (current = Some collection_name) then set_current None else ret tt.

Definition collection_exists (collection_name : string) : M bool :=
  try_except (chroma_client.get_collection collection_name ;; ret true) (ret false).

Definition set_current_collection (collection_name : string) : M unit :=
  chroma_client.get_collection collection_name ;;
  set_current (Some collection_name).

(** [s.replace(old, new)] for a non-empty [old], scanning left to right;
    [skip] characters of a match just replaced are still to be passed. *)
Fixpoint replace_from (old new : string) (skip : nat) (s : string) : string :=
  match s with
  | EmptyString => EmptyString
  | String c rest =>
      match skip with
      | S k => replace_from old new k rest
      | O =>
          if String.prefix old s
          then new +:+ replace_from old new (String.length old - 1) rest
          else String c (replace_from old new 0 rest)
      end
  end.

Definition replace (s old new : string) : string :=
  if String.eqb old ""
  then String.concat new
         ("" :: ((fun c => String c EmptyString) <$> String.list_ascii_of_string s) ++ [""])
  else replace_from old new 0 s.

Definition ensure_collection_indexed (collection_name : string)
    (transcript : option transcript) : M bool :=
  found <- collection_exists collection_name ;;
  if found then
    set_current (Some collection_name) ;;
    ret true
  else
    match transcript with
    | None => ret false
    | Some t =>
        match segments t with
        | [] => ret false
        | _ :: _ =>
            let video_id := replace collection_name "transcript_" "" in
            new_collection_name <- index_transcript t (Some video_id) ;;
            set_current (Some new_collection_name) ;;
            ret true
        end
    end.

Definition get_current_collection : M (option string) := get_current.

End with_services.
End rag_engine.

(** ** backend/query_handler.py *)

Module query_handler.
Section with_services.
Context `{Services}.

Definition GPT_MODEL : string := "gpt-5-mini".

Definition quoted (s : string) : string := dq +:+ s +:+ dq.

Definition intent_system_prompt : string :=
  "You are an intent classifier for a video analysis system.
Classify the user's intent into one of these categories:

1. " +:+ quoted "search" +:+ " - User wants to find specific content/timestamps in the video
2. " +:+ quoted "question" +:+ " - User is asking a question about the video content
3. " +:+ quoted "snippet" +:+ " - User wants to create a video clip about a specific topic
4. " +:+ quoted "summary" +:+ " - User wants a summary or overview of the video
5. " +:+ quoted "keypoints" +:+ " - User wants key points or main takeaways

Respond with JSON:
{
    " +:+ quoted "intent" +:+ ": " +:+ quoted "<intent_type>" +:+ ",
    " +:+ quoted "topic" +:+ ": " +:+ quoted "<extracted topic or question>" +:+ ",
    " +:+ quoted "parameters" +:+ ": {
        " +:+ quoted "max_duration" +:+ ": <number if mentioned, null otherwise>,
        " +:+ quoted "detail_level" +:+ ": " +:+ quoted "<brief|detailed if mentioned, null otherwise>" +:+ "
    }
}".

Definition detect_intent (user_query : string) : result json :=
  rbind (chat_completions_create
           {| model := GPT_MODEL;
              messages := [ {| role := "developer"; content := intent_system_prompt |};
                            {| role := "user"; content := user_query |} ];
              reasoning_effort := Some "minimal";
              response_format := Some "json_object" |})
        (fun content =>
           match json_loads content with
           | Some parsed => Ok parsed
           | None => Raise JSONDecodeError
           end).

Definition answer_system_prompt : string :=
  "You are a helpful assistant answering questions about video content.
Use the provided transcript context to answer questions accurately.
Always reference timestamps when relevant.
If the information isn't in the context, say so.".

Definition answer_question (question : json) (transcript : option transcript)
    (conversation_history : option (list message)) : M string :=
  context <- rag_engine.get_context_for_query question 5 ;;
  let messages := [ {| role := "developer"; content := answer_system_prompt |} ] in
  let messages :=
    match conversation_history with
    | Some history =>
        messages ++ ((fun msg => {| role := role msg; content := content msg |}) <$> history)
    | None => messages
    end in
  let messages :=
    messages ++ [ {| role := "user";
                     content := "Context from video:" +:+ rag_engine.nl +:+ context
                                +:+ rag_engine.nl +:+ rag_engine.nl
                                +:+ "Question: " +:+ py_str question |} ] in
  lift (chat_completions_create
          {| model := GPT_MODEL;
             messages := messages;
             reasoning_effort := Some "low";
             response_format := None |}).

Definition generate_summary (transcript : transcript) : result string :=
  let text := truncate 100000 "..." (full_text transcript) in
  chat_completions_create
    {| model := GPT_MODEL;
       messages :=
         [ {| role := "developer";
              content := "Summarize this video transcript in 2-3 concise paragraphs. Focus on the main topics and key information." |};
           {| role := "user"; content := text |} ];
       reasoning_effort := Some "low";
       response_format := None |}.

Definition keypoints_system_prompt : string :=
  "Extract 5-10 key points from this transcript.
Return JSON: {" +:+ quoted "key_points" +:+ ": [{" +:+ quoted "title" +:+ ": "
    +:+ quoted "..." +:+ ", " +:+ quoted "summary" +:+ ": " +:+ quoted "..." +:+ "}]}".

Definition _extract_quick_keypoints (transcript : transcript) : result json :=
  let text := truncate 100000 "..." (full_text transcript) in
  rbind (chat_completions_create
           {| model := GPT_MODEL;
              messages := [ {| role := "developer"; content := keypoints_system_prompt |};
                            {| role := "user"; content := text |} ];
              reasoning_effort := Some "low";
              response_format := Some "json_object" |})
        (fun content =>
           match json_loads content with
           | Some parsed => dict_get parsed "key_points" (JArr [])
           | None => Raise JSONDecodeError
           end).

Definition _format_time (seconds : Q) : string :=
  let hours := Qfloor (seconds / 3600) in
  let minutes := Qfloor (Qmod seconds 3600 / 60) in
  let secs := Qfloor (Qmod seconds 60) in
  fmt_02d hours +:+ ":" +:+ fmt_02d minutes +:+ ":" +:+ fmt_02d secs.

Definition _format_duration (seconds : Q) : string :=
  let hours := Qfloor (seconds / 3600) in
  let minutes := Qfloor (Qmod seconds 3600 / 60) in
  let secs := Qfloor (Qmod seconds 60) in
  if (0 <? hours)%Z
  then pretty hours +:+ "h " +:+ pretty minutes +:+ "m " +:+ pretty secs +:+ "s"
  else pretty minutes +:+ "m " +:+ pretty secs +:+ "s".

(** The dict [handle_user_query] returns; [None] is a key that was never
    set, and [resp_timestamps = Some None] is ["timestamps": None]. *)
Record response : Type := {
  resp_intent : json;
  resp_query : string;
  resp_results : option (list search_result);
  resp_response : option string;
  resp_timestamps : option (option (Q * Q));
  resp_context : option string;
  resp_snippet_path : option string;
  resp_key_points : option json }.

Definition set_results (v : list search_result) (r : response) : response :=
  {| resp_intent := resp_intent r; resp_query := resp_query r;
     resp_results := Some v; resp_response := resp_response r;
     resp_timestamps := resp_timestamps r; resp_context := resp_context r;
     resp_snippet_path := resp_snippet_path r; resp_key_points := resp_key_points r |}.

Definition set_response (v : string) (r : response) : response :=
  {| resp_intent := resp_intent r; resp_query := resp_query r;
     resp_results := resp_results r; resp_response := Some v;
     resp_timestamps := resp_timestamps r; resp_context := resp_context r;
     resp_snippet_path := resp_snippet_path r; resp_key_points := resp_key_points r |}.

Definition set_timestamps (v : option (Q * Q)) (r : response) : response :=
  {| resp_intent := resp_intent r; resp_query := resp_query r;
     resp_results := resp_results r; resp_response := resp_response r;
     resp_timestamps := Some v; resp_context := resp_context r;
     resp_snippet_path := resp_snippet_path r; resp_key_points := resp_key_points r |}.

Definition set_context (v : string) (r : response) : response :=
  {| resp_intent := resp_intent r; resp_query := resp_query r;
     resp_results := resp_results r; resp_response := resp_response r;
     resp_timestamps := resp_timestamps r; resp_context := Some v;
     resp_snippet_path := resp_snippet_path r; resp_key_points := resp_key_points r |}.

Definition set_snippet_path (v : string) (r : response) : response :=
  {| resp_intent := resp_intent r; resp_query := resp_query r;
     resp_results := resp_results r; resp_response := resp_response r;
     resp_timestamps := resp_timestamps r; resp_context := resp_context r;
     resp_snippet_path := Some v; resp_key_points := resp_key_points r |}.

Definition set_key_points (v : json) (r : response) : response :=
  {| resp_intent := resp_intent r; resp_query := resp_query r;
     resp_results := resp_results r; resp_response := resp_response r;
     resp_timestamps := resp_timestamps r; resp_context := resp_context r;
     resp_snippet_path := resp_snippet_path r; resp_key_points := Some v |}.

(** Lines 258-259: the range that covers every timestamp, padded by 2.
    The subtraction and the addition are exact here and rounded in the
    code; they are the same on [exact_time]s. *)
Definition widen (timestamps : list timestamp) : result (Q * Q) :=
  rbind (py_min (t_start <$> timestamps)) (fun lo =>
  let start := Qmax 0 (lo - 2) in
  rbind (py_max (t_end <$> timestamps)) (fun hi =>
  let end_ := hi + 2 in
  Ok (start, end_))).

(** Lines 262-265: the range cut to [max_duration] around the first
    timestamp.  Again the arithmetic is exact here and rounded in the
    code. *)
Definition clamp (timestamps : list timestamp) (range : Q * Q) (max_duration : json)
    : result (Q * Q) :=
  let '(start, end_) := range in
  rbind (gt (end_ - start) max_duration) (fun too_long =>
  if too_long : bool then
    match timestamps with
    | [] => Raise IndexError
    | first :: _ =>
        let center := (t_start first + t_end first) / 2 in
        rbind (half max_duration) (fun h =>
        let start := Qmax 0 (center - h) in
        rbind (half max_duration) (fun h' =>
        let end_ := center + h' in
        Ok (start, end_)))
    end
  else Ok (start, end_)).

(** Lines 258-265 for a [max_duration] already in hand. *)
Definition snippet_time_range (timestamps : list timestamp) (max_duration : json)
    : result (Q * Q) :=
  rbind (widen timestamps) (fun range => clamp timestamps range max_duration).

Definition handle_user_query (user_query : string) (transcript : option transcript)
    (video_path : option string) (conversation_history : option (list message))
    : M response :=
  intent_result <- lift (detect_intent user_query) ;;
  intent <- lift (subscript intent_result "intent") ;;
  topic <- lift (subscript intent_result "topic") ;;
  let response :=
    {| resp_intent := intent; resp_query := user_query;
       resp_results := None; resp_response := None; resp_timestamps := None;
       resp_context := None; resp_snippet_path := None; resp_key_points := None |} in
  if eq_str intent "search" then
    results <- rag_engine.search topic 5 None ;;
    let response := set_results results response in
    ret (set_response ("Found " +:+ pretty (length results)
                       +:+ " relevant segments for '" +:+ py_str topic +:+ "'")
                      response)
  else if eq_str intent "question" then
    answer <- answer_question topic transcript conversation_history ;;
    ret (set_response answer response)
  else if eq_str intent "snippet" then
    timestamps <- rag_engine.find_timestamps_for_topic topic 3 ;;
    match timestamps with
    | first :: _ =>
        range <- lift (widen timestamps) ;;
        parameters <- lift (subscript intent_result "parameters") ;;
        max_duration <- lift (dict_get parameters "max_duration" (JNum 60)) ;;
        range <- lift (clamp timestamps range max_duration) ;;
        let '(start, end_) := range in
        let response := set_timestamps (Some (start, end_)) response in
        let response := set_context (t_text first) response in
        let response :=
          set_response ("Found content about '" +:+ py_str topic +:+ "' at "
                        +:+ _format_time start) response in
        if rag_engine.truthy video_path then
          match video_path with
          | Some path =>
              snippet_path <- lift (create_video_snippet path start end_) ;;
              ret (set_snippet_path snippet_path response)
          | None => ret response
          end
        else ret response
    | [] =>
        let response :=
          set_response ("No content found for '" +:+ py_str topic +:+ "'") response in
        ret (set_timestamps None response)
    end
  else if eq_str intent "summary" then
    match transcript with
    | Some t =>
        summary <- lift (generate_summary t) ;;
        ret (set_response summary response)
    | None => ret (set_response "Transcript required for summary" response)
    end
  else if eq_str intent "keypoints" then
    match transcript with
    | Some t =>
        key_points <- lift (_extract_quick_keypoints t) ;;
        let response := set_key_points key_points response in
        n <- lift (len key_points) ;;
        ret (set_response ("Found " +:+ pretty n +:+ " key points from the video") response)
    | None => ret (set_response "Transcript required for key points" response)
    end
  else ret response.

End with_services.
End query_handler.

(** ** backend/query_handler.py: the time window on floats

    Lines 258-265 of [handle_user_query] once more, for spans and a
    [max_duration] that are Python [float]s, on the binary64 numbers of
    the kernel: each subtraction, addition and division rounds to the
    nearest float, as it does in CPython; the literals 0 and 2 meet a
    float and stand for 0.0 and 2.0. *)

Module on_floats.
Import PrimFloat.

(** [min(xs)] and [max(xs)] over a generator that yields [x] first. *)
Definition py_min (x : float) (rest : list float) : float :=
  fold_left (fun least item => if ltb item least then item else least) rest x.

Definition py_max (x : float) (rest : list float) : float :=
  fold_left (fun greatest item => if ltb greatest item then item else greatest) rest x.

(** The window for the timestamps [first :: rest], as [(start, end)]. *)
Definition snippet_time_range (first : float * float) (rest : list (float * float))
    (max_duration : float) : float * float :=
  let start := py_max 0 [sub (py_min first.1 (fst <$> rest)) 2] in
  let end_ := add (py_max first.2 (snd <$> rest)) 2 in
  if ltb max_duration (sub end_ start) then
    let center := div (add first.1 first.2) 2 in
    let start := py_max 0 [sub center (div max_duration 2)] in
    let end_ := add center (div max_duration 2) in
    (start, end_)
  else (start, end_).

(** Three floats: the nearest to 60.1, to 0.3 and to 2.3; and two spans,
    10..200 and 0..0.3. *)
Definition sixty_and_a_tenth : float := 0x1.e0ccccccccccdp+5.
Definition three_tenths : float := 0x1.3333333333333p-2.
Definition two_and_three_tenths : float := 0x1.2666666666666p+1.
Definition long_span : float * float := (10, 200)%float.
Definition short_span : float * float := (0, three_tenths)%float.

End on_floats.

(** [int(x)] for a float: the fraction is dropped, towards zero. *)
Definition py_int (x : Q) : Z := (Qnum x ÷ Z.pos (Qden x))%Z.

(** ** backend/api.py: the time windows and clip names of
    [create_snippet_from_query] *)

Module api.

(** Lines 549-557: the body of [for i, result in enumerate(results)] up
    to the window it hands to the snippet maker, with exact arithmetic
    where the code rounds. *)
Definition snippet_window (result : search_result) (max_duration : Q) : Q * Q :=
  let padding := 2 in
  let start := Qmax 0 (r_start result - padding) in
  let end_ := r_end result + padding in
  if Qgt_bool (end_ - start) max_duration then
    let center := (r_start result + r_end result) / 2 in
    let start := Qmax 0 (center - max_duration / 2) in
    let end_ := center + max_duration / 2 in
    (start, end_)
  else (start, end_).

Definition create_snippet_from_query_windows (results : list search_result)
    (max_duration : Q) : list (Q * Q) :=
  (fun result => snippet_window result max_duration) <$> results.

(** [c.isalnum()] for a code point below 256: the ASCII digits and
    letters, and of Latin-1 the letters, the ordinal indicators, the micro
    sign, the superscript digits and the vulgar fractions. *)
Definition isalnum (c : ascii) : bool :=
  let n := nat_of_ascii c in
  existsb (fun '(lo, hi) => (lo <=? n)%nat && (n <=? hi)%nat)
    [ (48, 57); (65, 90); (97, 122); (170, 170); (178, 179); (181, 181);
      (185, 186); (188, 190); (192, 214); (216, 246); (248, 255) ]%nat.

(** Lines 572-573: the file name of the clip cut for result [i] (counted
    from 0), every character that is neither alphanumeric nor one of
    "._-" replaced by "_". *)
Definition output_name (query : string) (i : nat) (start end_ : Q) : string :=
  let output_name :=
    "snippet_" +:+ String.substring 0 20 query +:+ "_" +:+ pretty (i + 1)%nat +:+ "_"
    +:+ pretty (py_int start) +:+ "-" +:+ pretty (py_int end_) +:+ ".mp4" in
  String.string_of_list_ascii
    ((fun c => if isalnum c || existsb (Ascii.eqb c) (String.list_ascii_of_string "._-")
               then c else "_"%char)
       <$> String.list_ascii_of_string output_name).

End api.

(** ** backend/video_transcriber.py: the links to a moment of a video *)

Module video_transcriber.

(** What the code reads of [urlparse(url)]. *)
Record ParseResult : Type := {
  scheme : string;
  netloc : string;
  path : string;
  query : string }.

(** [urllib.parse] *)
Class Urllib : Type := {
  urlparse : string → ParseResult;
  parse_qs : string → gmap string (list string) }.

(** [s.lstrip(c)] for a single character [c] *)
Fixpoint lstrip (c : ascii) (s : string) : string :=
  match s with
  | EmptyString => EmptyString
  | String c' rest => if Ascii.eqb c' c then lstrip c rest else s
  end.

(** [s.split(sep)] for a single character [sep] *)
Fixpoint split (sep : ascii) (s : string) : list string :=
  match s with
  | EmptyString => [EmptyString]
  | String c rest =>
      if Ascii.eqb c sep then EmptyString :: split sep rest
      else
        match split sep rest with
        | piece :: pieces => String c piece :: pieces
        | [] => [String c EmptyString]
        end
  end.

Definition format_timestamp (seconds : Q) : string :=
  let hours := Qfloor (seconds / 3600) in
  let minutes := Qfloor (Qmod seconds 3600 / 60) in
  let secs := Qfloor (Qmod seconds 60) in
  fmt_02d hours +:+ ":" +:+ fmt_02d minutes +:+ ":" +:+ fmt_02d secs.

(** The dict [generate_youtube_snippet_links] returns. *)
Record snippet_links : Type := {
  watch_url : string;
  short_url : string;
  embed_url : string;
  start_time : Z;
  end_time : Z;
  duration : Z;
  timestamp_display : string }.

Section with_urllib.
Context `{Urllib}.

Definition is_url (input_str : string) : bool :=
  let parsed := urlparse input_str in
  bool_decide (scheme parsed ∈ ["http"; "https"]).

Definition is_youtube_url (url : string) : bool :=
  let parsed := urlparse url in
  bool_decide (netloc parsed ∈ ["youtube.com"; "www.youtube.com"; "m.youtube.com";
                                "youtu.be"; "www.youtu.be"]).

Definition extract_video_id (url : string) : result (option string) :=
  let parsed := urlparse url in
  if bool_decide (netloc parsed ∈ ["youtu.be"; "www.youtu.be"])
  then Ok (Some (lstrip "/" (path parsed)))
  else if bool_decide (netloc parsed ∈ ["youtube.com"; "www.youtube.com"; "m.youtube.com"])
  then
    if String.eqb (path parsed) "/watch" then
      match parse_qs (query parsed) !! "v" with
      | Some (v :: _) => Ok (Some v)
      | Some [] => Raise IndexError
      | None => Ok None
      end
    else if String.prefix "/embed/" (path parsed) then
      match split "/" (path parsed) !! 2%nat with
      | Some piece => Ok (Some piece)
      | None => Raise IndexError
      end
    else if String.prefix "/v/" (path parsed) then
      match split "/" (path parsed) !! 2%nat with
      | Some piece => Ok (Some piece)
      | None => Raise IndexError
      end
    else Ok None
  else Ok None.

Definition generate_youtube_timestamp_link (video_url : string) (start_time : Q)
    : result string :=
  rbind (extract_video_id video_url) (fun video_id =>
  if negb (rag_engine.truthy video_id) then Raise ValueError
  else
    let start_seconds := py_int start_time in
    Ok ("https://www.youtube.com/watch?v=" +:+ default "" video_id
        +:+ "&t=" +:+ pretty start_seconds)).

Definition generate_youtube_embed_link (video_url : string) (start_time : Q)
    (end_time : option Q) : result string :=
  rbind (extract_video_id video_url) (fun video_id =>
  if negb (rag_engine.truthy video_id) then Raise ValueError
  else
    let start_seconds := py_int start_time in
    let url := "https://www.youtube.com/embed/" +:+ default "" video_id
               +:+ "?start=" +:+ pretty start_seconds in
    match end_time with
    | Some end_time =>
        if Qeq_bool end_time 0 then Ok url
        else
          let end_seconds := py_int end_time in
          Ok (url +:+ "&end=" +:+ pretty end_seconds)
    | None => Ok url
    end).

Definition generate_youtube_snippet_links (video_url : string) (start_time end_time : Q)
    : result snippet_links :=
  rbind (extract_video_id video_url) (fun video_id =>
  if negb (rag_engine.truthy video_id) then Raise ValueError
  else
    let video_id := default "" video_id in
    let start_seconds := py_int start_time in
    let end_seconds := py_int end_time in
    Ok {| watch_url := "https://www.youtube.com/watch?v=" +:+ video_id
                       +:+ "&t=" +:+ pretty start_seconds;
          short_url := "https://youtu.be/" +:+ video_id +:+ "?t=" +:+ pretty start_seconds;
          embed_url := "https://www.youtube.com/embed/" +:+ video_id
                       +:+ "?start=" +:+ pretty start_seconds
                       +:+ "&end=" +:+ pretty end_seconds;
          start_time := start_seconds;
          end_time := end_seconds;
          duration := (end_seconds - start_seconds)%Z;
          timestamp_display := format_timestamp start_time +:+ " - "
                               +:+ format_timestamp end_time |}).

End with_urllib.
End video_transcriber.

(** * Vocabulary of the statements *)

(** What the chunking loop has consumed so far is the emitted groups
    followed by the texts still pending. *)
Definition chunker_inv (consumed : list string) (st : rag_engine.chunker) : Prop :=
  ∃ groups : list (list string),
    Forall (fun g => g ≠ []) groups
    ∧ chunk_text <$> rag_engine.chunks st = String.concat " " <$> groups
    ∧ mjoin groups ++ rag_engine.current_texts st = consumed.

(** The rational a finite float holds. *)
Definition Q_of_float (x : PrimFloat.float) : Q :=
  match FloatOps.Prim2SF x with
  | SpecFloat.S754_finite negative m e =>
      (if negative then -1 else 1) * inject_Z (Z.pos m) * 2 ^ e
  | _ => 0
  end.

(** [q] is a binary64 number: [m * 2^e] for a significand below [2^53]
    and an exponent of the format. *)
Definition binary64 (q : Q) : Prop :=
  ∃ m e : Z, (Z.abs m < 2 ^ 53)%Z ∧ (-1074 <= e <= 971)%Z ∧ q == inject_Z m * 2 ^ e.

(** [q] is a multiple of [2^-n], at most [bound] times it in magnitude. *)
Definition dyadic (n bound : Z) (q : Q) : Prop :=
  ∃ z : Z, (Z.abs z <= bound)%Z ∧ q == inject_Z z * 2 ^ (- n).

(** The times on which the window arithmetic never rounds: the multiples
    of [2^-20] seconds (about a microsecond) up to [2^29] seconds (17
    years), before or after 0.  A sum, a difference or a half of such
    numbers is a binary64 number, so the float operation returns it. *)
Definition exact_time (q : Q) : Prop := dyadic 20 (2 ^ 49) q.

(** [m] is an element of [xs] below (above) every element of [xs]. *)
Definition least (m : Q) (xs : list Q) : Prop := m ∈ xs ∧ Forall (Qle m) xs.
Definition greatest (m : Q) (xs : list Q) : Prop := m ∈ xs ∧ Forall (fun x => x <= m) xs.

(** The span [find_timestamps_for_topic] keeps of a search result. *)
Definition timestamp_of (r : search_result) : timestamp :=
  {| t_start := r_start r; t_end := r_end r; t_text := r_text r |}.

Definition same_window (a b : Q * Q) : Prop := a.1 == b.1 ∧ a.2 == b.2.

(** The design document's sentence: for the same results and the same
    [max_duration], every window of the batch path is the window of the
    snippet strategy. *)
Definition snippet_paths_agree : Prop :=
  ∀ (results : list search_result) (M : Q) (w : Q * Q),
    query_handler.snippet_time_range (timestamp_of <$> results) (JNum M) = Ok w →
    Forall (same_window w) (api.create_snippet_from_query_windows results M).

Definition intents : list string :=
  ["search"; "question"; "snippet"; "summary"; "keypoints"].

(** What [detect_intent] sends to the chat service. *)
Definition classification_request (user_query : string) : chat_request :=
  {| model := query_handler.GPT_MODEL;
     messages := [ {| role := "developer"; content := query_handler.intent_system_prompt |};
                   {| role := "user"; content := user_query |} ];
     reasoning_effort := Some "minimal";
     response_format := Some "json_object" |}.

(** The response that names the intent and the query and nothing else. *)
Definition bare_response (intent : json) (user_query : string) : query_handler.response :=
  {| query_handler.resp_intent := intent;
     query_handler.resp_query := user_query;
     query_handler.resp_results := None;
     query_handler.resp_response := None;
     query_handler.resp_timestamps := None;
     query_handler.resp_context := None;
     query_handler.resp_snippet_path := None;
     query_handler.resp_key_points := None |}.

(** The response of the snippet strategy for a resolved [range], before
    any clip is cut. *)
Definition snippet_response `{Services} (user_query : string) (topic : json)
    (first : timestamp) (range : Q * Q) : query_handler.response :=
  {| query_handler.resp_intent := JStr "snippet";
     query_handler.resp_query := user_query;
     query_handler.resp_results := None;
     query_handler.resp_response :=
       Some ("Found content about '" +:+ py_str topic +:+ "' at "
             +:+ query_handler._format_time range.1);
     query_handler.resp_timestamps := Some (Some range);
     query_handler.resp_context := Some (t_text first);
     query_handler.resp_snippet_path := None;
     query_handler.resp_key_points := None |}.

(** The design document's sentence: classification gives one of the five
    intents with a topic string, or fails with [IntentClassificationError]. *)
Definition classification_contract `{Services} (user_query : string) : Prop :=
  (∃ (r : json) (intent topic : string),
     query_handler.detect_intent user_query = Ok r
     ∧ subscript r "intent" = Ok (JStr intent)
     ∧ intent ∈ intents
     ∧ subscript r "topic" = Ok (JStr topic))
  ∨ query_handler.detect_intent user_query = Raise (AppError "IntentClassificationError").

(** The members [index_transcript] stores for a list of chunks: the member
    ["chunk_<i>"] holds the text, the embedding and the time span of the
    chunk at position [i]. *)
Definition indexed_members (chunks : list chunk) (embeddings : list (list Q))
    : gmap string item :=
  list_to_map
    (zip (rag_engine.chunk_ids (length chunks))
         (chroma_client.new_items (chunk_text <$> chunks) embeddings
            ((fun c => (chunk_start c, chunk_end c)) <$> chunks))).

(** The world in which the collection [name] exists and has no member. *)
Definition cleared (name : string) (w : world) : world :=
  {| collections := <[name := ∅]> (collections w);
     _current_collection_name := _current_collection_name w |}.

(** The world in which the collection [name] has exactly the members [c]
    and is the current one. *)
Definition repopulated (name : string) (c : gmap string item) (w : world) : world :=
  {| collections := <[name := c]> (collections w);
     _current_collection_name := Some name |}.

(** ChromaDB takes the chunks with their embeddings in one [add]: there
    is a chunk, one vector per chunk, the vectors have one dimension, and
    the chunks are no more than one call may carry. *)
Definition storable `{Services} (chunks : list chunk) (embeddings : list (list Q))
    : Prop :=
  chunks ≠ []
  ∧ length embeddings = length chunks
  ∧ is_Some (chroma_client.dimension embeddings)
  ∧ length chunks ≤ max_batch_size.

(** The collection [name], if the store has it, can be emptied in one
    [delete]. *)
Definition clearable `{Services} (name : string) (w : world) : Prop :=
  ∀ c : gmap string item, collections w !! name = Some c → size c ≤ max_batch_size.

(** No character of [s] is the letter t. *)
Definition no_t (s : string) : Prop :=
  Forall (fun c => c ≠ "t"%char) (String.list_ascii_of_string s).

(** The chunk a run of consecutive segments makes: their texts joined by
    a space, from the start of the first to the end of the last. *)
Definition chunk_of (run : list segment) : chunk :=
  {| chunk_text := String.concat " " (seg_text <$> run);
     chunk_start := from_option seg_start 0 (head run);
     chunk_end := from_option seg_end 0 (last run) |}.

(** [len(" ".join(texts))] for the texts of a run. *)
Definition run_length (run : list segment) : Z :=
  Z.of_nat (String.length (String.concat " " (seg_text <$> run))).

(** What the chunking loop has consumed, as segments: the emitted runs,
    each long enough and none longer than needed, followed by the pending
    segments, which are still too short. *)
Definition runs_inv (min_chunk_length : Z) (consumed : list segment)
    (st : rag_engine.chunker) : Prop :=
  ∃ (runs : list (list segment)) (pending : list segment),
    Forall (fun run => run ≠ []) runs
    ∧ rag_engine.chunks st = chunk_of <$> runs
    ∧ rag_engine.current_texts st = seg_text <$> pending
    ∧ mjoin runs ++ pending = consumed
    ∧ (pending ≠ [] →
       rag_engine.current_start st = from_option seg_start 0 (head pending))
    ∧ Forall (fun run => (min_chunk_length <= run_length run)%Z) runs
    ∧ Forall (fun run => ∀ k : nat, (0 < k < length run)%nat →
                (run_length (take k run) < min_chunk_length)%Z) runs
    ∧ (∀ k : nat, (0 < k <= length pending)%nat →
         (run_length (take k pending) < min_chunk_length)%Z).

(** The start and end times of a list of spans, in the order they are
    spoken. *)
Definition segment_times (segs : list segment) : list Q :=
  segs ≫= (fun seg => [seg_start seg; seg_end seg]).

Definition chunk_times (chunks : list chunk) : list Q :=
  chunks ≫= (fun c => [chunk_start c; chunk_end c]).

(** The current-collection pointer, when set, names a collection of the
    store. *)
Definition pointer_valid (w : world) : Prop :=
  ∀ name : string,
    _current_collection_name w = Some name → is_Some (collections w !! name).

(** The world with the current-collection pointer set to [current]. *)
Definition pointing_at (current : option string) (w : world) : world :=
  {| collections := collections w; _current_collection_name := current |}.

(** A search result is the chunk [c], with whatever relevance. *)
Definition result_of_chunk (r : search_result) (c : chunk) : Prop :=
  r_text r = chunk_text c ∧ r_start r = chunk_start c ∧ r_end r = chunk_end c.

(** The rows of a query answer are members of the collection queried. *)
Definition hits_are_members (c : gmap string item) (hits : list hit) : Prop :=
  Forall (fun h => ∃ it : item,
            c !! hit_id h = Some it
            ∧ document it = hit_document h
            ∧ meta_start it = hit_start h
            ∧ meta_end it = hit_end h) hits.

(** A computation that leaves the world as it found it, whatever its
    outcome. *)
Definition reads_only {A : Type} (m : M A) : Prop := ∀ w : world, (m w).2 = w.

(** What [_extract_quick_keypoints] sends to the chat service. *)
Definition keypoints_request (text : string) : chat_request :=
  {| model := query_handler.GPT_MODEL;
     messages := [ {| role := "developer"; content := query_handler.keypoints_system_prompt |};
                   {| role := "user"; content := text |} ];
     reasoning_effort := Some "low";
     response_format := Some "json_object" |}.

(** ** Scripted services and sample data

    A stand-in for the collaborators, as a test double would script them:
    the chat service answers [reply], which parses to [parsed]; every
    embedding is the same unit vector; a query returns the first
    [n_results] members of the collection, each at distance [distance];
    the store checks names by the rule of ChromaDB's documentation and
    takes 5461 records in one call. *)

Definition ascii_digit (c : ascii) : bool :=
  let n := nat_of_ascii c in (48 <=? n)%nat && (n <=? 57)%nat.

Definition ascii_alnum (c : ascii) : bool :=
  let n := nat_of_ascii c in
  ascii_digit c
  || (65 <=? n)%nat && (n <=? 90)%nat
  || (97 <=? n)%nat && (n <=? 122)%nat.

Fixpoint two_periods (chars : list ascii) : bool :=
  match chars with
  | c :: (c' :: _) as rest =>
      Ascii.eqb c "." && Ascii.eqb c' "." || two_periods rest
  | _ => false
  end.

(** The documented rule for a collection name.  Every name made of digits
    and periods only is refused, the IP addresses among them. *)
Definition documented_name_rule (name : string) : bool :=
  let chars := String.list_ascii_of_string name in
  (3 <=? length chars)%nat && (length chars <=? 512)%nat
  && forallb (fun c => ascii_alnum c || Ascii.eqb c "." || Ascii.eqb c "_"
                       || Ascii.eqb c "-") chars
  && from_option ascii_alnum false (head chars)
  && from_option ascii_alnum false (last chars)
  && negb (two_periods chars)
  && negb (forallb (fun c => ascii_digit c || Ascii.eqb c ".") chars).

(** A string of [n] characters, digits or letters all of them. *)
Definition alnum_string (n : nat) (s : string) : Prop :=
  ∃ chars : list ascii,
    s = String.string_of_list_ascii chars
    ∧ length chars = n
    ∧ Forall (fun c => ascii_alnum c = true) chars.

Definition scripted_query (distance : Q) (c : gmap string item) (e : list Q) (n : Z)
    : result (list hit) :=
  Ok (take (Z.to_nat n)
        ((fun '(id, it) =>
            {| hit_id := id; hit_document := document it;
               hit_start := meta_start it; hit_end := meta_end it;
               hit_distance := distance |}) <$> map_to_list c)).

Definition scripted (reply : result string) (parsed : option json) (distance : Q)
    : Services :=
  {| embeddings_create := fun batch => Ok ((fun _ => [1; 0]) <$> batch);
     chat_completions_create := fun _ => reply;
     json_loads := fun _ => parsed;
     collection_query := scripted_query distance;
     py_repr := fun _ => "<value>";
     create_video_snippet := fun path _ _ => Ok (path +:+ ".clip.mp4");
     valid_collection_name := documented_name_rule;
     max_batch_size := Z.to_nat 5461 |}.

Definition empty_world : world :=
  {| collections := ∅; _current_collection_name := None |}.

(** The transcript of the chunking scenario of the design document. *)
Definition lecture : transcript :=
  {| segments := [ {| seg_start := 0; seg_end := 5; seg_text := "intro" |};
                   {| seg_start := 5; seg_end := 40;
                      seg_text := "explains the main algorithm in detail" |};
                   {| seg_start := 40; seg_end := 42; seg_text := "thanks" |} ];
     full_text := "intro explains the main algorithm in detail thanks" |}.

(** Services whose index reports the cosine distance 3/2 (embeddings at
    an obtuse angle). *)
Definition obtuse : Services := scripted (Ok "") None (3 # 2).

(** The world after [lecture] was indexed, and the name it got. *)
Definition indexed_world : world :=
  (@rag_engine.index_transcript obtuse lecture None empty_world).2.

Definition lecture_collection : string := "transcript_video_6fe9a94b5e87".

(** A chat service that answers with an intent outside the five. *)
Definition chatty : Services :=
  scripted (Ok "(a JSON object)")
           (Some (JObj [("intent", JStr "chitchat"); ("topic", JStr "hello")])) 0.

Definition summarizer (intent : string) : Services :=
  scripted (Ok "(a JSON object)")
           (Some (JObj [("intent", JStr intent); ("topic", JStr "the whole video");
                        ("parameters", JObj [("max_duration", JNull);
                                             ("detail_level", JStr "brief")])])) 0.

(** Two search results that fit one window together. *)
Definition two_hits : list search_result :=
  [ {| r_text := "first"; r_start := 10; r_end := 12; r_relevance := 9 # 10 |};
    {| r_text := "second"; r_start := 20; r_end := 22; r_relevance := 8 # 10 |} ].

(** Two talks whose texts share their first 1000 characters. *)
Definition thousand_digits : string :=
  String.concat "" (replicate 100 "0123456789").

Definition talk_a : transcript :=
  {| segments := [ {| seg_start := 0; seg_end := 300; seg_text := thousand_digits |};
                   {| seg_start := 300; seg_end := 305; seg_text := "first ending" |} ];
     full_text := thousand_digits +:+ " first ending" |}.

Definition talk_b : transcript :=
  {| segments := [ {| seg_start := 0; seg_end := 280; seg_text := thousand_digits |};
                   {| seg_start := 280; seg_end := 290; seg_text := "another ending" |};
                   {| seg_start := 290; seg_end := 291; seg_text := "bye" |} ];
     full_text := thousand_digits +:+ " another ending bye" |}.

(** Services whose embedding endpoint is unreachable. *)
Definition offline : Services :=
  {| embeddings_create := fun _ => Raise (LibraryError "openai");
     chat_completions_create := fun _ => Raise (LibraryError "openai");
     json_loads := fun _ => None;
     collection_query := scripted_query 0;
     py_repr := fun _ => "<value>";
     create_video_snippet := fun _ _ _ => Raise (LibraryError "moviepy");
     valid_collection_name := documented_name_rule;
     max_batch_size := Z.to_nat 5461 |}.

(** Services whose embedding endpoint refuses a batch that holds an empty
    string. *)
Definition picky : Services :=
  {| embeddings_create := fun batch =>
       if existsb (fun text => eq_str text "") batch
       then Raise (LibraryError "openai")
       else Ok ((fun _ => [1; 0]) <$> batch);
     chat_completions_create := fun _ => Ok "";
     json_loads := fun _ => None;
     collection_query := scripted_query 0;
     py_repr := fun _ => "<value>";
     create_video_snippet := fun path _ _ => Ok (path +:+ ".clip.mp4");
     valid_collection_name := documented_name_rule;
     max_batch_size := Z.to_nat 5461 |}.

(** A chat service whose answer names an intent and a topic and nothing
    else. *)
Definition terse (intent topic : string) : Services :=
  scripted (Ok "(a JSON object)")
           (Some (JObj [("intent", JStr intent); ("topic", JStr topic)])) 0.

(** The world in which the collection of [lecture] is current and
    empty. *)
Definition hollow_world : world :=
  pointing_at (Some lecture_collection) (cleared lecture_collection empty_world).

(** A talk of 100000 characters and an ending. *)
Definition long_talk (ending : string) : transcript :=
  {| segments := [];
     full_text := String.concat "" (replicate (Z.to_nat 10000) "0123456789") +:+ ending |}.

(** A URL parser scripted to read every URL as the page of one embedded
    player. *)
Definition player_page : video_transcriber.Urllib :=
  {| video_transcriber.urlparse := fun _ =>
       {| video_transcriber.scheme := "https";
          video_transcriber.netloc := "www.youtube.com";
          video_transcriber.path := "/embed/dQw4w9WgXcQ/extra";
          video_transcriber.query := "" |};
     video_transcriber.parse_qs := fun _ => ∅ |}.

(** ** Tactics *)

(** Unfolds the monad's plumbing wherever it has become visible. *)
Ltac run_monad :=
  repeat progress
    (unfold bind, ret, raise, lift, try_except, get_collections, set_collections,
       get_current, set_current, chroma_client.get_or_create_collection,
       chroma_client.get_collection, chroma_client.delete_collection,
       chroma_client.members, chroma_client.get_ids, chroma_client.delete,
       chroma_client.add, chroma_client.query in *;
     cbv beta iota in *).

(** Linear arithmetic over [Q] once [x / 2] is read as [x * (1 # 2)]. *)
Ltac lra_half := unfold Qdiv in *; change (/ 2) with (1 # 2) in *; lra.

(** * Properties *)

(** ** [hashlib.md5] *)

Example md5_of_nothing :
  hashlib.md5_hexdigest (hashlib.encode "") = "d41d8cd98f00b204e9800998ecf8427e".
Proof. vm_compute. reflexivity. Qed.

Example md5_of_abc :
  hashlib.md5_hexdigest (hashlib.encode "abc") = "900150983cd24fb0d6963f7d28e17f72".
Proof. vm_compute. reflexivity. Qed.

Example md5_of_eighty_digits :
  hashlib.md5_hexdigest
    (hashlib.encode
       "12345678901234567890123456789012345678901234567890123456789012345678901234567890")
  = "57edf4a22be3c955ac49da2e2107b67a".
Proof. vm_compute. reflexivity. Qed.

(** ** The embedding on small inputs *)

Example chunk_transcript_lecture :
  rag_engine.chunk_transcript lecture 20
  = [ {| chunk_text := "intro explains the main algorithm in detail";
         chunk_start := 0; chunk_end := 40 |};
      {| chunk_text := "thanks"; chunk_start := 40; chunk_end := 42 |} ].
Proof. reflexivity. Qed.

Example replace_removes_every_occurrence :
  rag_engine.replace "transcript_video_transcript_1" "transcript_" "" = "video_1"
  ∧ rag_engine.replace "aaa" "aa" "b" = "ba"
  ∧ rag_engine.replace "abc" "" "-" = "-a-b-c-".
Proof. vm_compute. done. Qed.

Example format_time_of_an_hour_and_more :
  query_handler._format_time (7445 # 2) = "01:02:02"
  ∧ rag_engine._format_time 125 = "02:05"
  ∧ rag_engine._format_time 3725 = "01:02:05".
Proof. vm_compute. done. Qed.

Example generate_embeddings_batches :
  rag_engine.range_step 250 100 = [0; 100; 200]%nat
  ∧ rag_engine.range_step 200 100 = [0; 100]%nat
  ∧ rag_engine.range_step 0 100 = [].
Proof. vm_compute. done. Qed.

Example lecture_is_indexed_under_its_hash :
  (@rag_engine.index_transcript obtuse lecture None empty_world).1 = Ok lecture_collection.
Proof. vm_compute. reflexivity. Qed.

(** ** Joining strings *)

Lemma concat_cons_ne (sep x : string) (l : list string) :
  l ≠ [] → String.concat sep (x :: l) = (x +:+ sep +:+ String.concat sep l)%string.
Proof. destruct l; [done | reflexivity]. Qed.

Lemma string_app_assoc (a b c : string) : ((a +:+ b) +:+ c = a +:+ (b +:+ c))%string.
Proof.
  induction a as [| ch a IH]; [done |].
  change (String ch ((a +:+ b) +:+ c) = String ch (a +:+ (b +:+ c)))%string.
  by f_equal.
Qed.

Lemma concat_app_ne (sep : string) (l1 l2 : list string) :
  l1 ≠ [] → l2 ≠ [] →
  String.concat sep (l1 ++ l2)
  = (String.concat sep l1 +:+ sep +:+ String.concat sep l2)%string.
Proof.
  intros H1 H2. induction l1 as [| x l1 IH]; [done |].
  destruct l1 as [| y l1].
  - simpl app. by rewrite concat_cons_ne.
  - change ((x :: y :: l1) ++ l2) with (x :: ((y :: l1) ++ l2)).
    rewrite concat_cons_ne by done. rewrite IH by done.
    rewrite (concat_cons_ne sep x (y :: l1)) by done.
    by rewrite !string_app_assoc.
Qed.

(** Joining the joined groups is joining everything, as long as no group
    is empty. *)
Lemma concat_groups (sep : string) (groups : list (list string)) :
  Forall (fun g => g ≠ []) groups →
  String.concat sep (String.concat sep <$> groups) = String.concat sep (mjoin groups).
Proof.
  induction 1 as [| g groups Hg Hgs IH]; [done |].
  destruct groups as [| g' groups].
  - simpl. by rewrite app_nil_r.
  - rewrite fmap_cons, concat_cons_ne by done.
    rewrite IH. change (mjoin (g :: g' :: groups)) with (g ++ mjoin (g' :: groups)).
    rewrite concat_app_ne; [done | done |].
    inversion Hgs; subst. destruct g'; [done | discriminate].
Qed.

(** ** The chunker *)

Section chunker.
Import rag_engine.

Lemma chunk_segment_inv m n st i seg consumed :
  chunker_inv consumed st →
  chunker_inv (consumed ++ [seg_text seg]) (chunk_segment m n st i seg).
Proof.
  intros (groups & Hne & Htexts & Hall). unfold chunk_segment.
  destruct (_ || _).
  - exists (groups ++ [current_texts st ++ [seg_text seg]]). simpl. split_and!.
    + apply Forall_app. split; [done |]. constructor; [| done].
      by destruct (current_texts st).
    + by rewrite !fmap_app, Htexts.
    + rewrite join_app. simpl. rewrite !app_nil_r, <- Hall. by rewrite app_assoc.
  - exists groups. simpl. split_and!; [done | done |].
    by rewrite <- Hall, app_assoc.
Qed.

Lemma chunk_loop_inv m n segs : ∀ i st consumed,
  chunker_inv consumed st →
  chunker_inv (consumed ++ (seg_text <$> segs)) (chunk_loop m n i segs st).
Proof.
  induction segs as [| seg rest IH]; intros i st consumed Hinv; simpl.
  - by rewrite app_nil_r.
  - rewrite (cons_middle (seg_text seg)), app_assoc.
    apply IH. by apply chunk_segment_inv.
Qed.

(** The last segment is always emitted, so nothing stays pending. *)
Lemma chunk_loop_flushes m segs : ∀ i st n,
  (i + length segs = n)%nat →
  segs ≠ [] ∨ current_texts st = [] →
  current_texts (chunk_loop m n i segs st) = [].
Proof.
  induction segs as [| seg rest IH]; intros i st n Hlen Hpending; simpl.
  - by destruct Hpending.
  - apply IH; [simpl in Hlen; lia |].
    destruct rest as [| seg' rest]; [right | by left].
    unfold chunk_segment.
    replace (Z.of_nat i =? Z.of_nat n - 1)%Z with true
      by (symmetry; apply Z.eqb_eq; simpl in Hlen; lia).
    by rewrite orb_true_r.
Qed.

Lemma chunk_transcript_groups t m :
  ∃ groups : list (list string),
    Forall (fun g => g ≠ []) groups
    ∧ chunk_text <$> chunk_transcript t m = String.concat " " <$> groups
    ∧ mjoin groups = seg_text <$> segments t.
Proof.
  unfold chunk_transcript.
  set (st0 := {| chunks := []; current_texts := []; current_start := 0; current_end := 0 |}).
  destruct (chunk_loop_inv m (length (segments t)) (segments t) 0 st0 [])
    as (groups & Hne & Htexts & Hall).
  { exists []. by simpl. }
  exists groups. split_and!; [done | done |].
  rewrite (chunk_loop_flushes m (segments t) 0 st0) in Hall by (by right || done).
  by rewrite app_nil_r in Hall.
Qed.

Lemma chunk_transcript_nonempty (t : transcript) (m : Z) :
  segments t ≠ [] → chunk_transcript t m ≠ [].
Proof.
  intros Hsegs Hnil.
  destruct (chunk_transcript_groups t m) as (groups & _ & Htexts & Hall).
  rewrite Hnil in Htexts. symmetry in Htexts. apply fmap_nil_inv in Htexts as ->.
  simpl in Hall. symmetry in Hall. by apply fmap_nil_inv in Hall.
Qed.

(** C4. Chunking drops no content: joining the chunk texts with a space,
    in order, gives exactly the segment texts joined with a space (every
    chunk is the join of a non-empty run of consecutive segment texts, and
    the runs together are all the segments); an empty segment list gives
    an empty list of chunks. *)
Theorem chunk_transcript_covers_all_text t m :
  String.concat " " (chunk_text <$> chunk_transcript t m)
  = String.concat " " (seg_text <$> segments t)
  ∧ (∃ groups : list (list string),
       Forall (fun g => g ≠ []) groups
       ∧ chunk_text <$> chunk_transcript t m = String.concat " " <$> groups
       ∧ mjoin groups = seg_text <$> segments t)
  ∧ chunk_transcript {| segments := []; full_text := full_text t |} m = [].
Proof.
  split_and!; [| apply chunk_transcript_groups | reflexivity].
  destruct (chunk_transcript_groups t m) as (groups & Hne & Htexts & Hall).
  by rewrite Htexts, concat_groups, Hall.
Qed.

End chunker.

(** ** The snippet time window *)

Lemma Qmin_cases (x y : Q) : Qmin x y = x ∨ Qmin x y = y.
Proof. unfold Qmin, GenericMinMax.gmin. destruct (x ?= y); auto. Qed.

Lemma Qmax_cases (x y : Q) : Qmax x y = x ∨ Qmax x y = y.
Proof. unfold Qmax, GenericMinMax.gmax. destruct (x ?= y); auto. Qed.

Lemma fold_left_Qmin_least (xs : list Q) : ∀ x, least (fold_left Qmin xs x) (x :: xs).
Proof.
  induction xs as [| y xs IH]; intros x; simpl.
  - split; [apply list_elem_of_here | constructor; [apply Qle_refl | constructor]].
  - destruct (IH (Qmin x y)) as [Hin Hle]. split.
    + apply elem_of_cons in Hin as [-> | Hin].
      * destruct (Qmin_cases x y) as [-> | ->]; rewrite !elem_of_cons; auto.
      * rewrite !elem_of_cons; auto.
    + inversion Hle as [| ? ? Hhd Htl]; subst.
      constructor; [| constructor; [| done]].
      * eapply Qle_trans; [exact Hhd | apply Q.le_min_l].
      * eapply Qle_trans; [exact Hhd | apply Q.le_min_r].
Qed.

Lemma fold_left_Qmax_greatest (xs : list Q) : ∀ x, greatest (fold_left Qmax xs x) (x :: xs).
Proof.
  induction xs as [| y xs IH]; intros x; simpl.
  - split; [apply list_elem_of_here | constructor; [apply Qle_refl | constructor]].
  - destruct (IH (Qmax x y)) as [Hin Hle]. split.
    + apply elem_of_cons in Hin as [-> | Hin].
      * destruct (Qmax_cases x y) as [-> | ->]; rewrite !elem_of_cons; auto.
      * rewrite !elem_of_cons; auto.
    + inversion Hle as [| ? ? Hhd Htl]; subst.
      constructor; [| constructor; [| done]].
      * eapply Qle_trans; [apply Q.le_max_l | exact Hhd].
      * eapply Qle_trans; [apply Q.le_max_r | exact Hhd].
Qed.

Lemma Qgt_bool_true (x y : Q) : Qgt_bool x y = true ↔ y < x.
Proof.
  unfold Qgt_bool. rewrite negb_true_iff, <- not_true_iff_false, Qle_bool_iff.
  split; [apply Qnot_le_lt | apply Qlt_not_le].
Qed.

Lemma Qgt_bool_false (x y : Q) : Qgt_bool x y = false ↔ x <= y.
Proof. unfold Qgt_bool. by rewrite negb_false_iff, Qle_bool_iff. Qed.

Section time_window.
Import query_handler.

(** The window of lines 258-265 for a numeric [max_duration], unfolded. *)
Lemma snippet_time_range_numeric (first : timestamp) (rest : list timestamp) (M : Q) :
  let start := Qmax 0 (fold_left Qmin (t_start <$> rest) (t_start first) - 2) in
  let end_ := fold_left Qmax (t_end <$> rest) (t_end first) + 2 in
  let center := (t_start first + t_end first) / 2 in
  snippet_time_range (first :: rest) (JNum M)
  = Ok (if Qgt_bool (end_ - start) M
        then (Qmax 0 (center - M / 2), center + M / 2)
        else (start, end_)).
Proof.
  intros start end_ center. subst start end_ center.
  unfold snippet_time_range, widen, clamp. simpl.
  by destruct (Qgt_bool _ M).
Qed.

(** Sums, differences and halves of dyadic numbers are dyadic, and a
    dyadic number with a significand below [2^53] is a binary64 number. *)
Lemma dyadic_binary64 (n bound : Z) (q : Q) :
  (-971 <= n <= 1074)%Z → (bound < 2 ^ 53)%Z → dyadic n bound q → binary64 q.
Proof.
  intros Hn Hb (z & Hz & Hq). exists z, (- n)%Z. split_and!; [lia | lia | lia | done].
Qed.

Lemma dyadic_plus (n b1 b2 : Z) (x y : Q) :
  dyadic n b1 x → dyadic n b2 y → dyadic n (b1 + b2) (x + y).
Proof.
  intros (z1 & Hz1 & Hx) (z2 & Hz2 & Hy). exists (z1 + z2)%Z. split; [lia |].
  rewrite Hx, Hy, inject_Z_plus. ring.
Qed.

Lemma dyadic_minus (n b1 b2 : Z) (x y : Q) :
  dyadic n b1 x → dyadic n b2 y → dyadic n (b1 + b2) (x - y).
Proof.
  intros (z1 & Hz1 & Hx) (z2 & Hz2 & Hy). exists (z1 - z2)%Z. split; [lia |].
  rewrite Hx, Hy. unfold Z.sub. rewrite inject_Z_plus, inject_Z_opp. ring.
Qed.

Lemma dyadic_half (n b : Z) (x : Q) :
  dyadic n b x → dyadic (n + 1) b (x / 2).
Proof.
  intros (z & Hz & Hx). exists z. split; [done |].
  rewrite Hx. replace (- (n + 1))%Z with (- n + -1)%Z by lia.
  rewrite Qpower_plus by done. change (2 ^ (-1)) with (1 # 2).
  unfold Qdiv. change (/ 2) with (1 # 2). ring.
Qed.

Lemma dyadic_max0 (n b : Z) (x : Q) :
  (0 <= b)%Z → dyadic n b x → dyadic n b (Qmax 0 x).
Proof.
  intros Hb Hx. destruct (Q.max_spec 0 x) as [[_ Heq] | [_ Heq]].
  - destruct Hx as (z & Hz & Hx). exists z. split; [done |]. by rewrite Heq.
  - exists 0%Z. split; [lia |]. rewrite Heq. ring.
Qed.

Lemma dyadic_two : dyadic 20 (2 ^ 21) 2.
Proof. exists (2 ^ 21)%Z. split; [lia | reflexivity]. Qed.

(** No operation of the window arithmetic rounds on [exact_time]s: for a
    least start [lo], a greatest end [hi], a first span [s]..[e] and a
    [max_duration] [M], each number the code computes on the way is a
    binary64 number. *)
Lemma window_arithmetic_is_exact (lo hi s e M : Q) :
  exact_time lo → exact_time hi → exact_time s → exact_time e → exact_time M →
  let start := Qmax 0 (lo - 2) in
  let end_ := hi + 2 in
  let center := (s + e) / 2 in
  Forall binary64
    [lo - 2; start; end_; end_ - start; s + e; center; M / 2;
     center - M / 2; Qmax 0 (center - M / 2); center + M / 2].
Proof.
  intros Hlo Hhi Hs He HM start end_ center. unfold exact_time in *.
  pose proof dyadic_two as Htwo.
  pose proof (dyadic_minus _ _ _ _ _ Hlo Htwo) as Hpad.
  pose proof (dyadic_max0 20 (2 ^ 49 + 2 ^ 21) _ ltac:(lia) Hpad) as Hstart.
  pose proof (dyadic_plus _ _ _ _ _ Hhi Htwo) as Hend.
  pose proof (dyadic_minus _ _ _ _ _ Hend Hstart) as Hwidth.
  pose proof (dyadic_plus _ _ _ _ _ Hs He) as Hsum.
  pose proof (dyadic_half _ _ _ Hsum) as Hcenter.
  pose proof (dyadic_half _ _ _ HM) as Hhalf.
  pose proof (dyadic_minus _ _ _ _ _ Hcenter Hhalf) as Hleft.
  pose proof (dyadic_max0 (20 + 1) (2 ^ 49 + 2 ^ 49 + 2 ^ 49) _ ltac:(lia) Hleft)
    as Hfloor.
  pose proof (dyadic_plus _ _ _ _ _ Hcenter Hhalf) as Hright.
  repeat first [apply List.Forall_nil | apply List.Forall_cons];
    (eapply dyadic_binary64; [| | eassumption]); done.
Qed.

(** C2, amended. For a non-empty list of spans and a numeric
    [max_duration] [M], all of them times on which the arithmetic of the
    code is exact (multiples of [2^-20] s up to [2^29] s): the window is
    first widened to [max(0, least start - 2)] and [greatest end + 2] (2
    is the margin the code fixes); exactly when the widened window is
    longer than [M] it is replaced by [max(0, c - M/2)], [c + M/2] with
    [c] the midpoint of the first span, which is [M] long unless the
    floor at 0 applies; otherwise the widened window is the answer; and
    every number computed on the way is a binary64 number, so that the
    floats of the code hold these very values.  The two scenarios of the
    design document evaluate to 75..135 and 8..14. *)
Theorem snippet_window_widen_then_clamp (first : timestamp) (rest : list timestamp) (M : Q) :
  Forall (fun t => exact_time (t_start t) ∧ exact_time (t_end t)) (first :: rest) →
  exact_time M →
  (∃ lo hi : Q,
     least lo (t_start <$> first :: rest)
     ∧ greatest hi (t_end <$> first :: rest)
     ∧ widen (first :: rest) = Ok (Qmax 0 (lo - 2), hi + 2)
     ∧ let start := Qmax 0 (lo - 2) in
       let end_ := hi + 2 in
       let center := (t_start first + t_end first) / 2 in
       (M < end_ - start →
          snippet_time_range (first :: rest) (JNum M)
          = Ok (Qmax 0 (center - M / 2), center + M / 2)
          ∧ (0 <= center - M / 2 →
             center + M / 2 - Qmax 0 (center - M / 2) == M))
       ∧ (¬ M < end_ - start →
          snippet_time_range (first :: rest) (JNum M) = Ok (start, end_))
       ∧ Forall binary64
           [lo - 2; start; end_; end_ - start; t_start first + t_end first; center;
            M / 2; center - M / 2; Qmax 0 (center - M / 2); center + M / 2])
  ∧ (∃ s e : Q,
       snippet_time_range [ {| t_start := 10; t_end := 200; t_text := "" |} ] (JNum 60)
       = Ok (s, e) ∧ s == 75 ∧ e == 135)
  ∧ (∃ s e : Q,
       snippet_time_range [ {| t_start := 10; t_end := 12; t_text := "" |} ] (JNum 60)
       = Ok (s, e) ∧ s == 8 ∧ e == 14).
Proof.
  intros Hexact HM. split_and!.
  - exists (fold_left Qmin (t_start <$> rest) (t_start first)),
           (fold_left Qmax (t_end <$> rest) (t_end first)).
    pose proof (fold_left_Qmin_least (t_start <$> rest) (t_start first)) as Hlo.
    pose proof (fold_left_Qmax_greatest (t_end <$> rest) (t_end first)) as Hhi.
    split_and!.
    + exact Hlo.
    + exact Hhi.
    + reflexivity.
    + intros start end_ center. split_and!.
      * intros Hlong. rewrite snippet_time_range_numeric. fold start end_ center.
        apply Qgt_bool_true in Hlong. rewrite Hlong. split; [done |].
        intros Hfloor. rewrite (Q.max_r _ _ Hfloor). lra_half.
      * intros Hfits. rewrite snippet_time_range_numeric. fold start end_.
        destruct (Qgt_bool (end_ - start) M) eqn:Hgt; [| done].
        by apply Qgt_bool_true in Hgt.
      * rewrite Forall_forall in Hexact.
        destruct Hlo as [Hlo _]. destruct Hhi as [Hhi _].
        change (t_start first :: (t_start <$> rest)) with (t_start <$> first :: rest) in Hlo.
        change (t_end first :: (t_end <$> rest)) with (t_end <$> first :: rest) in Hhi.
        apply list_elem_of_fmap in Hlo as (tlo & Hlo & Htlo).
        apply list_elem_of_fmap in Hhi as (thi & Hhi & Hthi).
        subst start end_ center. rewrite Hlo, Hhi.
        apply window_arithmetic_is_exact; try done.
        -- by apply Hexact.
        -- by apply Hexact.
        -- apply Hexact. by left.
        -- apply Hexact. by left.
  - eexists _, _. split; [vm_compute; reflexivity | split; reflexivity].
  - eexists _, _. split; [vm_compute; reflexivity | split; reflexivity].
Qed.

(** In exact arithmetic the window is never longer than a numeric
    [max_duration], whichever branch produced it. *)
Lemma snippet_time_range_bounded (first : timestamp) (rest : list timestamp) (M : Q) :
  ∃ s e : Q, snippet_time_range (first :: rest) (JNum M) = Ok (s, e) ∧ e - s <= M.
Proof.
  rewrite snippet_time_range_numeric.
  set (start := Qmax 0 _). set (end_ := _ + 2). set (center := _ / 2).
  destruct (Qgt_bool (end_ - start) M) eqn:Hgt.
  - eexists _, _. split; [done |].
    apply Qgt_bool_true in Hgt.
    destruct (Q.max_spec 0 (center - M / 2)) as [[_ ->] | [Hfloor ->]]; lra_half.
  - eexists _, _. split; [done |]. by apply Qgt_bool_false.
Qed.

End time_window.

(** A whole number of seconds up to [2^29] is an [exact_time]. *)
Lemma exact_time_of_Z (z : Z) : (Z.abs z <= 2 ^ 29)%Z → exact_time (inject_Z z).
Proof.
  intros Hz. exists (z * 2 ^ 20)%Z. split.
  - change (2 ^ 20)%Z with 1048576%Z. change (2 ^ 49)%Z with 562949953421312%Z.
    change (2 ^ 29)%Z with 536870912%Z in Hz. lia.
  - rewrite inject_Z_mult.
    change (inject_Z z == inject_Z z * (1048576 # 1) * (1 # 1048576)). lra.
Qed.

Lemma snippet_window_widen_then_clamp_witness :
  ∃ lo hi : Q,
    least lo [10; 20]
    ∧ greatest hi [12; 22]
    ∧ query_handler.widen (timestamp_of <$> two_hits) = Ok (Qmax 0 (lo - 2), hi + 2)
    ∧ Forall binary64 [lo - 2; hi + 2].
Proof.
  destruct (snippet_window_widen_then_clamp
              {| t_start := 10; t_end := 12; t_text := "first" |}
              [ {| t_start := 20; t_end := 22; t_text := "second" |} ] 60)
    as [(lo & hi & Hlo & Hhi & Hwiden & _ & _ & Hexact) _].
  - repeat first [apply List.Forall_nil | apply List.Forall_cons | split];
      by apply (exact_time_of_Z _).
  - by apply (exact_time_of_Z 60).
  - exists lo, hi. split_and!; [exact Hlo | exact Hhi | exact Hwiden |].
    apply Forall_cons in Hexact as [Hpad Hexact].
    apply Forall_cons in Hexact as [_ Hexact].
    apply Forall_cons in Hexact as [Hend _].
    apply List.Forall_cons; [exact Hpad |]. apply List.Forall_cons; [exact Hend |].
    apply List.Forall_nil.
Defined.

(** C2 as stated fails on the floats of the code.  For the span 10..200
    of the design document and a [max_duration] of 60.1 the widened
    window, 8..202, is too long, the floor at 0 does not apply, and the
    window the code returns (74.95..135.05 as Python prints it) is not
    60.1 long: its width exceeds the float 60.1 by [2^-47].  And the
    window is not replaced exactly when the padded span is longer than
    [max_duration]: for the span 0..0.3 and a [max_duration] of 2.3 the
    greatest end plus 2 exceeds [max_duration], but the sum rounds to the
    float 2.3 and the code keeps the window 0..2.3. *)
Lemma recentred_window_is_rounded :
  let M := on_floats.sixty_and_a_tenth in
  let window := on_floats.snippet_time_range on_floats.long_span [] M in
  Q_of_float M < (200 + 2) - Qmax 0 (10 - 2)
  ∧ 0 < Q_of_float window.1
  ∧ Q_of_float window.2 - Q_of_float window.1 - Q_of_float M == 1 # 140737488355328
  ∧ let M' := on_floats.two_and_three_tenths in
    let kept := on_floats.snippet_time_range on_floats.short_span [] M' in
    Q_of_float M' < (Q_of_float on_floats.three_tenths + 2) - Qmax 0 (0 - 2)
    ∧ kept = (on_floats.short_span.1, M').
Proof.
  cbv zeta. split_and!; vm_compute; reflexivity.
Qed.

(** ** The snippet strategy of [handle_user_query] *)

Section snippet_strategy.
Context `{Services}.
Import query_handler.

(** The snippet branch, once the classifier's answer and the search
    results are known: the window is [clamp]ed to whatever
    [parameters.get("max_duration", 60)] evaluates to, and a clip is cut
    when a video path was given. *)
Lemma handle_user_query_snippet user_query tr vp hist w w' j topic first rest :
  detect_intent user_query = Ok j →
  subscript j "intent" = Ok (JStr "snippet") →
  subscript j "topic" = Ok topic →
  rag_engine.find_timestamps_for_topic topic 3 w = (Ok (first :: rest), w') →
  handle_user_query user_query tr vp hist w
  = match rbind (widen (first :: rest)) (fun range =>
          rbind (subscript j "parameters") (fun parameters =>
          rbind (dict_get parameters "max_duration" (JNum 60)) (fun max_duration =>
          clamp (first :: rest) range max_duration))) with
    | Ok range =>
        let response := snippet_response user_query topic first range in
        match vp with
        | Some path =>
            if String.eqb path "" then (Ok response, w')
            else
              match create_video_snippet path range.1 range.2 with
              | Ok snippet_path => (Ok (set_snippet_path snippet_path response), w')
              | Raise e => (Raise e, w')
              end
        | None => (Ok response, w')
        end
    | Raise e => (Raise e, w')
    end.
Proof.
  intros Hj Hintent Htopic Hts.
  unfold handle_user_query, bind, lift. rewrite Hj, Hintent, Htopic.
  change (eq_str (JStr "snippet") "search") with false.
  change (eq_str (JStr "snippet") "question") with false.
  change (eq_str (JStr "snippet") "snippet") with true.
  cbv beta iota. rewrite Hts.
  change (widen (first :: rest))
    with (Ok (Qmax 0 (fold_left Qmin (t_start <$> rest) (t_start first) - 2),
              fold_left Qmax (t_end <$> rest) (t_end first) + 2)).
  cbv beta iota delta [rbind].
  destruct (subscript j "parameters") as [parameters |]; [| done].
  destruct (dict_get parameters "max_duration" (JNum 60)) as [max_duration |]; [| done].
  destruct (clamp _ _ max_duration) as [[start end_] |]; [| done].
  cbv zeta. unfold rag_engine.truthy, ret.
  destruct vp as [path |]; [| done].
  destruct (String.eqb path ""); [done |]. cbn [negb fst snd].
  by destruct (create_video_snippet path start end_).
Qed.

(** C6 (the code departs from it). When the classifier answers
    ["max_duration": null], as its prompt tells it to when no duration
    was mentioned, [parameters.get("max_duration", 60)] is [None], not
    60, and the comparison [end - start > max_duration] raises
    [TypeError]: no window is returned. *)
Theorem snippet_null_max_duration_raises user_query tr vp hist w w' j topic first rest
    parameters :
  detect_intent user_query = Ok j →
  subscript j "intent" = Ok (JStr "snippet") →
  subscript j "topic" = Ok topic →
  subscript j "parameters" = Ok parameters →
  subscript parameters "max_duration" = Ok JNull →
  rag_engine.find_timestamps_for_topic topic 3 w = (Ok (first :: rest), w') →
  handle_user_query user_query tr vp hist w = (Raise TypeError, w').
Proof.
  intros Hj Hintent Htopic Hparams Hnull Hts.
  rewrite (handle_user_query_snippet _ _ _ _ _ _ _ _ _ _ Hj Hintent Htopic Hts).
  rewrite Hparams.
  assert (dict_get parameters "max_duration" (JNum 60) = Ok JNull) as Hget.
  { unfold subscript in Hnull. unfold dict_get.
    destruct parameters as [| | | | | members]; try discriminate.
    destruct (assoc "max_duration" members); [done | discriminate]. }
  unfold widen. simpl. by rewrite Hget.
Qed.

(** When the classifier leaves the key out, or gives a number, the
    strategy does return a window, and in exact arithmetic it is no
    longer than that number (60 seconds by default). *)
Lemma snippet_numeric_max_duration_bounded user_query tr hist w w' j topic first rest
    parameters M :
  detect_intent user_query = Ok j →
  subscript j "intent" = Ok (JStr "snippet") →
  subscript j "topic" = Ok topic →
  subscript j "parameters" = Ok parameters →
  dict_get parameters "max_duration" (JNum 60) = Ok (JNum M) →
  rag_engine.find_timestamps_for_topic topic 3 w = (Ok (first :: rest), w') →
  ∃ start end_ : Q,
    handle_user_query user_query tr None hist w
    = (Ok (snippet_response user_query topic first (start, end_)), w')
    ∧ snippet_time_range (first :: rest) (JNum M) = Ok (start, end_)
    ∧ end_ - start <= M.
Proof.
  intros Hj Hintent Htopic Hparams Hget Hts.
  rewrite (handle_user_query_snippet _ _ _ _ _ _ _ _ _ _ Hj Hintent Htopic Hts).
  rewrite Hparams.
  destruct (snippet_time_range_bounded first rest M) as (s & e & Hrange & Hle).
  exists s, e. split_and!; [| done | done].
  unfold snippet_time_range in Hrange.
  destruct (widen (first :: rest)) as [range |]; [| discriminate].
  cbv beta iota delta [rbind] in Hrange |- *. by rewrite Hget, Hrange.
Qed.

End snippet_strategy.

Lemma snippet_null_max_duration_raises_witness :
  @query_handler.handle_user_query (summarizer "snippet") "clip the algorithm part"
     (Some lecture) (Some "talk.mp4") None indexed_world
  = (Raise TypeError, indexed_world).
Proof.
  apply (@snippet_null_max_duration_raises (summarizer "snippet")
           "clip the algorithm part" (Some lecture) (Some "talk.mp4") None
           indexed_world indexed_world
           (JObj [("intent", JStr "snippet"); ("topic", JStr "the whole video");
                  ("parameters", JObj [("max_duration", JNull);
                                       ("detail_level", JStr "brief")])])
           (JStr "the whole video")
           {| t_start := 0; t_end := 42;
              t_text := "intro explains the main algorithm in detail thanks" |}
           []
           (JObj [("max_duration", JNull); ("detail_level", JStr "brief")])).
  - reflexivity.
  - reflexivity.
  - reflexivity.
  - reflexivity.
  - reflexivity.
  - vm_compute. reflexivity.
Defined.

(** ** The two snippet paths *)

(** C7 as stated fails: for two results the strategy returns the one
    window 8..24 that covers both, the batch path the two windows 8..14
    and 18..24. *)
Lemma snippet_paths_disagree : ¬ snippet_paths_agree.
Proof.
  intros Hagree. specialize (Hagree two_hits 60 (8, 24) eq_refl).
  apply Forall_cons in Hagree as [[_ Hend] _]. discriminate Hend.
Qed.

(** C7, amended. The batch path resolves each result on its own: its
    window for a result is what the snippet strategy computes from that
    result alone (same margin of 2 seconds, same widening, same cut to
    [max_duration] around the midpoint), so it returns one window per
    result; the two paths return the same window when there is exactly one
    result. *)
Theorem batch_path_resolves_each_result (results : list search_result) (M : Q) :
  (fun r => query_handler.snippet_time_range [timestamp_of r] (JNum M)) <$> results
  = Ok <$> api.create_snippet_from_query_windows results M
  ∧ length (api.create_snippet_from_query_windows results M) = length results
  ∧ ∀ r : search_result,
      query_handler.snippet_time_range (timestamp_of <$> [r]) (JNum M)
      = Ok (api.snippet_window r M)
      ∧ api.create_snippet_from_query_windows [r] M = [api.snippet_window r M].
Proof.
  assert (∀ r, query_handler.snippet_time_range [timestamp_of r] (JNum M)
               = Ok (api.snippet_window r M)) as Hone.
  { intros r. rewrite snippet_time_range_numeric.
    unfold api.snippet_window. simpl. by destruct (Qgt_bool _ M). }
  split_and!.
  - unfold api.create_snippet_from_query_windows. rewrite <- list_fmap_compose.
    apply list_fmap_ext. intros _ r _. apply Hone.
  - unfold api.create_snippet_from_query_windows. by rewrite length_fmap.
  - intros r. split; [apply Hone | reflexivity].
Qed.

(** ** Search *)

Section search.
Context `{Services}.
Import rag_engine.

(** Whatever [search] returns is the rows of one index query, each with
    [relevance = 1 - distance]. *)
Lemma search_results_are_formatted_hits query n name w results w' :
  search query n name w = (Ok results, w') →
  w' = w
  ∧ ∃ (c : gmap string item) (e : list Q) (hits : list hit),
      collection_query c e n = Ok hits ∧ results = format_hit <$> hits.
Proof.
  unfold search. run_monad.
  destruct (if truthy name then name else _current_collection_name w) as [name' |];
    [| by intros [=]].
  destruct (String.eqb name' ""); run_monad; [by intros [=] |].
  destruct (collections w !! name') as [c |] eqn:Hc; run_monad; [| by intros [=]].
  destruct (generate_embeddings [query]) as [[| e es] |]; run_monad;
    [by intros [=] | | by intros [=]].
  rewrite Hc. run_monad.
  destruct (collection_query c e n) as [hits |] eqn:Hq; run_monad; [| by intros [=]].
  intros [= <- <-]. eauto 6.
Qed.

(** A relevance is inside [0, 1] exactly when the distance it comes from
    is. *)
Lemma relevance_in_range_iff (h : hit) :
  0 <= r_relevance (format_hit h) <= 1 ↔ 0 <= hit_distance h <= 1.
Proof. unfold format_hit. simpl. split; intros [? ?]; split; lra. Qed.

End search.

(** C1 (the code departs from it). [search] returns [1 - distance] as it
    is: at distance 3/2 the relevance is -1/2, below 0. *)
Theorem search_relevance_not_clamped :
  ∃ r : search_result,
    (@rag_engine.search obtuse (JStr "algorithm") 5 None indexed_world).1 = Ok [r]
    ∧ r_relevance r == - (1 # 2)
    ∧ ¬ (0 <= r_relevance r <= 1).
Proof.
  eexists. split; [vm_compute; reflexivity |]. split; [reflexivity |].
  intros [Hge _]. revert Hge. apply Qlt_not_le. reflexivity.
Qed.

(** ** Intent classification *)

(** C8 as stated fails: an answer that parses is returned as it is, also
    when its intent is none of the five. *)
Lemma classification_is_not_validated : ¬ @classification_contract chatty "hello there".
Proof.
  intros [(r & intent & topic & Hr & Hintent & Hin & _) | Hraise].
  - vm_compute in Hr. injection Hr as <-. vm_compute in Hintent.
    injection Hintent as <-. unfold intents in Hin.
    repeat (apply elem_of_cons in Hin as [Hin | Hin]; [discriminate Hin |]).
    by apply elem_of_nil in Hin.
  - vm_compute in Hraise. discriminate Hraise.
Qed.

Section classification.
Context `{Services}.
Import query_handler.

Lemma handle_user_query_raises user_query tr vp hist w e :
  detect_intent user_query = Raise e →
  handle_user_query user_query tr vp hist w = (Raise e, w).
Proof. intros He. unfold handle_user_query. run_monad. by rewrite He. Qed.

(** C8, amended. [detect_intent] returns what the chat service's answer
    parses to, unvalidated: a failure of the service propagates as the
    service's own exception and an answer that does not parse as
    [json.JSONDecodeError] (no [IntentClassificationError] exists), both
    through [handle_user_query]; no default intent is ever substituted,
    and an answer whose intent is none of the five is routed to no
    strategy: when it carries a topic, the response carries that intent
    and the query only; when it carries an intent and no topic,
    [handle_user_query] raises what reading the topic raises,
    [KeyError('topic')] for an object. *)
Theorem detect_intent_returns_parsed_answer user_query tr vp hist w :
  (∀ e, chat_completions_create (classification_request user_query) = Raise e →
        detect_intent user_query = Raise e
        ∧ handle_user_query user_query tr vp hist w = (Raise e, w))
  ∧ (∀ content,
        chat_completions_create (classification_request user_query) = Ok content →
        json_loads content = None →
        detect_intent user_query = Raise JSONDecodeError
        ∧ handle_user_query user_query tr vp hist w = (Raise JSONDecodeError, w))
  ∧ (∀ content j,
        chat_completions_create (classification_request user_query) = Ok content →
        json_loads content = Some j →
        detect_intent user_query = Ok j)
  ∧ (∀ e, detect_intent user_query = Raise e →
        e = JSONDecodeError
        ∨ chat_completions_create (classification_request user_query) = Raise e)
  ∧ (∀ j intent topic,
        detect_intent user_query = Ok j →
        subscript j "intent" = Ok intent →
        subscript j "topic" = Ok topic →
        Forall (fun known => eq_str intent known = false) intents →
        handle_user_query user_query tr vp hist w
        = (Ok (bare_response intent user_query), w))
  ∧ (∀ j intent e,
        detect_intent user_query = Ok j →
        subscript j "intent" = Ok intent →
        subscript j "topic" = Raise e →
        handle_user_query user_query tr vp hist w = (Raise e, w)
        ∧ ∀ members, j = JObj members → e = KeyError "topic").
Proof.
  assert (∀ e, chat_completions_create (classification_request user_query) = Raise e →
               detect_intent user_query = Raise e) as Hdown.
  { intros e He. unfold detect_intent. fold (classification_request user_query).
    by rewrite He. }
  assert (∀ content, chat_completions_create (classification_request user_query) = Ok content →
               detect_intent user_query
               = match json_loads content with
                 | Some parsed => Ok parsed
                 | None => Raise JSONDecodeError
                 end) as Hup.
  { intros content Hc. unfold detect_intent. fold (classification_request user_query).
    by rewrite Hc. }
  split_and!.
  - intros e He. split; [by apply Hdown |]. by apply handle_user_query_raises, Hdown.
  - intros content Hc Hparse.
    assert (detect_intent user_query = Raise JSONDecodeError) as Hd
      by (by rewrite (Hup content Hc), Hparse).
    split; [done |]. by apply handle_user_query_raises.
  - intros content j Hc Hparse. by rewrite (Hup content Hc), Hparse.
  - intros e He.
    destruct (chat_completions_create (classification_request user_query))
      as [content | e'] eqn:Hc.
    + rewrite (Hup content eq_refl) in He. destruct (json_loads content); [done |].
      injection He as <-. by left.
    + rewrite (Hdown e' eq_refl) in He. injection He as <-. by right.
  - intros j intent topic Hj Hintent Htopic Hnone.
    unfold intents in Hnone. repeat (apply Forall_cons in Hnone as [? Hnone]).
    unfold handle_user_query. run_monad. rewrite Hj, Hintent, Htopic.
    by repeat match goal with Hk : eq_str intent _ = false |- _ => rewrite Hk; clear Hk end.
  - intros j intent e Hj Hintent Htopic. split.
    + unfold handle_user_query. run_monad. by rewrite Hj, Hintent, Htopic.
    + intros members ->. unfold subscript in Htopic.
      destruct (assoc "topic" members); [done |]. by injection Htopic as <-.
Qed.

End classification.

Lemma detect_intent_returns_parsed_answer_witness :
  @query_handler.handle_user_query chatty "hello there" (Some lecture) None None
     indexed_world
  = (Ok (bare_response (JStr "chitchat") "hello there"), indexed_world).
Proof.
  apply (@detect_intent_returns_parsed_answer chatty "hello there" (Some lecture) None None
           indexed_world)
    with (j := JObj [("intent", JStr "chitchat"); ("topic", JStr "hello")])
         (topic := JStr "hello").
  - reflexivity.
  - reflexivity.
  - reflexivity.
  - repeat constructor.
Defined.

(** ** Summary and key points without a transcript *)

(** C9 as stated fails: for a summary request without a transcript
    [handle_user_query] returns an ordinary response whose text says that
    a transcript is required; nothing is raised. *)
Lemma summary_without_transcript_returns :
  let r := (@query_handler.handle_user_query (summarizer "summary")
              "summarize the video" None None None empty_world).1 in
  r = Ok (query_handler.set_response "Transcript required for summary"
            (bare_response (JStr "summary") "summarize the video"))
  ∧ r ≠ Raise (AppError "MissingTranscriptError").
Proof. split; [vm_compute; reflexivity | vm_compute; discriminate]. Qed.

Section missing_transcript.
Context `{Services}.
Import query_handler.

(** C9, amended. A query classified as summary, or as keypoints, and
    handled with no transcript raises nothing: [handle_user_query]
    returns the response with the intent, the query and a text saying
    that a transcript is required for the summary (respectively for the
    key points), no other key, and leaves the state as it was. *)
Theorem no_transcript_returns_message user_query vp hist w j topic :
  detect_intent user_query = Ok j →
  subscript j "topic" = Ok topic →
  (subscript j "intent" = Ok (JStr "summary") →
     handle_user_query user_query None vp hist w
     = (Ok (set_response "Transcript required for summary"
              (bare_response (JStr "summary") user_query)), w))
  ∧ (subscript j "intent" = Ok (JStr "keypoints") →
     handle_user_query user_query None vp hist w
     = (Ok (set_response "Transcript required for key points"
              (bare_response (JStr "keypoints") user_query)), w)).
Proof.
  intros Hj Htopic.
  split; intros Hintent; unfold handle_user_query; run_monad;
    by rewrite Hj, Hintent, Htopic.
Qed.

End missing_transcript.

Lemma no_transcript_returns_message_witness :
  @query_handler.handle_user_query (summarizer "keypoints")
     "what are the key points?" None (Some "talk.mp4") None empty_world
  = (Ok (query_handler.set_response "Transcript required for key points"
           (bare_response (JStr "keypoints") "what are the key points?")), empty_world).
Proof.
  apply (@no_transcript_returns_message (summarizer "keypoints")
           "what are the key points?" (Some "talk.mp4") None empty_world
           (JObj [("intent", JStr "keypoints"); ("topic", JStr "the whole video");
                  ("parameters", JObj [("max_duration", JNull);
                                       ("detail_level", JStr "brief")])])
           (JStr "the whole video")); reflexivity.
Defined.

(** ** Indexing *)

Lemma foldr_delete_all (c : gmap string item) :
  foldr base.delete c (map_to_list c).*1 = ∅.
Proof.
  apply map_eq. intros i. rewrite lookup_empty.
  destruct (c !! i) as [x |] eqn:Hi.
  - apply lookup_foldr_delete. apply list_elem_of_fmap. exists (i, x).
    split; [done |]. by apply elem_of_map_to_list.
  - rewrite lookup_foldr_delete_not_elem_of; [done |].
    intros ([i' x] & -> & Hin)%list_elem_of_fmap.
    apply elem_of_map_to_list in Hin. simpl in Hi. congruence.
Qed.

Lemma chunk_ids_NoDup (n : nat) : NoDup (rag_engine.chunk_ids n).
Proof.
  unfold rag_engine.chunk_ids. apply NoDup_fmap_2; [| apply NoDup_seq].
  intros i j Heq. apply String.app_inj in Heq. by apply pretty_nat_inj in Heq.
Qed.

Lemma chunk_ids_length (n : nat) : length (rag_engine.chunk_ids n) = n.
Proof. unfold rag_engine.chunk_ids. by rewrite length_fmap, length_seq. Qed.

Lemma new_items_length (documents : list string) (embeddings : list (list Q))
    (metadatas : list (Q * Q)) :
  length documents = length metadatas →
  length embeddings = length metadatas →
  length (chroma_client.new_items documents embeddings metadatas) = length metadatas.
Proof.
  intros Hd He. unfold chroma_client.new_items.
  rewrite length_zip_with, length_zip_with. lia.
Qed.

Lemma indexed_members_size (chunks : list chunk) (embeddings : list (list Q)) :
  length embeddings = length chunks →
  size (indexed_members chunks embeddings) = length chunks.
Proof.
  intros He. unfold indexed_members.
  assert (length (chroma_client.new_items (chunk_text <$> chunks) embeddings
                    ((fun c => (chunk_start c, chunk_end c)) <$> chunks))
          = length chunks) as Hlen.
  { rewrite new_items_length; rewrite !length_fmap; done. }
  rewrite map_size_list_to_map.
  - rewrite length_zip_with, chunk_ids_length, Hlen. lia.
  - rewrite fst_zip by (rewrite chunk_ids_length, Hlen; lia). apply chunk_ids_NoDup.
Qed.

Section indexing.
Context `{Services}.
Import rag_engine.

(** What [index_transcript] does, in one equation.  A name the store
    refuses, or a collection with more members than one [delete] may
    carry, ends the call with the store untouched.  Otherwise the
    collection is emptied first in every case; it is repopulated, and made
    current, when the embedding service answers and the store takes the
    chunks. *)
Lemma index_transcript_run (t : transcript) (video_id : option string) (w : world) :
  let name := collection_name_of t video_id in
  let chunks := chunk_transcript t 100 in
  index_transcript t video_id w
  = if negb (valid_collection_name name)
    then (Raise (LibraryError "chromadb"), w)
    else if (max_batch_size <? from_option (fun c => size c) 0%nat (collections w !! name))%nat
    then (Raise (LibraryError "chromadb"), w)
    else
      match generate_embeddings (JStr <$> (chunk_text <$> chunks)) with
      | Raise e => (Raise e, cleared name w)
      | Ok embeddings =>
          if bool_decide (storable chunks embeddings)
          then (Ok name, repopulated name (indexed_members chunks embeddings) w)
          else (Raise ValueError, cleared name w)
      end.
Proof.
  intros name chunks. unfold index_transcript. fold name chunks.
  destruct (valid_collection_name name) eqn:Hvalid; cbn [negb];
    [| unfold chroma_client.get_or_create_collection; rewrite Hvalid; by run_monad].
  destruct (max_batch_size <? from_option (fun c => size c) 0%nat (collections w !! name))%nat
    eqn:Hfits.
  { unfold chroma_client.get_or_create_collection. rewrite Hvalid. cbn [negb]. run_monad.
    destruct (collections w !! name) as [c |] eqn:Hc; cbn [from_option] in Hfits;
      [| by apply Nat.ltb_lt in Hfits; lia].
    run_monad. rewrite Hc. run_monad.
    destruct ((map_to_list c).*1) as [| i ids] eqn:Hids.
    - apply fmap_nil_inv, map_to_list_empty_iff in Hids as ->.
      rewrite map_size_empty in Hfits. apply Nat.ltb_lt in Hfits. lia.
    - run_monad. rewrite Hc. run_monad.
      rewrite <- Hids, length_fmap, length_map_to_list, Hfits. done. }
  assert (∀ A (k : string → M A),
            (collection <- chroma_client.get_or_create_collection name ;;
             existing <- chroma_client.get_ids collection ;;
             match existing with
             | [] => ret tt
             | _ => chroma_client.delete collection existing
             end ;; k collection) w = k name (cleared name w)) as Hclear.
  { intros A k. unfold chroma_client.get_or_create_collection. rewrite Hvalid.
    cbn [negb]. run_monad. destruct w as [cs current].
    cbn [collections _current_collection_name] in *.
    destruct (cs !! name) as [c |] eqn:Hc; run_monad;
      cbn [collections _current_collection_name from_option] in *.
    - rewrite Hc. run_monad.
      destruct ((map_to_list c).*1) as [| i ids] eqn:Hids; run_monad;
        cbn [collections _current_collection_name].
      + apply fmap_nil_inv, map_to_list_empty_iff in Hids as ->.
        unfold cleared. cbn [collections _current_collection_name].
        by rewrite insert_id.
      + rewrite Hc. run_monad. cbn [collections _current_collection_name].
        rewrite <- Hids, length_fmap, length_map_to_list, Hfits.
        cbn [collections _current_collection_name].
        by rewrite foldr_delete_all.
    - rewrite lookup_insert_eq. run_monad. rewrite map_to_list_empty.
      rewrite fmap_nil. done. }
  rewrite (Hclear _ (fun collection =>
             embeddings <- lift (generate_embeddings (JStr <$> (chunk_text <$> chunks))) ;;
             chroma_client.add collection (chunk_text <$> chunks) embeddings
               ((fun c => (chunk_start c, chunk_end c)) <$> chunks)
               (chunk_ids (length chunks)) ;;
             set_current (Some name) ;; ret name)).
  clear Hclear. run_monad.
  destruct (generate_embeddings (JStr <$> (chunk_text <$> chunks))) as [embeddings | e];
    run_monad; [| done].
  unfold cleared at 1 2. cbn [collections _current_collection_name].
  rewrite lookup_insert_eq. run_monad.
  rewrite !length_fmap, chunk_ids_length.
  rewrite (bool_decide_ext (chunk_ids (length chunks) = []) (chunks = [])).
  2: { rewrite <- !length_zero_iff_nil. by rewrite chunk_ids_length. }
  rewrite (bool_decide_true (NoDup _)) by apply chunk_ids_NoDup.
  cbn [negb]. unfold storable.
  destruct (decide (chunks = [])) as [Hnil | Hnil].
  { rewrite (bool_decide_true _ Hnil), bool_decide_false by tauto. done. }
  rewrite (bool_decide_false _ Hnil).
  destruct (decide (length embeddings = length chunks)) as [Hlen | Hlen].
  2: { rewrite !bool_decide_false by tauto. done. }
  rewrite (bool_decide_true (_ ∧ _ ∧ _)) by done. cbn [negb].
  destruct (chroma_client.dimension embeddings) as [d |] eqn:Hdim.
  2: { rewrite bool_decide_false; [done |]. intros (_ & _ & [] & _). done. }
  rewrite (bool_decide_true (map_Forall _ _)) by apply map_Forall_empty.
  cbn [negb].
  destruct (max_batch_size <? length chunks)%nat eqn:Hbatch.
  - apply Nat.ltb_lt in Hbatch. rewrite bool_decide_false; [done |].
    intros (_ & _ & _ & ?). lia.
  - apply Nat.ltb_ge in Hbatch. rewrite bool_decide_true by done.
    cbn [collections _current_collection_name]. unfold repopulated, indexed_members.
    by rewrite insert_insert_eq, (left_id ∅ (∪)).
Qed.

(** Every chunk is a member under its own id, with its text and span. *)
Lemma indexed_members_lookup (chunks : list chunk) (embeddings : list (list Q))
    (i : nat) (c : chunk) :
  length embeddings = length chunks →
  chunks !! i = Some c →
  ∃ it : item,
    indexed_members chunks embeddings !! ("chunk_" +:+ pretty i) = Some it
    ∧ document it = chunk_text c
    ∧ meta_start it = chunk_start c
    ∧ meta_end it = chunk_end c
    ∧ embeddings !! i = Some (embedding it).
Proof.
  intros Hlen Hc.
  destruct (lookup_lt_is_Some_2 embeddings i) as [e He].
  { rewrite Hlen. by eapply lookup_lt_Some. }
  exists {| document := chunk_text c; embedding := e;
            meta_start := chunk_start c; meta_end := chunk_end c |}.
  split_and!; [| done | done | done | done].
  unfold indexed_members. apply elem_of_list_to_map.
  - rewrite fst_zip; [apply chunk_ids_NoDup |].
    rewrite chunk_ids_length, new_items_length; rewrite !length_fmap; done.
  - apply list_elem_of_lookup. exists i.
    apply lookup_zip_with_Some. eexists _, _. split_and!; [done | |].
    + unfold chunk_ids. rewrite list_lookup_fmap, lookup_seq_lt; [done |].
      by eapply lookup_lt_Some.
    + unfold chroma_client.new_items. apply lookup_zip_with_Some.
      exists (chunk_text c, e), (chunk_start c, chunk_end c). split_and!; [done | |].
      * apply lookup_zip_with_Some. eexists _, _. split_and!; [done | | done].
        by rewrite list_lookup_fmap, Hc.
      * by rewrite list_lookup_fmap, Hc.
Qed.

(** Conversely, every member comes from a chunk. *)
Lemma indexed_members_inv (chunks : list chunk) (embeddings : list (list Q))
    (id : string) (it : item) :
  indexed_members chunks embeddings !! id = Some it →
  ∃ (i : nat) (c : chunk),
    id = "chunk_" +:+ pretty i
    ∧ chunks !! i = Some c
    ∧ document it = chunk_text c
    ∧ meta_start it = chunk_start c
    ∧ meta_end it = chunk_end c.
Proof.
  unfold indexed_members. intros Hin%elem_of_list_to_map_2.
  apply list_elem_of_lookup in Hin as [k Hk].
  apply lookup_zip_with_Some in Hk as (id' & it' & [= <- <-] & Hid & Hit).
  unfold chunk_ids in Hid. rewrite list_lookup_fmap in Hid.
  destruct (seq 0 (length chunks) !! k) as [k' |] eqn:Hseq; [| discriminate].
  apply lookup_seq in Hseq as [-> Hlt]. injection Hid as <-.
  unfold chroma_client.new_items in Hit.
  apply lookup_zip_with_Some in Hit as ([d e] & [s e'] & -> & Hde & Hmeta).
  apply lookup_zip_with_Some in Hde as (d' & e0 & [= <- <-] & Hd & _).
  rewrite list_lookup_fmap in Hd. rewrite list_lookup_fmap in Hmeta.
  destruct (chunks !! k) as [c |] eqn:Hc; [| discriminate].
  injection Hd as <-. injection Hmeta as <- <-.
  exists k, c. done.
Qed.

Lemma repopulated_twice (name : string) (c : gmap string item) (w : world) :
  repopulated name c (repopulated name c w) = repopulated name c w.
Proof.
  unfold repopulated. cbn [collections _current_collection_name].
  by rewrite insert_insert_eq.
Qed.

(** [index_transcript] returns as soon as the store accepts the name, can
    empty the collection, and takes the chunks with the vectors the
    embedding service answers. *)
Lemma index_transcript_returns (t : transcript) (video_id : option string) (w : world)
    (embeddings : list (list Q)) :
  valid_collection_name (collection_name_of t video_id) = true →
  clearable (collection_name_of t video_id) w →
  generate_embeddings (JStr <$> (chunk_text <$> chunk_transcript t 100)) = Ok embeddings →
  storable (chunk_transcript t 100) embeddings →
  index_transcript t video_id w
  = (Ok (collection_name_of t video_id),
     repopulated (collection_name_of t video_id)
                 (indexed_members (chunk_transcript t 100) embeddings) w).
Proof.
  intros Hvalid Hclear Hemb Hstore. rewrite index_transcript_run. cbv zeta.
  rewrite Hvalid. cbn [negb].
  replace (max_batch_size <? _)%nat with false.
  - rewrite Hemb. by rewrite bool_decide_true.
  - symmetry. apply Nat.ltb_ge.
    destruct (collections w !! collection_name_of t video_id) as [c |] eqn:Hc;
      cbn [from_option]; [by apply Hclear | lia].
Qed.

Lemma index_transcript_inv (t : transcript) (video_id : option string) (w w1 : world)
    (name : string) :
  index_transcript t video_id w = (Ok name, w1) →
  ∃ embeddings : list (list Q),
    generate_embeddings (JStr <$> (chunk_text <$> chunk_transcript t 100)) = Ok embeddings
    ∧ length embeddings = length (chunk_transcript t 100)
    ∧ chunk_transcript t 100 ≠ []
    ∧ name = collection_name_of t video_id
    ∧ w1 = repopulated name (indexed_members (chunk_transcript t 100) embeddings) w.
Proof.
  rewrite index_transcript_run. cbv zeta.
  destruct (valid_collection_name _); cbn [negb]; [| by intros [=]].
  destruct (max_batch_size <? _)%nat; [by intros [=] |].
  destruct (generate_embeddings _) as [embeddings | e]; [| by intros [=]].
  case_bool_decide as Hok; [| by intros [=]].
  intros [= <- <-]. exists embeddings. by destruct Hok as (? & ? & _).
Qed.

(** A call that returns was accepted by the store at each step. *)
Lemma index_transcript_accepted (t : transcript) (video_id : option string) (w w1 : world)
    (name : string) (embeddings : list (list Q)) :
  index_transcript t video_id w = (Ok name, w1) →
  generate_embeddings (JStr <$> (chunk_text <$> chunk_transcript t 100)) = Ok embeddings →
  valid_collection_name (collection_name_of t video_id) = true
  ∧ clearable (collection_name_of t video_id) w
  ∧ storable (chunk_transcript t 100) embeddings.
Proof.
  rewrite index_transcript_run. cbv zeta. intros Hrun Hemb. rewrite Hemb in Hrun.
  destruct (valid_collection_name _); cbn [negb] in Hrun; [| by injection Hrun].
  destruct (max_batch_size <? _)%nat eqn:Hfits; [by injection Hrun |].
  case_bool_decide as Hok; [| by injection Hrun].
  split_and!; [done | | done].
  intros c Hc. rewrite Hc in Hfits. cbn [from_option] in Hfits.
  by apply Nat.ltb_ge in Hfits.
Qed.

(** After a successful call the collection holds one member per chunk. *)
Lemma index_transcript_members (t : transcript) (video_id : option string)
    (w w1 : world) (name : string) :
  index_transcript t video_id w = (Ok name, w1) →
  ∃ members : gmap string item,
    collections w1 !! name = Some members
    ∧ size members = length (chunk_transcript t 100)
    ∧ ∀ (i : nat) (c : chunk),
        chunk_transcript t 100 !! i = Some c →
        ∃ it : item,
          members !! ("chunk_" +:+ pretty i) = Some it
          ∧ document it = chunk_text c
          ∧ meta_start it = chunk_start c
          ∧ meta_end it = chunk_end c.
Proof.
  intros (embeddings & Hemb & Hlen & Hne & -> & ->)%index_transcript_inv.
  exists (indexed_members (chunk_transcript t 100) embeddings).
  split_and!.
  - unfold repopulated. cbn [collections]. apply lookup_insert_eq.
  - by apply indexed_members_size.
  - intros i c Hc.
    destruct (indexed_members_lookup _ _ i c Hlen Hc) as (it & ? & ? & ? & ? & _).
    by exists it.
Qed.

(** When the store accepts the name and can empty the collection, then
    whatever the outcome of a call, afterwards the collection exists and
    each of its members is a chunk of this transcript: nothing of what it
    held before is left. *)
Lemma index_transcript_clears (t : transcript) (video_id : option string)
    (w w1 : world) (r : result string) :
  valid_collection_name (collection_name_of t video_id) = true →
  clearable (collection_name_of t video_id) w →
  index_transcript t video_id w = (r, w1) →
  ∃ members : gmap string item,
    collections w1 !! collection_name_of t video_id = Some members
    ∧ ∀ (id : string) (it : item),
        members !! id = Some it →
        ∃ (i : nat) (c : chunk),
          id = "chunk_" +:+ pretty i
          ∧ chunk_transcript t 100 !! i = Some c
          ∧ document it = chunk_text c
          ∧ meta_start it = chunk_start c
          ∧ meta_end it = chunk_end c.
Proof.
  intros Hvalid Hclear. rewrite index_transcript_run. cbv zeta.
  rewrite Hvalid. cbn [negb].
  replace (max_batch_size <? _)%nat with false.
  2: { symmetry. apply Nat.ltb_ge.
       destruct (collections w !! collection_name_of t video_id) as [c |] eqn:Hc;
         cbn [from_option]; [by apply Hclear | lia]. }
  assert (∃ members : gmap string item,
            collections (cleared (collection_name_of t video_id) w)
              !! collection_name_of t video_id = Some members
            ∧ ∀ (id : string) (it : item),
                members !! id = Some it →
                ∃ (i : nat) (c : chunk),
                  id = "chunk_" +:+ pretty i
                  ∧ chunk_transcript t 100 !! i = Some c
                  ∧ document it = chunk_text c
                  ∧ meta_start it = chunk_start c
                  ∧ meta_end it = chunk_end c) as Hcleared.
  { exists ∅. split; [apply lookup_insert_eq |]. intros id it Hin.
    by rewrite lookup_empty in Hin. }
  destruct (generate_embeddings _) as [embeddings | e]; [| by intros [= <- <-]].
  case_bool_decide as Hok; [| by intros [= <- <-]].
  intros [= <- <-]. exists (indexed_members (chunk_transcript t 100) embeddings).
  split; [apply lookup_insert_eq |]. intros id it. apply indexed_members_inv.
Qed.

(** C3. Indexing replaces whatever the collection of that name held.
    Take a name the store accepts (every derived name
    [transcript_video_<12 hex digits>] is one) and a store in which the
    collection of that name, if there is one, has no more members than one
    [delete] may carry (every collection [index_transcript] built is such
    a one).  Whatever the outcome of a call, every member the collection
    has afterwards is a chunk of this transcript.  Whenever the call
    returns, the collection has exactly one member per chunk (member
    ["chunk_<i>"] carries the text and the span of chunk [i]), and
    indexing the same transcript again under the same id returns the same
    name and leaves the store as it is, so the member count is still the
    chunk count. *)
Theorem index_transcript_idempotent (t : transcript) (video_id : option string)
    (w : world) :
  valid_collection_name (collection_name_of t video_id) = true →
  clearable (collection_name_of t video_id) w →
  (∀ (r : result string) (w1 : world),
     index_transcript t video_id w = (r, w1) →
     ∃ members : gmap string item,
       collections w1 !! collection_name_of t video_id = Some members
       ∧ ∀ (id : string) (it : item),
           members !! id = Some it →
           ∃ (i : nat) (c : chunk),
             id = "chunk_" +:+ pretty i
             ∧ chunk_transcript t 100 !! i = Some c
             ∧ document it = chunk_text c
             ∧ meta_start it = chunk_start c
             ∧ meta_end it = chunk_end c)
  ∧ (∀ (name : string) (w1 : world),
       index_transcript t video_id w = (Ok name, w1) →
       index_transcript t video_id w1 = (Ok name, w1)
       ∧ ∃ members : gmap string item,
           collections w1 !! name = Some members
           ∧ size members = length (chunk_transcript t 100)
           ∧ ∀ (i : nat) (c : chunk),
               chunk_transcript t 100 !! i = Some c →
               ∃ it : item,
                 members !! ("chunk_" +:+ pretty i) = Some it
                 ∧ document it = chunk_text c
                 ∧ meta_start it = chunk_start c
                 ∧ meta_end it = chunk_end c).
Proof.
  intros Hvalid Hclear. split.
  - intros r w1. by apply index_transcript_clears.
  - intros name w1 Hrun. split; [| by eapply index_transcript_members].
    pose proof Hrun as (embeddings & Hemb & Hlen & Hne & -> & ->)%index_transcript_inv.
    destruct (index_transcript_accepted _ _ _ _ _ _ Hrun Hemb) as (_ & _ & Hstore).
    rewrite (index_transcript_returns t video_id _ embeddings Hvalid); [| | done | done].
    + by rewrite repopulated_twice.
    + intros c. unfold repopulated. cbn [collections]. rewrite lookup_insert_eq.
      intros [= <-]. rewrite indexed_members_size by done. apply Hstore.
Qed.

(** C10. Without a [video_id] (or with an empty one) the collection name
    is a function of the first 1000 characters of [full_text]: two
    transcripts that agree there get the same name, and indexing the
    second after the first leaves the one collection of that name with
    the chunks of the second and nothing else. *)
Theorem collection_name_depends_on_prefix (t1 t2 : transcript) :
  String.substring 0 1000 (full_text t1) = String.substring 0 1000 (full_text t2) →
  collection_name_of t1 None = collection_name_of t2 None
  ∧ collection_name_of t1 (Some "") = collection_name_of t2 (Some "")
  ∧ ∀ (w w1 w2 : world) (name1 name2 : string),
      index_transcript t1 None w = (Ok name1, w1) →
      index_transcript t2 None w1 = (Ok name2, w2) →
      name2 = name1
      ∧ ∃ members : gmap string item,
          collections w2 !! name1 = Some members
          ∧ size members = length (chunk_transcript t2 100)
          ∧ ∀ (id : string) (it : item),
              members !! id = Some it →
              ∃ (i : nat) (c : chunk),
                id = "chunk_" +:+ pretty i
                ∧ chunk_transcript t2 100 !! i = Some c
                ∧ document it = chunk_text c.
Proof.
  intros Hprefix.
  assert (collection_name_of t1 None = collection_name_of t2 None) as Hname
    by (unfold collection_name_of; by rewrite Hprefix).
  split_and!; [done | unfold collection_name_of; cbn [String.eqb]; by rewrite Hprefix |].
  intros w w1 w2 name1 name2 H1 H2.
  apply index_transcript_inv in H1 as (_ & _ & _ & _ & -> & _).
  destruct (index_transcript_members _ _ _ _ _ H2) as (members & Hm & Hsize & _).
  apply index_transcript_inv in H2 as (embeddings & _ & _ & _ & -> & ->).
  unfold repopulated in Hm. cbn [collections] in Hm.
  rewrite lookup_insert_eq in Hm. injection Hm as <-.
  split; [done |]. exists (indexed_members (chunk_transcript t2 100) embeddings).
  rewrite Hname. unfold repopulated. cbn [collections].
  split_and!; [apply lookup_insert_eq | done |].
  intros id it Hin.
  destruct (indexed_members_inv _ _ id it Hin) as (i & c & ? & ? & ? & _). eauto.
Qed.

End indexing.

Lemma index_transcript_idempotent_witness :
  @rag_engine.index_transcript obtuse lecture None empty_world
  = (Ok lecture_collection, indexed_world)
  ∧ @rag_engine.index_transcript obtuse lecture None indexed_world
    = (Ok lecture_collection, indexed_world)
  ∧ ∃ members : gmap string item,
      collections indexed_world !! lecture_collection = Some members
      ∧ size members = 1%nat.
Proof.
  assert (@rag_engine.index_transcript obtuse lecture None empty_world
          = (Ok lecture_collection, indexed_world)) as Hfirst
    by (vm_compute; reflexivity).
  split; [exact Hfirst |].
  assert (@valid_collection_name obtuse (@rag_engine.collection_name_of lecture None)
          = true) as Hvalid by (vm_compute; reflexivity).
  assert (@clearable obtuse (@rag_engine.collection_name_of lecture None) empty_world)
    as Hclear by (intros c Hc; unfold empty_world in Hc; cbn [collections] in Hc;
                  rewrite lookup_empty in Hc; discriminate).
  destruct (proj2 (@index_transcript_idempotent obtuse lecture None empty_world
                     Hvalid Hclear)
              lecture_collection indexed_world Hfirst)
    as (Hagain & members & Hmembers & Hsize & _).
  split; [exact Hagain |]. exists members. split; [exact Hmembers | exact Hsize].
Defined.

Lemma collection_name_depends_on_prefix_witness :
  full_text talk_a ≠ full_text talk_b
  ∧ rag_engine.collection_name_of talk_a None = rag_engine.collection_name_of talk_b None.
Proof.
  split; [vm_compute; discriminate |].
  apply (@collection_name_depends_on_prefix obtuse talk_a talk_b).
  vm_compute. reflexivity.
Defined.

(** ** The self-healing index guard *)

Lemma no_t_app (a b : string) : no_t a → no_t b → no_t (a +:+ b).
Proof.
  unfold no_t. induction a as [| c a IH]; [done |].
  change (String c a +:+ b)%string with (String c (a +:+ b)).
  cbn [String.list_ascii_of_string]. intros [Hc Ha]%Forall_cons Hb.
  constructor; [done | by apply IH].
Qed.

Lemma no_t_substring (s : string) : ∀ n m, no_t s → no_t (String.substring n m s).
Proof.
  unfold no_t. induction s as [| c s IH]; intros n m Hs.
  - destruct n, m; constructor.
  - apply Forall_cons in Hs as [Hc Hs]. destruct n as [| n]; [destruct m as [| m] |].
    + constructor.
    + cbn [String.substring String.list_ascii_of_string]. constructor; [done | by apply IH].
    + cbn [String.substring]. by apply IH.
Qed.

Lemma no_t_concat (sep : string) (l : list string) :
  no_t sep → Forall no_t l → no_t (String.concat sep l).
Proof.
  intros Hsep. induction 1 as [| x l Hx Hl IH]; [constructor |].
  destruct l as [| y l]; [done |].
  change (String.concat sep (x :: y :: l))
    with (x +:+ sep +:+ String.concat sep (y :: l))%string.
  by repeat apply no_t_app.
Qed.

Lemma hexdigit_no_t (n : Z) : no_t (hashlib.hexdigit n).
Proof.
  unfold hashlib.hexdigit. generalize (Z.to_nat n). intros k.
  do 16 (destruct k as [| k]; [repeat constructor; discriminate |]).
  destruct k; constructor.
Qed.

Lemma md5_hexdigest_no_t (message : list Z) : no_t (hashlib.md5_hexdigest message).
Proof.
  assert (∀ x, no_t (hashlib.hex32 x)) as Hhex.
  { intros x. unfold hashlib.hex32. apply no_t_concat; [constructor |].
    apply Forall_fmap, Forall_forall. intros i _. apply no_t_app; apply hexdigit_no_t. }
  unfold hashlib.md5_hexdigest. destruct (fold_left _ _ _) as [[[a b] c] d].
  apply no_t_app; [apply Hhex |]. apply no_t_app; [apply Hhex |].
  apply no_t_app; apply Hhex.
Qed.

Lemma hexdigit_alnum (n : Z) :
  (0 <= n < 16)%Z →
  ∃ c : ascii, hashlib.hexdigit n = String c EmptyString ∧ ascii_alnum c = true.
Proof.
  intros Hn. unfold hashlib.hexdigit.
  assert (Z.to_nat n < 16)%nat as Hk by lia. revert Hk.
  generalize (Z.to_nat n). intros k Hk.
  do 16 (destruct k as [| k]; [eexists; split; reflexivity |]). lia.
Qed.

Lemma string_of_list_ascii_app (l1 l2 : list ascii) :
  String.string_of_list_ascii (l1 ++ l2)
  = (String.string_of_list_ascii l1 +:+ String.string_of_list_ascii l2)%string.
Proof.
  induction l1 as [| c l1 IH]; [done |].
  cbn [app String.string_of_list_ascii].
  change (String c ?a +:+ ?b)%string with (String c (a +:+ b)). by rewrite IH.
Qed.

Lemma alnum_string_app (n m : nat) (a b : string) :
  alnum_string n a → alnum_string m b → alnum_string (n + m) (a +:+ b).
Proof.
  intros (l1 & -> & Hn & H1) (l2 & -> & Hm & H2). exists (l1 ++ l2).
  split_and!; [by rewrite string_of_list_ascii_app | rewrite length_app; lia |].
  by apply Forall_app.
Qed.

Lemma hex32_alnum (x : Z) : alnum_string 8 (hashlib.hex32 x).
Proof.
  assert (∀ i : nat,
            alnum_string 2
              (let b := (Z.shiftr x (8 * Z.of_nat i) mod 256)%Z in
               hashlib.hexdigit (b / 16) +:+ hashlib.hexdigit (b mod 16))) as Hbyte.
  { intros i. cbv zeta.
    pose proof (Z.mod_pos_bound (Z.shiftr x (8 * Z.of_nat i)) 256 ltac:(lia)) as Hb.
    set (b := (Z.shiftr x (8 * Z.of_nat i) mod 256)%Z) in *.
    destruct (hexdigit_alnum (b / 16)) as (c1 & -> & H1).
    { split; [apply Z.div_pos; lia | apply Z.div_lt_upper_bound; lia]. }
    destruct (hexdigit_alnum (b mod 16)) as (c2 & -> & H2).
    { apply Z.mod_pos_bound. lia. }
    exists [c1; c2]. split_and!; [done | done |]. by repeat constructor. }
  unfold hashlib.hex32. cbn [seq fmap list_fmap].
  rewrite !concat_cons_ne by done. cbn [String.concat].
  assert (alnum_string 0 "") as Hnone by (by exists []).
  apply (alnum_string_app 2 6); [apply (Hbyte 0%nat) |].
  apply (alnum_string_app 0 6); [exact Hnone |].
  apply (alnum_string_app 2 4); [apply (Hbyte 1%nat) |].
  apply (alnum_string_app 0 4); [exact Hnone |].
  apply (alnum_string_app 2 2); [apply (Hbyte 2%nat) |].
  apply (alnum_string_app 0 2); [exact Hnone |].
  apply (Hbyte 3%nat).
Qed.

Lemma md5_hexdigest_alnum (message : list Z) :
  alnum_string 32 (hashlib.md5_hexdigest message).
Proof.
  unfold hashlib.md5_hexdigest. destruct (fold_left _ _ _) as [[[a b] c] d].
  apply (alnum_string_app 8 24); [apply hex32_alnum |].
  apply (alnum_string_app 8 16); [apply hex32_alnum |].
  apply (alnum_string_app 8 8); apply hex32_alnum.
Qed.

Lemma substring_of_list_ascii (chars : list ascii) (n : nat) :
  String.substring 0 n (String.string_of_list_ascii chars)
  = String.string_of_list_ascii (take n chars).
Proof.
  revert n. induction chars as [| c chars IH]; intros [| n]; try done.
  cbn [String.string_of_list_ascii String.substring take]. by rewrite IH.
Qed.

Lemma two_periods_without_period (chars : list ascii) :
  Forall (fun c => Ascii.eqb c "." = false) chars → two_periods chars = false.
Proof.
  induction 1 as [| c chars Hc Hchars IH]; [done |].
  destruct chars as [| c' chars]; [done |].
  cbn [two_periods] in *. by rewrite Hc, IH.
Qed.

Lemma alnum_is_no_period (c : ascii) : ascii_alnum c = true → Ascii.eqb c "." = false.
Proof.
  intros Hc. destruct (Ascii.eqb_spec c ".") as [-> |]; [| done].
  by vm_compute in Hc.
Qed.

(** Every name [index_transcript] derives from the content of a
    transcript passes the documented rule for collection names: it is 29
    characters long, "transcript_video_" and 12 hexadecimal digits. *)
Lemma derived_name_is_documented (t : transcript) :
  documented_name_rule (rag_engine.collection_name_of t None) = true.
Proof.
  unfold rag_engine.collection_name_of. cbv zeta.
  destruct (md5_hexdigest_alnum
              (hashlib.encode (String.substring 0 1000 (full_text t))))
    as (chars & -> & Hlen & Halnum).
  rewrite substring_of_list_ascii.
  set (digits := take 12 chars).
  assert (length digits = 12%nat) as Hdigits by (unfold digits; rewrite length_take; lia).
  assert (Forall (fun c => ascii_alnum c = true) digits) as Hall
    by (unfold digits; by apply Forall_take).
  clearbody digits. clear chars Hlen Halnum.
  change ("transcript_" +:+ "video_" +:+ String.string_of_list_ascii digits)%string
    with (String.string_of_list_ascii
            (String.list_ascii_of_string "transcript_video_" ++ digits)).
  unfold documented_name_rule. rewrite String.list_ascii_of_string_of_list_ascii.
  cbv zeta. rewrite length_app, Hdigits.
  rewrite forallb_app, last_app.
  destruct (last digits) as [c |] eqn:Hlast.
  2: { apply last_None in Hlast. by subst digits. }
  assert (ascii_alnum c = true) as Hc.
  { apply last_Some in Hlast as [l' ->]. by apply Forall_app in Hall as [_ [? _]%Forall_cons]. }
  rewrite two_periods_without_period.
  2: { apply Forall_app. split.
       - repeat constructor.
       - eapply Forall_impl; [exact Hall |]. apply alnum_is_no_period. }
  replace (forallb _ digits) with true.
  2: { symmetry. apply forallb_forall. intros c' Hin%list_elem_of_In.
       rewrite Forall_forall in Hall. by rewrite (Hall c' Hin). }
  cbn [from_option]. rewrite Hc. reflexivity.
Qed.

Section guard.
Context `{Services}.
Import rag_engine.

Lemma replace_from_no_t (s : string) :
  no_t s → replace_from "transcript_" "" 0 s = s.
Proof.
  unfold no_t. induction s as [| c s IH]; [done |].
  cbn [String.list_ascii_of_string]. intros [Hc Hs]%Forall_cons.
  cbn [replace_from].
  replace (String.prefix "transcript_" (String c s)) with false.
  - by rewrite IH.
  - cbn [String.prefix]. by destruct (Ascii.ascii_dec "t" c) as [<- |].
Qed.

(** A name of the shape [index_transcript] derives, "transcript_"
    followed by an id without the letter t (such as "video_" and
    hexadecimal digits), is rebuilt under itself. *)
Lemma replace_derived_name (id : string) :
  no_t id →
  replace ("transcript_" +:+ id) "transcript_" "" = id.
Proof.
  intros Hid. unfold replace.
  change (String.eqb "transcript_" "") with false. cbv iota.
  change ("transcript_" +:+ id) with (String "t" ("ranscript_" +:+ id)).
  cbn [replace_from].
  replace (String.prefix "transcript_" (String "t" ("ranscript_" +:+ id))) with true
    by (symmetry; apply String.prefix_correct; by destruct id).
  change (replace_from "transcript_" "" (String.length "transcript_" - 1)
            ("ranscript_" +:+ id))
    with (replace_from "transcript_" "" 0 id).
  by rewrite replace_from_no_t.
Qed.

(** Every name [index_transcript] derives from the content is
    "transcript_" followed by an id that [ensure_collection_indexed] gets
    back from it. *)
Lemma derived_name_shape (t : transcript) :
  let name := collection_name_of t None in
  replace name "transcript_" "" ≠ ""
  ∧ ("transcript_" +:+ replace name "transcript_" "")%string = name.
Proof.
  unfold collection_name_of. cbv zeta.
  set (hash := hashlib.md5_hexdigest _).
  rewrite replace_derived_name.
  - split; [discriminate | done].
  - apply no_t_app; [repeat constructor; discriminate |].
    apply no_t_substring, md5_hexdigest_no_t.
Qed.

Lemma collection_exists_run (name : string) (w : world) :
  collection_exists name w
  = (Ok (bool_decide (is_Some (collections w !! name))), w).
Proof.
  unfold collection_exists. run_monad.
  destruct (collections w !! name) as [c |]; run_monad.
  - by rewrite bool_decide_true.
  - rewrite bool_decide_false; [done |]. by intros [? ?].
Qed.

Lemma ensure_collection_indexed_run (name : string) (tr : option transcript) (w : world) :
  ensure_collection_indexed name tr w
  = match collections w !! name with
    | Some _ =>
        (Ok true, {| collections := collections w;
                     _current_collection_name := Some name |})
    | None =>
        match tr with
        | None => (Ok false, w)
        | Some t =>
            match segments t with
            | [] => (Ok false, w)
            | _ :: _ =>
                match index_transcript t (Some (replace name "transcript_" "")) w with
                | (Ok new_name, w') =>
                    (Ok true, {| collections := collections w';
                                 _current_collection_name := Some new_name |})
                | (Raise e, w') => (Raise e, w')
                end
            end
        end
    end.
Proof.
  unfold ensure_collection_indexed, bind at 1. rewrite collection_exists_run.
  destruct (collections w !! name) as [c |].
  - rewrite bool_decide_true by done. by run_monad.
  - rewrite bool_decide_false by (by intros [? ?]).
    destruct tr as [t |]; [| done]. destruct (segments t); [done |].
    run_monad. by destruct (index_transcript t _ w) as [[new_name | e] w'].
Qed.

(** The rebuild, for a name that is "transcript_" followed by its id. *)
Lemma ensure_collection_indexed_rebuilds (name : string) (t : transcript) (w : world)
    (embeddings : list (list Q)) :
  collections w !! name = None →
  segments t ≠ [] →
  replace name "transcript_" "" ≠ "" →
  "transcript_" +:+ replace name "transcript_" "" = name →
  valid_collection_name name = true →
  generate_embeddings (JStr <$> (chunk_text <$> chunk_transcript t 100)) = Ok embeddings →
  storable (chunk_transcript t 100) embeddings →
  ensure_collection_indexed name (Some t) w
  = (Ok true, repopulated name (indexed_members (chunk_transcript t 100) embeddings) w).
Proof.
  intros Hc Hsegs Hid Hname Hvalid Hemb Hstore.
  rewrite ensure_collection_indexed_run, Hc.
  destruct (segments t) as [| seg segs] eqn:Hs; [done |].
  assert (collection_name_of t (Some (replace name "transcript_" "")) = name) as Hsame.
  { unfold collection_name_of.
    destruct (String.eqb_spec (replace name "transcript_" "") ""); done. }
  rewrite (index_transcript_returns t _ w embeddings); rewrite ?Hsame; try done.
  intros c. by rewrite Hc.
Qed.

(** C5, amended. [ensure_collection_indexed] returns true at once, and
    makes the name current, when the collection exists.  When it does not
    exist and there is no transcript, or one without segments, it returns
    false and changes nothing (so for "transcript_abc" absent and no
    transcript).  When it does not exist and the transcript has a segment,
    it indexes the transcript under the id left after deleting every
    "transcript_" from the name: if that id is not empty and "transcript_"
    followed by it is the name again, as it is for every name
    [index_transcript] derives from a transcript's content, and the store
    accepts the name, and the embedding service answers one vector per
    chunk, all of one dimension, and the chunks are no more than one [add]
    may carry, then the collection is rebuilt under that same name with
    one member per chunk, made current, and the result is true. *)
Theorem ensure_collection_indexed_guard (name : string) (tr : option transcript)
    (w : world) :
  (is_Some (collections w !! name) →
     ensure_collection_indexed name tr w
     = (Ok true, {| collections := collections w;
                    _current_collection_name := Some name |}))
  ∧ (collections w !! name = None →
     tr = None ∨ (∃ t, tr = Some t ∧ segments t = []) →
     ensure_collection_indexed name tr w = (Ok false, w))
  ∧ (collections w !! "transcript_abc" = None →
     ensure_collection_indexed "transcript_abc" None w = (Ok false, w))
  ∧ (∀ (t : transcript) (embeddings : list (list Q)),
       collections w !! name = None →
       tr = Some t →
       segments t ≠ [] →
       (replace name "transcript_" "" ≠ ""
        ∧ "transcript_" +:+ replace name "transcript_" "" = name)
       ∨ (∃ source : transcript, name = collection_name_of source None) →
       valid_collection_name name = true →
       generate_embeddings (JStr <$> (chunk_text <$> chunk_transcript t 100))
       = Ok embeddings →
       length embeddings = length (chunk_transcript t 100) →
       is_Some (chroma_client.dimension embeddings) →
       length (chunk_transcript t 100) ≤ max_batch_size →
       ensure_collection_indexed name tr w
       = (Ok true, repopulated name (indexed_members (chunk_transcript t 100) embeddings) w)
       ∧ size (indexed_members (chunk_transcript t 100) embeddings)
         = length (chunk_transcript t 100)).
Proof.
  split_and!.
  - intros [c Hc]. by rewrite ensure_collection_indexed_run, Hc.
  - intros Hc Htr. rewrite ensure_collection_indexed_run, Hc.
    destruct Htr as [-> | (t & -> & ->)]; done.
  - intros Hc. by rewrite ensure_collection_indexed_run, Hc.
  - intros t embeddings Hc -> Hsegs Hshape Hvalid Hemb Hlen Hdim Hbatch.
    split; [| by apply indexed_members_size].
    assert (replace name "transcript_" "" ≠ ""
            ∧ "transcript_" +:+ replace name "transcript_" "" = name) as [Hid Hname].
    { destruct Hshape as [Hshape | [source ->]]; [done | apply derived_name_shape]. }
    apply ensure_collection_indexed_rebuilds; try done.
    split_and!; try done. by apply chunk_transcript_nonempty.
Qed.

End guard.

(** C5 as stated fails for a name that is not "transcript_" followed by
    an id: for "clips" the guard returns true, but the collection it built
    is "transcript_clips", and no collection "clips" exists afterwards. *)
Lemma ensure_collection_indexed_other_name :
  let run := @rag_engine.ensure_collection_indexed obtuse "clips" (Some lecture)
               empty_world in
  run.1 = Ok true
  ∧ collections run.2 !! "clips" = None
  ∧ is_Some (collections run.2 !! "transcript_clips")
  ∧ _current_collection_name run.2 = Some "transcript_clips".
Proof.
  split_and!; [vm_compute; reflexivity .. | |].
  - vm_compute. eexists. reflexivity.
  - vm_compute. reflexivity.
Qed.

(** The guard heals the store after the collection of [lecture] was lost:
    it rebuilds exactly what indexing had built. *)
Lemma ensure_collection_indexed_guard_witness :
  @rag_engine.ensure_collection_indexed obtuse lecture_collection (Some lecture) empty_world
  = (Ok true, indexed_world)
  ∧ size (indexed_members (rag_engine.chunk_transcript lecture 100) [[1; 0]]) = 1%nat.
Proof.
  apply (proj2 (proj2 (proj2
           (@ensure_collection_indexed_guard obtuse lecture_collection (Some lecture)
              empty_world))) lecture [[1; 0]]).
  - reflexivity.
  - reflexivity.
  - vm_compute. discriminate.
  - right. exists lecture. vm_compute. reflexivity.
  - vm_compute. reflexivity.
  - vm_compute. reflexivity.
  - vm_compute. reflexivity.
  - vm_compute. eexists. reflexivity.
  - vm_compute. lia.
Defined.

(** * The rest of the retrieval engine *)

(** ** Batches of embeddings *)

Section embeddings.
Context `{Services}.
Import rag_engine.

(** One pass of the loop body of [generate_embeddings]. *)
Lemma generate_embeddings_unfold (texts : list json) :
  generate_embeddings texts
  = fold_left
      (fun all_embeddings i =>
         rbind all_embeddings (fun all_embeddings =>
         rbind (embeddings_create (take 100 (drop i texts))) (fun batch_embeddings =>
         Ok (all_embeddings ++ batch_embeddings))))
      ((fun k => k * 100)%nat <$> seq 0 ((length texts + 99) / 100))
      (Ok []).
Proof.
  unfold generate_embeddings, range_step.
  by replace (length texts + 100 - 1)%nat with (length texts + 99)%nat by lia.
Qed.

Lemma batches_cover (n : nat) :
  ((n + 99) / 100 * 100 <= n + 99 ∧ n <= (n + 99) / 100 * 100)%nat.
Proof.
  pose proof (Nat.div_mod_eq (n + 99) 100).
  pose proof (Nat.mod_upper_bound (n + 99) 100). lia.
Qed.

Lemma generate_embeddings_prefix (R : json → list Q → Prop) (texts : list json) :
  (∀ batch : list json,
     batch ≠ [] → (length batch <= 100)%nat →
     ∃ vectors, embeddings_create batch = Ok vectors ∧ Forall2 R batch vectors) →
  ∀ m : nat,
    (m * 100 < length texts + 100)%nat →
    ∃ vectors,
      fold_left
        (fun all_embeddings i =>
           rbind all_embeddings (fun all_embeddings =>
           rbind (embeddings_create (take 100 (drop i texts))) (fun batch_embeddings =>
           Ok (all_embeddings ++ batch_embeddings))))
        ((fun k => k * 100)%nat <$> seq 0 m)
        (Ok [])
      = Ok vectors
      ∧ Forall2 R (take (m * 100) texts) vectors.
Proof.
  intros Hservice. induction m as [| m IH]; intros Hm.
  - exists []. split; [done | constructor].
  - destruct IH as (vectors & Hfold & Hrel); [lia |].
    rewrite seq_S, fmap_app, fold_left_app, Hfold.
    cbn [fmap list_fmap fold_left rbind Nat.add].
    destruct (Hservice (take 100 (drop (m * 100) texts))) as (batch & -> & Hbatch).
    + intros Hnil. apply (f_equal length) in Hnil.
      rewrite length_take, length_drop in Hnil. cbn [length] in Hnil. lia.
    + rewrite length_take. lia.
    + exists (vectors ++ batch). split; [done |].
      replace (S m * 100)%nat with (m * 100 + 100)%nat by lia.
      rewrite <- take_take_drop. by apply Forall2_app.
Qed.

(** X1. Batching is invisible: when the embedding service answers every
    non-empty batch of at most 100 inputs with one vector per input, each
    related to its input by [R], [generate_embeddings] answers a list of
    any length with one vector per text, in the order of the texts, each
    related to its text by [R].  So the batches it sends are never empty
    and never longer than 100, and together they are the texts, each
    once and in order. *)
Theorem generate_embeddings_batches_are_invisible (R : json → list Q → Prop)
    (texts : list json) :
  (∀ batch : list json,
     batch ≠ [] → (length batch <= 100)%nat →
     ∃ vectors, embeddings_create batch = Ok vectors ∧ Forall2 R batch vectors) →
  ∃ vectors,
    generate_embeddings texts = Ok vectors
    ∧ Forall2 R texts vectors
    ∧ length vectors = length texts.
Proof.
  intros Hservice. rewrite generate_embeddings_unfold.
  destruct (batches_cover (length texts)) as [Hup Hdown].
  destruct (generate_embeddings_prefix R texts Hservice ((length texts + 99) / 100))
    as (vectors & -> & Hrel); [lia |].
  rewrite take_ge in Hrel by lia.
  exists vectors. split_and!; [done | done |]. symmetry. by eapply Forall2_length.
Qed.

Lemma fold_left_raised (texts : list json) (e : pyexc) (indices : list nat) :
  fold_left
    (fun all_embeddings i =>
       rbind all_embeddings (fun all_embeddings =>
       rbind (embeddings_create (take 100 (drop i texts))) (fun batch_embeddings =>
       Ok (all_embeddings ++ batch_embeddings))))
    indices (Raise e)
  = Raise e.
Proof. by induction indices. Qed.

(** X2. A batch that fails fails the whole call: when the service answers
    the first [k] batches and raises on the next, [generate_embeddings]
    raises the same exception, and the vectors already received are not
    returned. *)
Theorem generate_embeddings_propagates_failure (texts : list json) (k : nat) (e : pyexc) :
  (k * 100 < length texts)%nat →
  (∀ j : nat, (j < k)%nat →
     ∃ vectors, embeddings_create (take 100 (drop (j * 100) texts)) = Ok vectors) →
  embeddings_create (take 100 (drop (k * 100) texts)) = Raise e →
  generate_embeddings texts = Raise e.
Proof.
  intros Hk Hbefore Hfail. rewrite generate_embeddings_unfold.
  destruct (batches_cover (length texts)) as [Hup Hdown].
  assert (k < (length texts + 99) / 100)%nat as Hlt by nia.
  replace ((length texts + 99) / 100)%nat
    with (k + (1 + ((length texts + 99) / 100 - k - 1)))%nat by lia.
  rewrite !seq_app, !fmap_app, !fold_left_app.
  assert (∃ vectors,
            fold_left
              (fun all_embeddings i =>
                 rbind all_embeddings (fun all_embeddings =>
                 rbind (embeddings_create (take 100 (drop i texts)))
                   (fun batch_embeddings => Ok (all_embeddings ++ batch_embeddings))))
              ((fun k => k * 100)%nat <$> seq 0 k) (Ok [])
            = Ok vectors) as [vectors ->].
  { clear Hk Hfail Hlt. induction k as [| k IH]; [by exists [] |].
    destruct IH as [vectors Hfold]; [intros j Hj; apply Hbefore; lia |].
    destruct (Hbefore k) as [batch Hbatch]; [lia |].
    exists (vectors ++ batch).
    rewrite seq_S, fmap_app, fold_left_app, Hfold.
    cbn [fmap list_fmap fold_left rbind Nat.add]. by rewrite Hbatch. }
  cbn [seq fmap list_fmap fold_left rbind Nat.add]. rewrite Hfail. apply fold_left_raised.
Qed.

End embeddings.

(** ** The runs of the chunker *)

Section runs.
Import rag_engine.

Lemma chunk_loop_app m n (l1 l2 : list segment) : ∀ i st,
  chunk_loop m n i (l1 ++ l2) st
  = chunk_loop m n (i + length l1) l2 (chunk_loop m n i l1 st).
Proof.
  induction l1 as [| seg l1 IH]; intros i st; simpl.
  - by rewrite Nat.add_0_r.
  - rewrite IH. by replace (S i + length l1)%nat with (i + S (length l1))%nat by lia.
Qed.

(** The chunk emitted when [seg] arrives on top of the [pending]
    segments is the chunk of the run [pending ++ [seg]]. *)
Lemma emitted_chunk (st : chunker) (pending : list segment) (seg : segment) :
  current_texts st = seg_text <$> pending →
  (pending ≠ [] → current_start st = from_option seg_start 0 (head pending)) →
  {| chunk_text := String.concat " " (current_texts st ++ [seg_text seg]);
     chunk_start := match current_texts st with
                    | [] => seg_start seg
                    | _ => current_start st
                    end;
     chunk_end := seg_end seg |}
  = chunk_of (pending ++ [seg]).
Proof.
  intros Htexts Hstart. unfold chunk_of.
  rewrite fmap_app, last_snoc, head_snoc, Htexts. simpl. f_equal.
  destruct pending as [| first pending]; [done |]. simpl. by apply Hstart.
Qed.

(** One iteration keeps the invariant as long as it is not the last
    one. *)
Lemma chunk_segment_runs m n st i seg consumed :
  Z.of_nat i ≠ (Z.of_nat n - 1)%Z →
  runs_inv m consumed st →
  runs_inv m (consumed ++ [seg]) (chunk_segment m n st i seg).
Proof.
  intros Hi (runs & pending & Hne & Hchunks & Htexts & Hall & Hstart & Hlong & Hmin & Hshort).
  unfold chunk_segment.
  replace (Z.of_nat i =? Z.of_nat n - 1)%Z with false by (symmetry; by apply Z.eqb_neq).
  rewrite orb_false_r.
  destruct (m <=? _)%Z eqn:Hflush.
  - exists (runs ++ [pending ++ [seg]]), []. cbn [chunks current_texts current_start].
    split_and!.
    + apply Forall_app. split; [done |]. constructor; [| done]. by destruct pending.
    + rewrite fmap_app, Hchunks. cbn [fmap list_fmap]. f_equal. f_equal.
      by apply emitted_chunk.
    + done.
    + rewrite join_app. simpl. rewrite !app_nil_r, <- Hall. by rewrite app_assoc.
    + done.
    + apply Forall_app. split; [done |]. constructor; [| done].
      apply Z.leb_le in Hflush. unfold run_length. by rewrite fmap_app, <- Htexts.
    + apply Forall_app. split; [done |]. constructor; [| done].
      intros k Hk. rewrite length_app in Hk. cbn [length] in Hk.
      rewrite take_app_le by lia. apply Hshort. lia.
    + intros k Hk. cbn [length] in Hk. lia.
  - exists runs, (pending ++ [seg]). cbn [chunks current_texts current_start].
    split_and!; [done | done | by rewrite fmap_app, Htexts | | | done | done |].
    + by rewrite <- Hall, app_assoc.
    + intros _. rewrite head_snoc.
      destruct pending as [| first pending]; [by rewrite Htexts |].
      rewrite Htexts. simpl. by apply Hstart.
    + intros k Hk. rewrite length_app in Hk. cbn [length] in Hk.
      destruct (decide (k <= length pending)%nat) as [Hle | Hgt].
      * rewrite take_app_le by lia. apply Hshort. lia.
      * rewrite take_ge by (rewrite length_app; cbn [length]; lia).
        apply Z.leb_gt in Hflush. unfold run_length. by rewrite fmap_app, <- Htexts.
Qed.

Lemma chunk_loop_runs m n segs : ∀ i st consumed,
  (i + length segs < n)%nat →
  runs_inv m consumed st →
  runs_inv m (consumed ++ segs) (chunk_loop m n i segs st).
Proof.
  induction segs as [| seg rest IH]; intros i st consumed Hi Hinv; simpl.
  - by rewrite app_nil_r.
  - rewrite (cons_middle seg), app_assoc. simpl in Hi.
    apply IH; [lia |]. apply chunk_segment_runs; [lia | done].
Qed.

Lemma chunk_transcript_cut (t : transcript) (m : Z) :
  ∃ runs : list (list segment),
    Forall (fun run => run ≠ []) runs
    ∧ mjoin runs = segments t
    ∧ chunk_transcript t m = chunk_of <$> runs
    ∧ (∀ (i : nat) (run : list segment),
         runs !! i = Some run → (S i < length runs)%nat → (m <= run_length run)%Z)
    ∧ Forall (fun run => ∀ k : nat, (0 < k < length run)%nat →
                (run_length (take k run) < m)%Z) runs.
Proof.
  unfold chunk_transcript.
  set (st0 := {| chunks := []; current_texts := []; current_start := 0; current_end := 0 |}).
  destruct (segments t) as [| seg0 segs0] eqn:Hsegs using rev_ind.
  { exists []. by split_and!. }
  clear IHsegs0. rename seg0 into final, segs0 into init.
  rewrite chunk_loop_app. cbn [chunk_loop Nat.add].
  destruct (chunk_loop_runs m (length (init ++ [final])) init 0 st0 [])
    as (runs & pending & Hne & Hchunks & Htexts & Hall & Hstart & Hlong & Hmin & Hshort).
  { rewrite length_app. cbn [length]. lia. }
  { exists [], []. split_and!; try done. intros k Hk. cbn [length] in Hk. lia. }
  exists (runs ++ [pending ++ [final]]).
  unfold chunk_segment.
  replace (Z.of_nat (length init) =? Z.of_nat (length (init ++ [final])) - 1)%Z with true
    by (symmetry; apply Z.eqb_eq; rewrite length_app; cbn [length]; lia).
  rewrite orb_true_r. cbn [chunks]. split_and!.
  - apply Forall_app. split; [done |]. constructor; [| done]. by destruct pending.
  - rewrite join_app. simpl. rewrite !app_nil_r. simpl in Hall. by rewrite app_assoc, Hall.
  - rewrite fmap_app, Hchunks. cbn [fmap list_fmap]. f_equal. f_equal.
    by apply emitted_chunk.
  - intros i run Hrun Hi. rewrite length_app in Hi. cbn [length] in Hi.
    rewrite lookup_app_l in Hrun by lia.
    by eapply (proj1 (Forall_lookup _ _) Hlong).
  - apply Forall_app. split; [done |]. constructor; [| done].
    intros k Hk. rewrite length_app in Hk. cbn [length] in Hk.
    rewrite take_app_le by lia. apply Hshort. lia.
Qed.

(** X3. [chunk_transcript] cuts the segments into consecutive non-empty
    runs and returns one chunk per run, in order: the chunk's text is the
    run's texts joined by a space, its start is the start of the run's
    first segment and its end the end of the run's last segment.  Every
    run but the last reaches [min_chunk_length] characters, and every run
    is cut as early as possible: no shorter non-empty beginning of it
    reaches [min_chunk_length].  There are at most as many chunks as
    segments. *)
Theorem chunk_transcript_runs (t : transcript) (m : Z) :
  ∃ runs : list (list segment),
    Forall (fun run => run ≠ []) runs
    ∧ mjoin runs = segments t
    ∧ chunk_transcript t m = chunk_of <$> runs
    ∧ (∀ (i : nat) (run : list segment),
         runs !! i = Some run → (S i < length runs)%nat → (m <= run_length run)%Z)
    ∧ Forall (fun run => ∀ k : nat, (0 < k < length run)%nat →
                (run_length (take k run) < m)%Z) runs
    ∧ (length (chunk_transcript t m) <= length (segments t))%nat.
Proof.
  destruct (chunk_transcript_cut t m) as (runs & Hne & Hall & Hchunks & Hlong & Hmin).
  exists runs. split_and!; try done.
  rewrite Hchunks, length_fmap, <- Hall.
  clear -Hne. induction Hne as [| run runs Hrun Hruns IH]; [done |].
  simpl. rewrite length_app. destruct run; [done |]. simpl. lia.
Qed.

Lemma chunk_times_sublist (runs : list (list segment)) :
  Forall (fun run => run ≠ []) runs →
  chunk_times (chunk_of <$> runs) `sublist_of` segment_times (mjoin runs).
Proof.
  assert (∀ run : list segment, run ≠ [] →
            [from_option seg_start 0 (head run); from_option seg_end 0 (last run)]
            `sublist_of` segment_times run) as Hrun.
  { intros [| first rest] Hne; [done |]. clear Hne. unfold segment_times. simpl.
    apply sublist_skip.
    destruct rest as [| second rest] using rev_ind; [done |].
    change (first :: rest ++ [second]) with ((first :: rest) ++ [second]).
    rewrite last_snoc. simpl.
    apply sublist_cons. rewrite bind_app. apply sublist_inserts_l. simpl.
    by apply sublist_cons, sublist_skip. }
  unfold chunk_times, segment_times in *.
  induction 1 as [| run runs Hne Hruns IH]; [done |].
  rewrite fmap_cons, bind_cons. simpl mjoin. rewrite bind_app.
  apply sublist_app; [by apply Hrun | done].
Qed.

Lemma StronglySorted_sublist (l1 l2 : list Q) :
  l1 `sublist_of` l2 → StronglySorted Qle l2 → StronglySorted Qle l1.
Proof.
  induction 1 as [| x l1 l2 Hsub IH | x l1 l2 Hsub IH]; [done | |];
    intros [Hall Hsorted]%StronglySorted_cons.
  - apply StronglySorted_cons. split; [| by apply IH].
    apply Forall_forall. intros y Hy.
    apply (proj1 (Forall_forall _ _) Hall). by eapply elem_of_sublist.
  - by apply IH.
Qed.

(** X4. When the segments come in the order they are spoken, each ending
    no earlier than it starts and no later than the next one starts, so
    do the chunks: the spans of the chunks do not overlap and follow each
    other in order. *)
Theorem chunk_transcript_keeps_time_order (t : transcript) (m : Z) :
  StronglySorted Qle (segment_times (segments t)) →
  StronglySorted Qle (chunk_times (chunk_transcript t m)).
Proof.
  intros Hsorted.
  destruct (chunk_transcript_cut t m) as (runs & Hne & Hall & Hchunks & _).
  rewrite Hchunks. eapply StronglySorted_sublist; [by apply chunk_times_sublist |].
  by rewrite Hall.
Qed.

End runs.

Lemma chunk_transcript_keeps_time_order_witness :
  StronglySorted Qle (chunk_times (rag_engine.chunk_transcript lecture 20)).
Proof.
  apply chunk_transcript_keeps_time_order. unfold segment_times. simpl.
  repeat first [ apply SSorted_nil | apply SSorted_cons
               | apply List.Forall_nil | apply List.Forall_cons ];
    by apply Qle_bool_iff.
Defined.

Lemma generate_embeddings_batches_are_invisible_witness :
  ∃ vectors,
    @rag_engine.generate_embeddings obtuse (replicate 250 (JStr "a")) = Ok vectors
    ∧ Forall2 (fun _ vector => vector = [1; 0]) (replicate 250 (JStr "a")) vectors
    ∧ length vectors = length (replicate 250 (JStr "a")).
Proof.
  apply (@generate_embeddings_batches_are_invisible obtuse (fun _ vector => vector = [1; 0])).
  intros batch _ _. exists ((fun _ => [1; 0]) <$> batch). split; [reflexivity |].
  apply Forall2_fmap_r. by apply Forall_Forall2_diag, Forall_true.
Defined.

Lemma generate_embeddings_propagates_failure_witness :
  @rag_engine.generate_embeddings picky (replicate 100 (JStr "a") ++ [JStr ""])
  = Raise (LibraryError "openai").
Proof.
  apply (@generate_embeddings_propagates_failure picky _ 1).
  - rewrite length_app, length_replicate. simpl. lia.
  - intros j Hj. assert (j = 0)%nat as -> by lia. eexists. vm_compute. reflexivity.
  - vm_compute. reflexivity.
Defined.

(** ** Retrieval *)

Section retrieval.
Context `{Services}.
Import rag_engine.

(** [search], in one equation. *)
Lemma search_run (query : json) (n : Z) (name : option string) (w : world) :
  search query n name w
  = (match (if truthy name then name else _current_collection_name w) with
     | None => Raise ValueError
     | Some name' =>
         if String.eqb name' "" then Raise ValueError
         else
           match collections w !! name' with
           | None => Raise (LibraryError "chromadb")
           | Some c =>
               match generate_embeddings [query] with
               | Raise e => Raise e
               | Ok [] => Raise IndexError
               | Ok (query_embedding :: _) =>
                   rbind (collection_query c query_embedding n)
                         (fun hits => Ok (format_hit <$> hits))
               end
           end
     end, w).
Proof.
  unfold search. run_monad.
  destruct (if truthy name then name else _current_collection_name w) as [name' |];
    [| done].
  destruct (String.eqb name' ""); run_monad; [done |].
  destruct (collections w !! name') as [c |] eqn:Hc; run_monad; [| done].
  destruct (generate_embeddings [query]) as [[| e es] |]; run_monad; [done | | done].
  rewrite Hc. run_monad. by destruct (collection_query c e n).
Qed.

Lemma search_frame (query : json) (n : Z) (name : option string) (w : world) :
  (search query n name w).2 = w.
Proof. by rewrite search_run. Qed.

Lemma find_timestamps_for_topic_run (topic : json) (n : Z) (w : world) :
  find_timestamps_for_topic topic n w
  = (rbind (search topic n None w).1 (fun results => Ok (timestamp_of <$> results)), w).
Proof.
  unfold find_timestamps_for_topic, bind, ret. rewrite search_run.
  by destruct (match _ with Some _ => _ | None => _ end).
Qed.

Lemma get_context_for_query_frame (query : json) (n : Z) (w : world) :
  (get_context_for_query query n w).2 = w.
Proof.
  unfold get_context_for_query, bind, ret. rewrite search_run.
  by destruct (match _ with Some _ => _ | None => _ end).
Qed.

(** X5. Retrieval only reads: [search], [find_timestamps_for_topic],
    [get_context_for_query], [collection_exists], [list_collections] and
    [get_current_collection] leave the vector store and the
    current-collection pointer as they found them, whether they return
    or raise. *)
Theorem retrieval_reads_only (query : json) (n : Z) (name : option string)
    (other : string) (w : world) :
  (search query n name w).2 = w
  ∧ (find_timestamps_for_topic query n w).2 = w
  ∧ (get_context_for_query query n w).2 = w
  ∧ (collection_exists other w).2 = w
  ∧ (list_collections w).2 = w
  ∧ get_current_collection w = (Ok (_current_collection_name w), w).
Proof.
  split_and!.
  - apply search_frame.
  - by rewrite find_timestamps_for_topic_run.
  - apply get_context_for_query_frame.
  - by rewrite collection_exists_run.
  - done.
  - done.
Qed.

(** X6. Before anything is indexed (no current collection) a search
    without a collection name, or with an empty one, raises [ValueError],
    and so do [find_timestamps_for_topic] and [get_context_for_query];
    no request is sent to the embedding service, since this holds
    whatever the services do. *)
Theorem retrieval_needs_a_collection (query : json) (n : Z) (w : world) :
  _current_collection_name w = None →
  search query n None w = (Raise ValueError, w)
  ∧ search query n (Some "") w = (Raise ValueError, w)
  ∧ find_timestamps_for_topic query n w = (Raise ValueError, w)
  ∧ get_context_for_query query n w = (Raise ValueError, w).
Proof.
  intros Hnone.
  assert (search query n None w = (Raise ValueError, w)) as Hsearch
    by (rewrite search_run; cbn [truthy]; by rewrite Hnone).
  split_and!; [done | | |].
  - rewrite search_run. cbn [truthy String.eqb negb]. by rewrite Hnone.
  - by rewrite find_timestamps_for_topic_run, Hsearch.
  - unfold get_context_for_query, bind. by rewrite Hsearch.
Qed.

(** X7. A search names its collection first: with a non-empty
    [collection_name] it does not look at the current-collection
    pointer, without one it searches the collection the pointer names;
    and when that collection is not in the store it raises ChromaDB's
    error before any embedding is requested. *)
Theorem search_resolves_collection (query : json) (n : Z) (name : string)
    (current : option string) (w : world) :
  name ≠ "" →
  (search query n (Some name) (pointing_at current w)).1 = (search query n (Some name) w).1
  ∧ search query n None (pointing_at (Some name) w)
    = ((search query n (Some name) w).1, pointing_at (Some name) w)
  ∧ (collections w !! name = None →
     search query n (Some name) w = (Raise (LibraryError "chromadb"), w)).
Proof.
  intros Hname. apply String.eqb_neq in Hname.
  split_and!.
  - rewrite !search_run. unfold pointing_at, truthy.
    cbn [fst collections]. rewrite Hname. cbn [negb]. by rewrite Hname.
  - rewrite !search_run. unfold pointing_at, truthy.
    cbn [fst collections _current_collection_name]. rewrite Hname. cbn [negb].
    by rewrite Hname.
  - intros Hc. rewrite search_run. unfold truthy. rewrite Hname. cbn [negb].
    by rewrite Hname, Hc.
Qed.

(** X8. What is searched is what was indexed: after [index_transcript]
    has returned, every result of a search without a collection name is
    a chunk of that transcript, with the chunk's text and span, provided
    the index answers a query with members of the collection
    queried. *)
Theorem search_returns_indexed_chunks (t : transcript) (video_id : option string)
    (w w1 w2 : world) (name : string) (query : json) (n : Z)
    (results : list search_result) :
  (∀ (c : gmap string item) (e : list Q) (hits : list hit),
     collection_query c e n = Ok hits → hits_are_members c hits) →
  index_transcript t video_id w = (Ok name, w1) →
  search query n None w1 = (Ok results, w2) →
  w2 = w1
  ∧ Forall (fun r => ∃ c : chunk, c ∈ chunk_transcript t 100 ∧ result_of_chunk r c) results.
Proof.
  intros Hfaithful Hindex.
  apply index_transcript_inv in Hindex as (embeddings & Hemb & Hlen & Hne & -> & ->).
  rewrite search_run.
  cbn [truthy repopulated _current_collection_name collections].
  destruct (String.eqb _ ""); [by intros [=] |].
  rewrite lookup_insert_eq.
  destruct (generate_embeddings [query]) as [[| e es] |]; [by intros [=] | | by intros [=]].
  destruct (collection_query _ e n) as [hits |] eqn:Hquery; [| by intros [=]].
  intros [= <- <-]. split; [done |].
  apply Hfaithful in Hquery. unfold hits_are_members in Hquery.
  apply Forall_fmap. eapply Forall_impl; [exact Hquery |].
  intros h (it & Hit & Hdoc & Hstart & Hend).
  apply indexed_members_inv in Hit as (i & c & _ & Hc & Hdoc' & Hstart' & Hend').
  exists c. split; [by eapply list_elem_of_lookup_2 |].
  unfold result_of_chunk, format_hit. simpl. by rewrite <- Hdoc, <- Hstart, <- Hend.
Qed.

End retrieval.

Lemma retrieval_needs_a_collection_witness :
  @rag_engine.search offline (JStr "algorithm") 5 None empty_world
  = (Raise ValueError, empty_world).
Proof.
  apply (@retrieval_needs_a_collection offline (JStr "algorithm") 5 empty_world).
  reflexivity.
Defined.

Lemma search_resolves_collection_witness :
  @rag_engine.search offline (JStr "algorithm") 5 (Some "transcript_video_0") indexed_world
  = (Raise (LibraryError "chromadb"), indexed_world).
Proof.
  apply (@search_resolves_collection offline (JStr "algorithm") 5 "transcript_video_0"
           None indexed_world).
  - discriminate.
  - vm_compute. reflexivity.
Defined.

Lemma search_returns_indexed_chunks_witness :
  Forall (fun r => ∃ c : chunk,
            c ∈ rag_engine.chunk_transcript lecture 100 ∧ result_of_chunk r c)
    [ {| r_text := "intro explains the main algorithm in detail thanks";
         r_start := 0; r_end := 42; r_relevance := 1 - (3 # 2) |} ].
Proof.
  apply (@search_returns_indexed_chunks obtuse lecture None empty_world indexed_world
           indexed_world lecture_collection (JStr "algorithm") 5).
  - intros c e hits [= <-]. unfold hits_are_members.
    apply Forall_forall. intros h Hh.
    eapply elem_of_sublist in Hh; [| apply sublist_take].
    apply list_elem_of_fmap in Hh as ([id it] & -> & Hin).
    apply elem_of_map_to_list in Hin. by exists it.
  - vm_compute. reflexivity.
  - vm_compute. reflexivity.
Defined.

(** ** The life of a collection *)

Section collections.
Context `{Services}.
Import rag_engine.

Lemma delete_collection_run (name : string) (w : world) :
  delete_collection name w
  = match collections w !! name with
    | Some _ =>
        (Ok tt,
         {| collections := delete name (collections w);
            _current_collection_name :=
              if bool_decide (_current_collection_name w = Some name)
              then None else _current_collection_name w |})
    | None => (Raise (LibraryError "chromadb"), w)
    end.
Proof.
  unfold delete_collection. run_monad.
  destruct (collections w !! name); run_monad; [| done].
  cbn [_current_collection_name collections].
  case_bool_decide; run_monad; [done |]. by destruct w.
Qed.

Lemma set_current_collection_run (name : string) (w : world) :
  set_current_collection name w
  = match collections w !! name with
    | Some _ => (Ok tt, pointing_at (Some name) w)
    | None => (Raise (LibraryError "chromadb"), w)
    end.
Proof.
  unfold set_current_collection. run_monad. by destruct (collections w !! name).
Qed.

(** X9. Deleting a collection that exists removes it and nothing else:
    afterwards [collection_exists] is false for it, every other collection
    is as before, and the current-collection pointer is cleared exactly
    when it named the deleted collection, so that a later search without
    a collection name raises [ValueError] instead of reaching for a
    collection that is gone. *)
Theorem delete_collection_removes_one (name : string) (w : world) (query : json) (n : Z) :
  is_Some (collections w !! name) →
  ∃ w' : world,
    delete_collection name w = (Ok tt, w')
    ∧ collection_exists name w' = (Ok false, w')
    ∧ (∀ other : string, other ≠ name → collections w' !! other = collections w !! other)
    ∧ (_current_collection_name w = Some name →
       _current_collection_name w' = None
       ∧ search query n None w' = (Raise ValueError, w'))
    ∧ (_current_collection_name w ≠ Some name →
       _current_collection_name w' = _current_collection_name w).
Proof.
  intros [c Hc]. rewrite delete_collection_run, Hc. eexists. split; [done |].
  split_and!.
  - rewrite collection_exists_run. cbn [collections].
    rewrite lookup_delete_eq, bool_decide_false; [done |]. by intros [? ?].
  - intros other Hother. cbn [collections]. by rewrite lookup_delete_ne.
  - intros Hcurrent. cbn [_current_collection_name].
    rewrite bool_decide_true by done. split; [done |].
    by rewrite search_run.
  - intros Hcurrent. cbn [_current_collection_name]. by rewrite bool_decide_false.
Qed.

(** X10. A collection that is not in the store can be neither deleted nor
    made current: [delete_collection] and [set_current_collection] raise
    ChromaDB's error and change nothing, the pointer included. *)
Theorem unknown_collection_is_refused (name : string) (w : world) :
  collections w !! name = None →
  delete_collection name w = (Raise (LibraryError "chromadb"), w)
  ∧ set_current_collection name w = (Raise (LibraryError "chromadb"), w).
Proof.
  intros Hc. by rewrite delete_collection_run, set_current_collection_run, Hc.
Qed.

(** X11. [set_current_collection] on a collection of the store moves the
    pointer to it and touches no collection; from then on
    [get_current_collection] returns its name and a search without a
    collection name is a search of that collection. *)
Theorem set_current_collection_selects (name : string) (w : world) (query : json) (n : Z) :
  is_Some (collections w !! name) →
  name ≠ "" →
  ∃ w' : world,
    set_current_collection name w = (Ok tt, w')
    ∧ collections w' = collections w
    ∧ get_current_collection w' = (Ok (Some name), w')
    ∧ search query n None w' = ((search query n (Some name) w).1, w').
Proof.
  intros [c Hc] Hname. rewrite set_current_collection_run, Hc.
  eexists. split; [done |]. split_and!; [done | done |].
  apply String.eqb_neq in Hname.
  rewrite !search_run. unfold pointing_at, truthy.
  cbn [fst collections _current_collection_name]. rewrite Hname. cbn [negb].
  by rewrite Hname.
Qed.

(** X12. [list_collections] and [collection_exists] agree: a name is
    listed exactly when [collection_exists] says true for it, and no name
    is listed twice. *)
Theorem list_collections_agrees_with_exists (name : string) (w : world) :
  ∃ names : list string,
    list_collections w = (Ok names, w)
    ∧ NoDup names
    ∧ (name ∈ names ↔ collection_exists name w = (Ok true, w)).
Proof.
  exists (map_to_list (collections w)).*1. split_and!.
  - done.
  - apply NoDup_fst_map_to_list.
  - rewrite collection_exists_run. split.
    + intros ([name' c] & -> & Hin%elem_of_map_to_list)%list_elem_of_fmap.
      simpl. by rewrite bool_decide_true.
    + intros [= Hb]. apply bool_decide_eq_true in Hb as [c Hc].
      apply list_elem_of_fmap. exists (name, c). split; [done |].
      by apply elem_of_map_to_list.
Qed.

Lemma pointer_valid_cleared (name : string) (w : world) :
  pointer_valid w → pointer_valid (cleared name w).
Proof.
  intros Hvalid current Hcurrent. unfold cleared in *. cbn in *.
  destruct (decide (current = name)) as [-> | Hne].
  - rewrite lookup_insert_eq. by eexists.
  - rewrite lookup_insert_ne by done. by apply Hvalid.
Qed.

Lemma pointer_valid_repopulated (name : string) (c : gmap string item) (w : world) :
  pointer_valid (repopulated name c w).
Proof.
  intros current [= <-]. unfold repopulated. cbn. rewrite lookup_insert_eq. by eexists.
Qed.

Lemma pointer_valid_index_transcript (t : transcript) (video_id : option string) (w : world) :
  pointer_valid w → pointer_valid (index_transcript t video_id w).2.
Proof.
  intros Hvalid. rewrite index_transcript_run. cbv zeta.
  destruct (valid_collection_name _); cbn [negb]; [| done].
  destruct (max_batch_size <? _)%nat; [done |].
  destruct (generate_embeddings _) as [embeddings | e];
    [| by apply pointer_valid_cleared].
  case_bool_decide; [apply pointer_valid_repopulated | by apply pointer_valid_cleared].
Qed.

(** X13. The current-collection pointer never dangles: if it names a
    collection of the store (or is unset) before a call, it does so after
    it, for every function of the engine that writes the store or the
    pointer ([index_transcript], [delete_collection],
    [set_current_collection], [ensure_collection_indexed]), whether the
    call returns or raises. *)
Theorem pointer_stays_valid (w : world) (t : transcript) (video_id : option string)
    (name : string) (tr : option transcript) :
  pointer_valid w →
  pointer_valid (index_transcript t video_id w).2
  ∧ pointer_valid (delete_collection name w).2
  ∧ pointer_valid (set_current_collection name w).2
  ∧ pointer_valid (ensure_collection_indexed name tr w).2.
Proof.
  intros Hvalid. split_and!.
  - by apply pointer_valid_index_transcript.
  - rewrite delete_collection_run.
    destruct (collections w !! name) as [c |] eqn:Hc; [| done].
    intros current. cbn. case_bool_decide as Hcurrent; [done |].
    intros Hw. rewrite lookup_delete_ne by congruence. by apply Hvalid.
  - rewrite set_current_collection_run.
    destruct (collections w !! name) as [c |] eqn:Hc; [| done].
    intros current [= <-]. cbn. by rewrite Hc.
  - rewrite ensure_collection_indexed_run.
    destruct (collections w !! name) as [c |] eqn:Hc.
    { intros current [= <-]. cbn. by rewrite Hc. }
    destruct tr as [t' |]; [| done]. destruct (segments t'); [done |].
    pose proof (pointer_valid_index_transcript t' (Some (replace name "transcript_" "")) w
                  Hvalid) as Hafter.
    destruct (index_transcript t' _ w) as [[new_name | e] w'] eqn:Hrun; [| done].
    apply index_transcript_inv in Hrun as (embeddings & _ & _ & _ & -> & ->).
    intros current [= <-]. cbn. rewrite lookup_insert_eq. by eexists.
Qed.

(** X14. A rebuild that fails leaves its mark: when the collection is
    missing, its name is one the store accepts, and the embedding service
    raises during the rebuild, [ensure_collection_indexed] raises that
    exception (it does not return false) and leaves the collection behind,
    created and empty; the next call finds it, returns true and makes it
    current, although it holds nothing to search. *)
Theorem failed_rebuild_leaves_empty_collection (name : string) (t : transcript)
    (w : world) (e : pyexc) :
  collections w !! name = None →
  segments t ≠ [] →
  replace name "transcript_" "" ≠ "" →
  "transcript_" +:+ replace name "transcript_" "" = name →
  valid_collection_name name = true →
  generate_embeddings (JStr <$> (chunk_text <$> chunk_transcript t 100)) = Raise e →
  ensure_collection_indexed name (Some t) w = (Raise e, cleared name w)
  ∧ collections (cleared name w) !! name = Some ∅
  ∧ ensure_collection_indexed name (Some t) (cleared name w)
    = (Ok true, pointing_at (Some name) (cleared name w)).
Proof.
  intros Hc Hsegs Hid Hname Hvalid Hemb.
  assert (collection_name_of t (Some (replace name "transcript_" "")) = name) as Hsame.
  { unfold collection_name_of.
    destruct (String.eqb_spec (replace name "transcript_" "") ""); done. }
  split_and!.
  - rewrite ensure_collection_indexed_run, Hc.
    destruct (segments t) as [| seg segs]; [done |].
    rewrite index_transcript_run. cbv zeta. by rewrite Hemb, Hsame, Hvalid, Hc.
  - unfold cleared. cbn. apply lookup_insert_eq.
  - rewrite ensure_collection_indexed_run. unfold cleared at 1. cbn [collections].
    by rewrite lookup_insert_eq.
Qed.

(** X15. Once the guard has returned true for a name of the shape
    [index_transcript] derives ("transcript_" followed by the id that is
    left when "transcript_" is deleted from it), the collection of that
    name exists and is current, and a further call, with any transcript
    or none, returns true and changes nothing: nothing is indexed
    twice. *)
Theorem ensure_collection_indexed_settles (name : string) (tr tr' : option transcript)
    (w w1 : world) :
  replace name "transcript_" "" ≠ "" →
  "transcript_" +:+ replace name "transcript_" "" = name →
  ensure_collection_indexed name tr w = (Ok true, w1) →
  is_Some (collections w1 !! name)
  ∧ _current_collection_name w1 = Some name
  ∧ ensure_collection_indexed name tr' w1 = (Ok true, w1).
Proof.
  intros Hid Hname Hrun.
  assert (is_Some (collections w1 !! name) ∧ _current_collection_name w1 = Some name)
    as [[c Hc] Hcurrent].
  { rewrite ensure_collection_indexed_run in Hrun.
    destruct (collections w !! name) as [c |] eqn:Hc.
    { injection Hrun as <-. cbn. by rewrite Hc. }
    destruct tr as [t |]; [| done]. destruct (segments t); [done |].
    destruct (index_transcript t _ w) as [[new_name | e] w'] eqn:Hindex; [| done].
    apply index_transcript_inv in Hindex as (embeddings & _ & _ & _ & -> & ->).
    assert (collection_name_of t (Some (replace name "transcript_" "")) = name) as Hsame.
    { unfold collection_name_of.
      destruct (String.eqb_spec (replace name "transcript_" "") ""); done. }
    rewrite Hsame in Hrun. injection Hrun as <-.
    unfold repopulated. cbn [collections _current_collection_name].
    rewrite lookup_insert_eq. split; [by eexists | done]. }
  split_and!; [by eexists | done |].
  rewrite ensure_collection_indexed_run, Hc. destruct w1 as [cs current].
  cbn in *. by rewrite Hcurrent.
Qed.

End collections.

Lemma delete_collection_removes_one_witness :
  ∃ w' : world,
    @rag_engine.delete_collection lecture_collection indexed_world = (Ok tt, w')
    ∧ @rag_engine.collection_exists lecture_collection w' = (Ok false, w')
    ∧ _current_collection_name w' = None.
Proof.
  destruct (@delete_collection_removes_one obtuse lecture_collection indexed_world
              (JStr "algorithm") 5)
    as (w' & Hdelete & Hgone & _ & Hpointer & _).
  - vm_compute. eexists. reflexivity.
  - exists w'. split; [exact Hdelete |]. split; [exact Hgone |].
    apply Hpointer. vm_compute. reflexivity.
Defined.

Lemma unknown_collection_is_refused_witness :
  @rag_engine.delete_collection "transcript_video_0" indexed_world
  = (Raise (LibraryError "chromadb"), indexed_world)
  ∧ @rag_engine.set_current_collection "transcript_video_0" indexed_world
    = (Raise (LibraryError "chromadb"), indexed_world).
Proof.
  apply (unknown_collection_is_refused "transcript_video_0" indexed_world).
  vm_compute. reflexivity.
Defined.

Lemma set_current_collection_selects_witness :
  ∃ w' : world,
    @rag_engine.set_current_collection lecture_collection
      (pointing_at None indexed_world) = (Ok tt, w')
    ∧ collections w' = collections (pointing_at None indexed_world)
    ∧ @rag_engine.get_current_collection w' = (Ok (Some lecture_collection), w')
    ∧ @rag_engine.search obtuse (JStr "algorithm") 5 None w'
      = ((@rag_engine.search obtuse (JStr "algorithm") 5 (Some lecture_collection)
            (pointing_at None indexed_world)).1, w').
Proof.
  apply (@set_current_collection_selects obtuse lecture_collection
           (pointing_at None indexed_world) (JStr "algorithm") 5).
  - vm_compute. eexists. reflexivity.
  - discriminate.
Defined.

Lemma pointer_stays_valid_witness :
  pointer_valid (@rag_engine.delete_collection lecture_collection indexed_world).2.
Proof.
  apply (@pointer_stays_valid obtuse indexed_world lecture None lecture_collection None).
  intros name Hcurrent. vm_compute in Hcurrent. injection Hcurrent as <-.
  vm_compute. eexists. reflexivity.
Defined.

Lemma failed_rebuild_leaves_empty_collection_witness :
  @rag_engine.ensure_collection_indexed offline lecture_collection (Some lecture) empty_world
  = (Raise (LibraryError "openai"), cleared lecture_collection empty_world)
  ∧ collections (cleared lecture_collection empty_world) !! lecture_collection = Some ∅
  ∧ @rag_engine.ensure_collection_indexed offline lecture_collection (Some lecture)
      (cleared lecture_collection empty_world)
    = (Ok true, pointing_at (Some lecture_collection) (cleared lecture_collection empty_world)).
Proof.
  apply (@failed_rebuild_leaves_empty_collection offline lecture_collection lecture
           empty_world (LibraryError "openai")).
  - reflexivity.
  - discriminate.
  - vm_compute. discriminate.
  - vm_compute. reflexivity.
  - vm_compute. reflexivity.
  - vm_compute. reflexivity.
Defined.

Lemma ensure_collection_indexed_settles_witness :
  is_Some (collections indexed_world !! lecture_collection)
  ∧ _current_collection_name indexed_world = Some lecture_collection
  ∧ @rag_engine.ensure_collection_indexed obtuse lecture_collection None indexed_world
    = (Ok true, indexed_world).
Proof.
  apply (@ensure_collection_indexed_settles obtuse lecture_collection (Some lecture) None
           empty_world indexed_world).
  - vm_compute. discriminate.
  - vm_compute. reflexivity.
  - vm_compute. reflexivity.
Defined.

(** * The rest of the query handler *)

(** ** Handling a query changes nothing *)

Lemma reads_only_ret {A : Type} (a : A) : reads_only (ret a).
Proof. done. Qed.

Lemma reads_only_raise {A : Type} (e : pyexc) : reads_only (@raise A e).
Proof. done. Qed.

Lemma reads_only_lift {A : Type} (r : result A) : reads_only (lift r).
Proof. done. Qed.

Lemma reads_only_bind {A B : Type} (m : M A) (k : A → M B) :
  reads_only m → (∀ a : A, reads_only (k a)) → reads_only (bind m k).
Proof.
  intros Hm Hk w. unfold bind. specialize (Hm w).
  destruct (m w) as [[a | e] w']; simpl in Hm; subst w'; [apply Hk | done].
Qed.

Section frame.
Context `{Services}.
Import query_handler.

Lemma reads_only_search (query : json) (n : Z) (name : option string) :
  reads_only (rag_engine.search query n name).
Proof. intros w. apply search_frame. Qed.

Lemma reads_only_answer_question (question : json) (tr : option transcript)
    (hist : option (list message)) :
  reads_only (answer_question question tr hist).
Proof.
  unfold answer_question. apply reads_only_bind; [| intros context; apply reads_only_lift].
  intros w. apply get_context_for_query_frame.
Qed.

(** X16. Handling a query only reads: whatever the classifier answers,
    whichever strategy runs and whether it returns or raises,
    [handle_user_query] (and [answer_question], which it calls) leaves the
    vector store and the current-collection pointer as they were. *)
Theorem handle_user_query_reads_only (user_query : string) (tr : option transcript)
    (vp : option string) (hist : option (list message)) (question : json) (w : world) :
  (handle_user_query user_query tr vp hist w).2 = w
  ∧ (answer_question question tr hist w).2 = w.
Proof.
  split; [| apply reads_only_answer_question].
  revert w. change (reads_only (handle_user_query user_query tr vp hist)).
  unfold handle_user_query, rag_engine.find_timestamps_for_topic.
  repeat first
    [ apply reads_only_ret
    | apply reads_only_lift
    | apply reads_only_search
    | apply reads_only_answer_question
    | apply reads_only_bind; [| intros ?]
    | match goal with
      | |- reads_only (if ?b then _ else _) => destruct b
      | |- reads_only (match ?x with _ => _ end) => destruct x
      | |- reads_only (let '(_, _) := ?x in _) => destruct x
      end ].
Qed.

End frame.

(** ** What the classifier's answer must hold *)

Section answer_shape.
Context `{Services}.
Import query_handler.

(** X17. The classifier's answer must be an object with both an intent
    and a topic, whatever the intent: an answer that is no object raises
    [TypeError], one without ["intent"] raises [KeyError] for that key,
    and one with an intent but without ["topic"] raises [KeyError] for
    ["topic"] even when the intent (summary, say) never uses the topic.
    Nothing is searched and nothing changes. *)
Theorem handle_user_query_needs_intent_and_topic (user_query : string)
    (tr : option transcript) (vp : option string) (hist : option (list message))
    (w : world) (j : json) :
  detect_intent user_query = Ok j →
  ((∀ members, j ≠ JObj members) →
     handle_user_query user_query tr vp hist w = (Raise TypeError, w))
  ∧ (∀ members, j = JObj members → assoc "intent" members = None →
       handle_user_query user_query tr vp hist w = (Raise (KeyError "intent"), w))
  ∧ (∀ members, j = JObj members → is_Some (assoc "intent" members) →
       assoc "topic" members = None →
       handle_user_query user_query tr vp hist w = (Raise (KeyError "topic"), w)).
Proof.
  intros Hj. unfold handle_user_query. run_monad. rewrite Hj. split_and!.
  - intros Hshape. destruct j; try done. by destruct (Hshape members).
  - intros members -> Hintent. unfold subscript. by rewrite Hintent.
  - intros members -> [intent Hintent] Htopic. unfold subscript.
    by rewrite Hintent, Htopic.
Qed.

(** X18. Retrieval strategies need an index: a query classified as
    search, question or snippet, handled before any transcript was
    indexed, raises [ValueError] and changes nothing; the chat model is
    not asked for an answer. *)
Theorem handle_user_query_needs_an_index (user_query : string) (tr : option transcript)
    (vp : option string) (hist : option (list message)) (w : world) (j topic : json)
    (intent : string) :
  detect_intent user_query = Ok j →
  subscript j "intent" = Ok (JStr intent) →
  subscript j "topic" = Ok topic →
  intent ∈ ["search"; "question"; "snippet"] →
  _current_collection_name w = None →
  handle_user_query user_query tr vp hist w = (Raise ValueError, w).
Proof.
  intros Hj Hintent Htopic Hin Hnone.
  assert (∀ n : Z, rag_engine.search topic n None w = (Raise ValueError, w)) as Hsearch
    by (intros n; rewrite search_run; cbn [rag_engine.truthy]; by rewrite Hnone).
  assert (rag_engine.get_context_for_query topic 5 w = (Raise ValueError, w)) as Hcontext
    by (unfold rag_engine.get_context_for_query, bind; by rewrite Hsearch).
  assert (rag_engine.find_timestamps_for_topic topic 3 w = (Raise ValueError, w)) as Hfind
    by (by rewrite find_timestamps_for_topic_run, Hsearch).
  unfold handle_user_query, answer_question. run_monad. rewrite Hj, Hintent, Htopic.
  repeat (apply elem_of_cons in Hin as [-> | Hin]).
  - change (eq_str (JStr "search") "search") with true. cbv beta iota.
    by rewrite Hsearch.
  - change (eq_str (JStr "question") "search") with false.
    change (eq_str (JStr "question") "question") with true. cbv beta iota.
    by rewrite Hcontext.
  - change (eq_str (JStr "snippet") "search") with false.
    change (eq_str (JStr "snippet") "question") with false.
    change (eq_str (JStr "snippet") "snippet") with true. cbv beta iota.
    by rewrite Hfind.
  - by apply elem_of_nil in Hin.
Qed.

(** X19. A snippet request that finds nothing reads no parameter and
    cuts no clip: when the search returns no result, the response says
    that no content was found for the topic and carries
    ["timestamps": None], whatever [video_path] is and whether or not
    the classifier's answer has ["parameters"]. *)
Theorem snippet_without_results (user_query : string) (tr : option transcript)
    (vp : option string) (hist : option (list message)) (w w' : world) (j topic : json) :
  detect_intent user_query = Ok j →
  subscript j "intent" = Ok (JStr "snippet") →
  subscript j "topic" = Ok topic →
  rag_engine.find_timestamps_for_topic topic 3 w = (Ok [], w') →
  handle_user_query user_query tr vp hist w
  = (Ok (set_timestamps None
           (set_response ("No content found for '" +:+ py_str topic +:+ "'")
              (bare_response (JStr "snippet") user_query))), w').
Proof.
  intros Hj Hintent Htopic Hfind.
  unfold handle_user_query, bind, lift. rewrite Hj, Hintent, Htopic.
  change (eq_str (JStr "snippet") "search") with false.
  change (eq_str (JStr "snippet") "question") with false.
  change (eq_str (JStr "snippet") "snippet") with true.
  cbv beta iota. by rewrite Hfind.
Qed.

(** X20. With results, a snippet request needs ["parameters"]: the
    default of 60 seconds covers a missing ["max_duration"] only, so an
    answer without ["parameters"] raises [KeyError] for that key (and
    one whose ["parameters"] is no object raises [AttributeError]); no
    window is returned and no clip is cut. *)
Theorem snippet_needs_parameters (user_query : string) (tr : option transcript)
    (vp : option string) (hist : option (list message)) (w w' : world) (j topic : json)
    (first : timestamp) (rest : list timestamp) :
  detect_intent user_query = Ok j →
  subscript j "intent" = Ok (JStr "snippet") →
  subscript j "topic" = Ok topic →
  rag_engine.find_timestamps_for_topic topic 3 w = (Ok (first :: rest), w') →
  (subscript j "parameters" = Raise (KeyError "parameters") →
     handle_user_query user_query tr vp hist w = (Raise (KeyError "parameters"), w'))
  ∧ (∀ parameters,
       subscript j "parameters" = Ok parameters →
       (∀ members, parameters ≠ JObj members) →
       handle_user_query user_query tr vp hist w = (Raise AttributeError, w')).
Proof.
  intros Hj Hintent Htopic Hfind.
  rewrite (handle_user_query_snippet _ _ _ _ _ _ _ _ _ _ Hj Hintent Htopic Hfind).
  change (widen (first :: rest))
    with (Ok (Qmax 0 (fold_left Qmin (t_start <$> rest) (t_start first) - 2),
              fold_left Qmax (t_end <$> rest) (t_end first) + 2)).
  cbv beta iota delta [rbind]. split.
  - by intros ->.
  - intros parameters -> Hshape.
    destruct parameters; try done. by destruct (Hshape members).
Qed.

(** X21. Missing key points count as none, but a null does not: when the
    chat service's answer to the key-points request parses to an object
    without ["key_points"], the response carries an empty list and says
    that 0 key points were found; when ["key_points"] is null,
    [len] raises [TypeError] and there is no response. *)
Theorem keypoints_default_to_empty (user_query : string) (t : transcript)
    (vp : option string) (hist : option (list message)) (w : world) (j topic : json)
    (content : string) (members : list (string * json)) :
  detect_intent user_query = Ok j →
  subscript j "intent" = Ok (JStr "keypoints") →
  subscript j "topic" = Ok topic →
  chat_completions_create (keypoints_request (truncate 100000 "..." (full_text t)))
  = Ok content →
  json_loads content = Some (JObj members) →
  (assoc "key_points" members = None →
     handle_user_query user_query (Some t) vp hist w
     = (Ok (set_response "Found 0 key points from the video"
              (set_key_points (JArr []) (bare_response (JStr "keypoints") user_query))), w))
  ∧ (assoc "key_points" members = Some JNull →
     handle_user_query user_query (Some t) vp hist w = (Raise TypeError, w)).
Proof.
  intros Hj Hintent Htopic Hchat Hparse.
  unfold handle_user_query, _extract_quick_keypoints. run_monad.
  rewrite Hj, Hintent, Htopic.
  change (eq_str (JStr "keypoints") "search") with false.
  change (eq_str (JStr "keypoints") "question") with false.
  change (eq_str (JStr "keypoints") "snippet") with false.
  change (eq_str (JStr "keypoints") "summary") with false.
  change (eq_str (JStr "keypoints") "keypoints") with true.
  cbv beta iota. fold (keypoints_request (truncate 100000 "..." (full_text t))).
  rewrite Hchat. cbn [rbind]. rewrite Hparse. unfold dict_get.
  split; by intros ->.
Qed.

(** X22. A response has a text exactly when the intent is one of the
    five: whenever [handle_user_query] returns, the response carries the
    classifier's intent and the user's query unchanged, and its
    ["response"] key is set if and only if the intent is search,
    question, snippet, summary or keypoints. *)
Theorem response_text_iff_known_intent (user_query : string) (tr : option transcript)
    (vp : option string) (hist : option (list message)) (w w' : world) (j intent : json)
    (r : response) :
  detect_intent user_query = Ok j →
  subscript j "intent" = Ok intent →
  handle_user_query user_query tr vp hist w = (Ok r, w') →
  resp_intent r = intent
  ∧ resp_query r = user_query
  ∧ (is_Some (resp_response r)
     ↔ Exists (fun known => eq_str intent known = true) intents).
Proof.
  intros Hj Hintent. unfold handle_user_query, bind at 1 2 3, lift at 1 2 3.
  rewrite Hj, Hintent.
  destruct (subscript j "topic") as [topic |]; [| by intros [=]].
  unfold intents.
  destruct (eq_str intent "search") eqn:Hsearch.
  { unfold bind, ret. destruct (rag_engine.search topic 5 None w) as [[results | e] w1];
      [| by intros [=]].
    intros [= <- <-]. split_and!; [done | done |].
    split; [intros _; by apply Exists_cons_hd | intros _; by eexists]. }
  destruct (eq_str intent "question") eqn:Hquestion.
  { unfold bind, ret. destruct (answer_question topic tr hist w) as [[answer | e] w1];
      [| by intros [=]].
    intros [= <- <-]. split_and!; [done | done |].
    split; [intros _; by apply Exists_cons_tl, Exists_cons_hd | intros _; by eexists]. }
  destruct (eq_str intent "snippet") eqn:Hsnippet.
  { assert (Exists (fun known => eq_str intent known = true)
              ["search"; "question"; "snippet"; "summary"; "keypoints"]) as Hknown
      by (by apply Exists_cons_tl, Exists_cons_tl, Exists_cons_hd).
    unfold bind at 1.
    destruct (rag_engine.find_timestamps_for_topic topic 3 w) as [[[| first rest] | e] w1];
      [| | by intros [=]].
    - unfold ret. intros [= <- <-]. split_and!; [done | done |].
      split; [done | intros _; by eexists].
    - unfold bind, lift, ret.
      destruct (widen (first :: rest)) as [range |]; [| by intros [=]].
      destruct (subscript j "parameters") as [parameters |]; [| by intros [=]].
      destruct (dict_get parameters "max_duration" (JNum 60)) as [max_duration |];
        [| by intros [=]].
      destruct (clamp (first :: rest) range max_duration) as [[start end_] |];
        [| by intros [=]].
      destruct (rag_engine.truthy vp); [destruct vp as [path |] |].
      + destruct (create_video_snippet path start end_) as [snippet_path |];
          [| by intros [=]].
        intros [= <- <-]. split_and!; [done | done |].
        split; [done | intros _; by eexists].
      + intros [= <- <-]. split_and!; [done | done |].
        split; [done | intros _; by eexists].
      + intros [= <- <-]. split_and!; [done | done |].
        split; [done | intros _; by eexists]. }
  destruct (eq_str intent "summary") eqn:Hsummary.
  { assert (Exists (fun known => eq_str intent known = true)
              ["search"; "question"; "snippet"; "summary"; "keypoints"]) as Hknown
      by (by apply Exists_cons_tl, Exists_cons_tl, Exists_cons_tl, Exists_cons_hd).
    destruct tr as [t |].
    - unfold bind, lift, ret. destruct (generate_summary t) as [summary |];
        [| by intros [=]].
      intros [= <- <-]. split_and!; [done | done |].
      split; [done | intros _; by eexists].
    - unfold ret. intros [= <- <-]. split_and!; [done | done |].
      split; [done | intros _; by eexists]. }
  destruct (eq_str intent "keypoints") eqn:Hkeypoints.
  { assert (Exists (fun known => eq_str intent known = true)
              ["search"; "question"; "snippet"; "summary"; "keypoints"]) as Hknown
      by (by do 4 apply Exists_cons_tl; apply Exists_cons_hd).
    destruct tr as [t |].
    - unfold bind, lift, ret. destruct (_extract_quick_keypoints t) as [key_points |];
        [| by intros [=]].
      destruct (len key_points) as [count |]; [| by intros [=]].
      intros [= <- <-]. split_and!; [done | done |].
      split; [done | intros _; by eexists].
    - unfold ret. intros [= <- <-]. split_and!; [done | done |].
      split; [done | intros _; by eexists]. }
  unfold ret. intros [= <- <-]. split_and!; [done | done |].
  split; [by intros [? ?] |].
  intros Hknown. repeat (apply Exists_cons in Hknown as [Hknown | Hknown]; [congruence |]).
  by apply Exists_nil in Hknown.
Qed.

(** X23. Only the first 100000 characters of a long transcript reach the
    chat model: two transcripts that are both longer than that and agree
    on their first 100000 characters get the same summary and the same
    key points, whatever follows. *)
Theorem long_transcripts_are_cut (t1 t2 : transcript) :
  (100000 < Z.of_nat (String.length (full_text t1)))%Z →
  (100000 < Z.of_nat (String.length (full_text t2)))%Z →
  String.substring 0 (Z.to_nat 100000) (full_text t1)
  = String.substring 0 (Z.to_nat 100000) (full_text t2) →
  generate_summary t1 = generate_summary t2
  ∧ _extract_quick_keypoints t1 = _extract_quick_keypoints t2.
Proof.
  intros Hlong1 Hlong2 Hprefix.
  assert (truncate 100000 "..." (full_text t1) = truncate 100000 "..." (full_text t2))
    as Hsame.
  { unfold truncate. apply Z.ltb_lt in Hlong1, Hlong2. by rewrite Hlong1, Hlong2, Hprefix. }
  unfold generate_summary, _extract_quick_keypoints. by rewrite Hsame.
Qed.

End answer_shape.

Lemma handle_user_query_needs_intent_and_topic_witness :
  @query_handler.handle_user_query
     (scripted (Ok "(a JSON object)") (Some (JObj [("intent", JStr "summary")])) 0)
     "summarize the video" (Some lecture) None None indexed_world
  = (Raise (KeyError "topic"), indexed_world).
Proof.
  apply (proj2 (proj2
           (@handle_user_query_needs_intent_and_topic
              (scripted (Ok "(a JSON object)") (Some (JObj [("intent", JStr "summary")])) 0)
              "summarize the video" (Some lecture) None None indexed_world
              (JObj [("intent", JStr "summary")]) eq_refl))
           [("intent", JStr "summary")]).
  - reflexivity.
  - eexists. reflexivity.
  - reflexivity.
Defined.

Lemma handle_user_query_needs_an_index_witness :
  @query_handler.handle_user_query (terse "question" "the algorithm")
     "what is the algorithm?" (Some lecture) None None empty_world
  = (Raise ValueError, empty_world).
Proof.
  apply (@handle_user_query_needs_an_index (terse "question" "the algorithm")
           "what is the algorithm?" (Some lecture) None None empty_world
           (JObj [("intent", JStr "question"); ("topic", JStr "the algorithm")])
           (JStr "the algorithm") "question").
  - reflexivity.
  - reflexivity.
  - reflexivity.
  - rewrite !elem_of_cons. auto.
  - reflexivity.
Defined.

Lemma snippet_without_results_witness :
  @query_handler.handle_user_query (terse "snippet" "dragons")
     "clip the dragons" (Some lecture) (Some "talk.mp4") None hollow_world
  = (Ok (query_handler.set_timestamps None
           (query_handler.set_response "No content found for 'dragons'"
              (bare_response (JStr "snippet") "clip the dragons"))), hollow_world).
Proof.
  apply (@snippet_without_results (terse "snippet" "dragons")
           "clip the dragons" (Some lecture) (Some "talk.mp4") None hollow_world hollow_world
           (JObj [("intent", JStr "snippet"); ("topic", JStr "dragons")])
           (JStr "dragons")).
  - reflexivity.
  - reflexivity.
  - reflexivity.
  - vm_compute. reflexivity.
Defined.

Lemma snippet_needs_parameters_witness :
  @query_handler.handle_user_query (terse "snippet" "the algorithm")
     "clip the algorithm" (Some lecture) (Some "talk.mp4") None indexed_world
  = (Raise (KeyError "parameters"), indexed_world).
Proof.
  apply (proj1
           (@snippet_needs_parameters (terse "snippet" "the algorithm")
              "clip the algorithm" (Some lecture) (Some "talk.mp4") None
              indexed_world indexed_world
              (JObj [("intent", JStr "snippet"); ("topic", JStr "the algorithm")])
              (JStr "the algorithm")
              {| t_start := 0; t_end := 42;
                 t_text := "intro explains the main algorithm in detail thanks" |}
              [] eq_refl eq_refl eq_refl ltac:(vm_compute; reflexivity))).
  reflexivity.
Defined.

Lemma keypoints_default_to_empty_witness :
  @query_handler.handle_user_query (terse "keypoints" "the whole video")
     "what are the key points?" (Some lecture) None None indexed_world
  = (Ok (query_handler.set_response "Found 0 key points from the video"
           (query_handler.set_key_points (JArr [])
              (bare_response (JStr "keypoints") "what are the key points?"))),
     indexed_world).
Proof.
  apply (proj1
           (@keypoints_default_to_empty (terse "keypoints" "the whole video")
              "what are the key points?" lecture None None indexed_world
              (JObj [("intent", JStr "keypoints"); ("topic", JStr "the whole video")])
              (JStr "the whole video") "(a JSON object)"
              [("intent", JStr "keypoints"); ("topic", JStr "the whole video")]
              eq_refl eq_refl eq_refl eq_refl eq_refl)).
  reflexivity.
Defined.

Lemma response_text_iff_known_intent_witness :
  query_handler.resp_intent (bare_response (JStr "chitchat") "hello there") = JStr "chitchat"
  ∧ query_handler.resp_query (bare_response (JStr "chitchat") "hello there") = "hello there"
  ∧ (is_Some (query_handler.resp_response (bare_response (JStr "chitchat") "hello there"))
     ↔ Exists (fun known => eq_str (JStr "chitchat") known = true) intents).
Proof.
  apply (@response_text_iff_known_intent chatty "hello there" (Some lecture) None None
           indexed_world indexed_world
           (JObj [("intent", JStr "chitchat"); ("topic", JStr "hello")])).
  - reflexivity.
  - reflexivity.
  - reflexivity.
Defined.

Lemma substring_app_prefix (s rest : string) :
  String.substring 0 (String.length s) (s +:+ rest) = s.
Proof.
  induction s as [| c s IH]; [by destruct rest |].
  change (String c s +:+ rest)%string with (String c (s +:+ rest)).
  cbn [String.length String.substring]. by rewrite IH.
Qed.

Lemma long_transcripts_are_cut_witness :
  @query_handler.generate_summary chatty (long_talk " and they lived happily ever after")
  = @query_handler.generate_summary chatty (long_talk " and nobody was seen again")
  ∧ @query_handler._extract_quick_keypoints chatty
      (long_talk " and they lived happily ever after")
    = @query_handler._extract_quick_keypoints chatty (long_talk " and nobody was seen again").
Proof.
  apply (@long_transcripts_are_cut chatty).
  - vm_compute. reflexivity.
  - vm_compute. reflexivity.
  - unfold long_talk. cbn [full_text].
    assert (Z.to_nat 100000
            = String.length (String.concat "" (replicate (Z.to_nat 10000) "0123456789")))
      as ->.
    { apply Nat2Z.inj. rewrite Z2Nat.id by lia. vm_compute. reflexivity. }
    by rewrite !substring_app_prefix.
Defined.

(** * Clock times *)

Lemma Qfloor_unique (x : Q) (z : Z) :
  inject_Z z <= x → x < inject_Z (z + 1) → Qfloor x = z.
Proof.
  intros Hle Hlt.
  pose proof (Qfloor_le x) as Hfloor. pose proof (Qlt_floor x) as Hceil.
  assert (inject_Z z < inject_Z (Qfloor x + 1)) as H1 by (eapply Qle_lt_trans; done).
  assert (inject_Z (Qfloor x) < inject_Z (z + 1)) as H2 by (eapply Qle_lt_trans; done).
  rewrite <- Zlt_Qlt in H1, H2. lia.
Qed.

Lemma Qfloor_minus_inject_Z (x : Q) (k : Z) :
  Qfloor (x - inject_Z k) = (Qfloor x - k)%Z.
Proof.
  apply Qfloor_unique.
  - pose proof (Qfloor_le x). unfold Zminus. rewrite inject_Z_plus, inject_Z_opp. lra.
  - pose proof (Qlt_floor x) as Hlt.
    replace (Qfloor x - k + 1)%Z with ((Qfloor x + 1) + - k)%Z by lia.
    rewrite inject_Z_plus, inject_Z_opp. lra.
Qed.

Lemma Qfloor_div_inject_Z (x : Q) (n : Z) :
  (0 < n)%Z → Qfloor (x / inject_Z n) = (Qfloor x / n)%Z.
Proof.
  intros Hn.
  assert (0 < inject_Z n) as Hpos by (change 0 with (inject_Z 0); by rewrite <- Zlt_Qlt).
  pose proof (Qfloor_le x) as Hfloor. pose proof (Qlt_floor x) as Hceil.
  pose proof (Z.mul_div_le (Qfloor x) n Hn) as Hdown.
  pose proof (Z.mul_succ_div_gt (Qfloor x) n Hn) as Hup.
  apply Qfloor_unique.
  - apply Qle_shift_div_l; [done |].
    eapply Qle_trans; [| exact Hfloor].
    rewrite <- inject_Z_mult, <- Zle_Qle. lia.
  - apply Qlt_shift_div_r; [done |].
    eapply Qlt_le_trans; [exact Hceil |].
    rewrite <- inject_Z_mult, <- Zle_Qle. lia.
Qed.

(** The three fields every clock formatter computes. *)
Lemma clock_fields (seconds : Q) :
  Qfloor (seconds / 3600) = (Qfloor seconds / 3600)%Z
  ∧ Qfloor (Qmod seconds 3600 / 60) = (Qfloor seconds mod 3600 / 60)%Z
  ∧ Qfloor (Qmod seconds 60) = (Qfloor seconds mod 60)%Z.
Proof.
  assert (∀ m : Z, (0 < m)%Z →
            Qfloor (Qmod seconds m) = (Qfloor seconds mod m)%Z) as Hmod.
  { intros m Hm. unfold Qmod.
    rewrite Qfloor_minus_inject_Z, Qfloor_div_inject_Z by done.
    rewrite Z.mod_eq by lia. done. }
  split_and!.
  - by apply (Qfloor_div_inject_Z seconds 3600).
  - rewrite (Qfloor_div_inject_Z _ 60) by done. by rewrite Hmod.
  - by apply Hmod.
Qed.

(** X24. The clock formatters show whole seconds, never rounded up: for
    a time that is not negative and below [2^53] seconds (where the
    floor division and the remainder of the code are exact),
    [_format_time] (both of them), [format_timestamp] and
    [_format_duration] print the hours, minutes and seconds of the
    integer part of [seconds]; the minutes and the seconds are between 0
    and 59 and the three fields add up to that integer part.  The
    engine's [_format_time] and [_format_duration] leave the hours out
    exactly when they are zero. *)
Theorem clock_formatters_show_whole_seconds (seconds : Q) :
  0 <= seconds →
  seconds < 9007199254740992 →
  let hours := (Qfloor seconds / 3600)%Z in
  let minutes := (Qfloor seconds mod 3600 / 60)%Z in
  let secs := (Qfloor seconds mod 60)%Z in
  query_handler._format_time seconds
  = fmt_02d hours +:+ ":" +:+ fmt_02d minutes +:+ ":" +:+ fmt_02d secs
  ∧ video_transcriber.format_timestamp seconds = query_handler._format_time seconds
  ∧ rag_engine._format_time seconds
    = (if (0 <? hours)%Z
       then fmt_02d hours +:+ ":" +:+ fmt_02d minutes +:+ ":" +:+ fmt_02d secs
       else fmt_02d minutes +:+ ":" +:+ fmt_02d secs)
  ∧ query_handler._format_duration seconds
    = (if (0 <? hours)%Z
       then pretty hours +:+ "h " +:+ pretty minutes +:+ "m " +:+ pretty secs +:+ "s"
       else pretty minutes +:+ "m " +:+ pretty secs +:+ "s")
  ∧ (0 <= minutes < 60)%Z
  ∧ (0 <= secs < 60)%Z
  ∧ (hours * 3600 + minutes * 60 + secs = Qfloor seconds)%Z.
Proof.
  intros _ _ hours minutes secs.
  destruct (clock_fields seconds) as (Hh & Hm & Hs).
  unfold query_handler._format_time, video_transcriber.format_timestamp,
    rag_engine._format_time, query_handler._format_duration.
  cbv zeta. rewrite Hh, Hm, Hs. fold hours minutes secs.
  pose proof (Z.mod_pos_bound (Qfloor seconds) 3600) as Hbound.
  split_and!; try done.
  - subst minutes. apply Z.div_pos; lia.
  - subst minutes. apply Z.div_lt_upper_bound; lia.
  - subst secs. apply Z.mod_pos_bound. lia.
  - subst secs. apply Z.mod_pos_bound. lia.
  - subst hours minutes secs.
    pose proof (Z.div_mod (Qfloor seconds) 3600).
    pose proof (Z.div_mod (Qfloor seconds mod 3600) 60).
    assert ((Qfloor seconds mod 3600) mod 60 = Qfloor seconds mod 60)%Z as Hmm.
    { change 3600%Z with (60 * 60)%Z. rewrite Z.rem_mul_r by lia.
      rewrite Z.add_mod by lia. rewrite Z.mod_mod by lia.
      rewrite (Z.mul_comm 60), Z.mod_mul by lia. rewrite Z.add_0_r.
      by rewrite Z.mod_mod by lia. }
    lia.
Qed.

Lemma clock_formatters_show_whole_seconds_witness :
  query_handler._format_time (7445 # 2) = "01:02:02"
  ∧ video_transcriber.format_timestamp (7445 # 2) = "01:02:02"
  ∧ rag_engine._format_time (7445 # 2) = "01:02:02"
  ∧ query_handler._format_duration (7445 # 2) = "1h 2m 2s".
Proof.
  destruct (clock_formatters_show_whole_seconds (7445 # 2)) as (H1 & H2 & H3 & H4 & _).
  - by apply Qle_bool_iff.
  - reflexivity.
  - split_and!.
    + rewrite H1. vm_compute. reflexivity.
    + rewrite H2, H1. vm_compute. reflexivity.
    + rewrite H3. vm_compute. reflexivity.
    + rewrite H4. vm_compute. reflexivity.
Defined.

Lemma string_length_app (a b : string) :
  String.length (a +:+ b) = (String.length a + String.length b)%nat.
Proof.
  induction a as [| c a IH]; [done |].
  change (String c a +:+ b)%string with (String c (a +:+ b)).
  cbn [String.length]. by rewrite IH.
Qed.

Lemma fmt_02d_width (z : Z) :
  (0 <= z < 100)%Z → String.length (fmt_02d z) = 2%nat.
Proof.
  intros Hz.
  assert (forallb (fun z => (String.length (fmt_02d z) =? 2)%nat) (seqZ 0 100) = true)
    as Hall by (vm_compute; reflexivity).
  rewrite forallb_forall in Hall. apply Nat.eqb_eq, Hall.
  apply list_elem_of_In, elem_of_seqZ. lia.
Qed.

(** X25. Below a hundred hours a time stamp has a fixed width:
    [query_handler._format_time] and [format_timestamp] give the 8
    characters of HH:MM:SS, and the engine's [_format_time] the 5
    characters of MM:SS below one hour and the 8 of HH:MM:SS from one
    hour on. *)
Theorem time_stamps_have_fixed_width (seconds : Q) :
  0 <= seconds →
  seconds < 360000 →
  String.length (query_handler._format_time seconds) = 8%nat
  ∧ String.length (video_transcriber.format_timestamp seconds) = 8%nat
  ∧ String.length (rag_engine._format_time seconds)
    = (if Qle_bool 3600 seconds then 8 else 5)%nat.
Proof.
  intros Hlo Hhi.
  destruct (clock_fields seconds) as (Hh & Hm & Hs).
  assert (0 <= Qfloor seconds < 360000)%Z as Hfloor.
  { split.
    - change 0%Z with (Qfloor 0). by apply Qfloor_resp_le.
    - pose proof (Qfloor_le seconds) as Hle.
      assert (inject_Z (Qfloor seconds) < inject_Z 360000) as Hlt
        by (eapply Qle_lt_trans; done).
      by rewrite <- Zlt_Qlt in Hlt. }
  assert (0 <= Qfloor seconds / 3600 < 100)%Z as Hhours
    by (split; [apply Z.div_pos; lia | apply Z.div_lt_upper_bound; lia]).
  assert (0 <= Qfloor seconds mod 3600 / 60 < 100)%Z as Hminutes.
  { pose proof (Z.mod_pos_bound (Qfloor seconds) 3600).
    split; [apply Z.div_pos; lia | apply Z.div_lt_upper_bound; lia]. }
  assert (0 <= Qfloor seconds mod 60 < 100)%Z as Hsecs
    by (pose proof (Z.mod_pos_bound (Qfloor seconds) 60); lia).
  unfold query_handler._format_time, video_transcriber.format_timestamp,
    rag_engine._format_time.
  cbv zeta. rewrite Hh, Hm, Hs.
  split_and!.
  - rewrite !string_length_app, !fmt_02d_width by done. done.
  - rewrite !string_length_app, !fmt_02d_width by done. done.
  - destruct (Qle_bool 3600 seconds) eqn:Hhour.
    + apply Qle_bool_iff in Hhour.
      assert (3600 <= Qfloor seconds)%Z as Hge.
      { change 3600%Z with (Qfloor 3600). by apply Qfloor_resp_le. }
      replace (0 <? Qfloor seconds / 3600)%Z with true.
      * rewrite !string_length_app, !fmt_02d_width by done. done.
      * symmetry. apply Z.ltb_lt. apply Z.div_str_pos. lia.
    + assert (seconds < 3600) as Hlt.
      { apply Qnot_le_lt. intros Hle. apply Qle_bool_iff in Hle. congruence. }
      assert (Qfloor seconds < 3600)%Z as Hfl.
      { pose proof (Qfloor_le seconds) as Hle.
        assert (inject_Z (Qfloor seconds) < inject_Z 3600) as Hlt'
          by (eapply Qle_lt_trans; done).
        by rewrite <- Zlt_Qlt in Hlt'. }
      rewrite Z.div_small by lia. cbn [Z.ltb Z.compare].
      rewrite !string_length_app, !fmt_02d_width by done. done.
Qed.

Lemma time_stamps_have_fixed_width_witness :
  String.length (query_handler._format_time (7445 # 2)) = 8%nat
  ∧ String.length (video_transcriber.format_timestamp (7445 # 2)) = 8%nat
  ∧ String.length (rag_engine._format_time (7445 # 2))
    = (if Qle_bool 3600 (7445 # 2) then 8 else 5)%nat.
Proof.
  apply (time_stamps_have_fixed_width (7445 # 2)).
  - by apply Qle_bool_iff.
  - reflexivity.
Defined.

(** * The clips of the batch path *)

(** X26. Every window of the batch path is a clip around its hit.  For a
    hit that starts at or after 0 and does not end before it starts, and a
    positive [max_duration], all three of them times on which the
    arithmetic of the code is exact (multiples of [2^-20] s up to [2^29]
    s), the window starts at or after 0, is not empty, is at most
    [max_duration] long and contains the midpoint of the hit; when the hit
    padded by 2 seconds fits into [max_duration], the window contains the
    whole hit; and every number computed on the way is a binary64 number,
    so that the floats of the code hold these very values. *)
Theorem snippet_window_is_a_clip (result : search_result) (max_duration : Q) :
  exact_time (r_start result) →
  exact_time (r_end result) →
  exact_time max_duration →
  0 <= r_start result →
  r_start result <= r_end result →
  0 < max_duration →
  let window := api.snippet_window result max_duration in
  let center := (r_start result + r_end result) / 2 in
  0 <= window.1
  ∧ window.1 < window.2
  ∧ window.2 - window.1 <= max_duration
  ∧ window.1 <= center <= window.2
  ∧ (r_end result + 2 - Qmax 0 (r_start result - 2) <= max_duration →
     window.1 <= r_start result ∧ r_end result <= window.2)
  ∧ Forall binary64
      [r_start result - 2; Qmax 0 (r_start result - 2); r_end result + 2;
       r_end result + 2 - Qmax 0 (r_start result - 2);
       r_start result + r_end result; center; max_duration / 2;
       center - max_duration / 2; Qmax 0 (center - max_duration / 2);
       center + max_duration / 2].
Proof.
  intros Hs He HM Hstart Hspan Hmax window center.
  pose proof (window_arithmetic_is_exact _ _ _ _ _ Hs He Hs He HM) as Hexact.
  cbv zeta in Hexact. fold center in Hexact.
  cut (0 <= window.1
       ∧ window.1 < window.2
       ∧ window.2 - window.1 <= max_duration
       ∧ window.1 <= center <= window.2
       ∧ (r_end result + 2 - Qmax 0 (r_start result - 2) <= max_duration →
          window.1 <= r_start result ∧ r_end result <= window.2)).
  { intros (H1 & H2 & H3 & H4 & H5).
    exact (conj H1 (conj H2 (conj H3 (conj H4 (conj H5 Hexact))))). }
  clear Hexact Hs He HM. subst window center.
  unfold api.snippet_window. cbv zeta.
  pose proof (Q.max_spec 0 (r_start result - 2)) as Hpad.
  pose proof (Q.max_spec 0 ((r_start result + r_end result) / 2 - max_duration / 2))
    as Hcut.
  set (padded := Qmax 0 (r_start result - 2)) in *.
  set (cut := Qmax 0 ((r_start result + r_end result) / 2 - max_duration / 2)) in *.
  clearbody padded cut.
  destruct (Qgt_bool _ max_duration) eqn:Hlong; cbn [fst snd];
    [apply Qgt_bool_true in Hlong | apply Qgt_bool_false in Hlong];
    destruct Hpad as [[? ?] | [? ?]]; destruct Hcut as [[? ?] | [? ?]];
    split_and!; try (intros Hfit; split); lra_half.
Qed.

Lemma snippet_window_is_a_clip_witness :
  let result := {| r_text := "first"; r_start := 10; r_end := 200; r_relevance := 9 # 10 |} in
  let window := api.snippet_window result 60 in
  0 <= window.1
  ∧ window.1 < window.2
  ∧ window.2 - window.1 <= 60
  ∧ window.1 <= (r_start result + r_end result) / 2 <= window.2.
Proof.
  destruct (snippet_window_is_a_clip
              {| r_text := "first"; r_start := 10; r_end := 200; r_relevance := 9 # 10 |} 60)
    as (H1 & H2 & H3 & H4 & _).
  - by apply (exact_time_of_Z 10).
  - by apply (exact_time_of_Z 200).
  - by apply (exact_time_of_Z 60).
  - by apply Qle_bool_iff.
  - by apply Qle_bool_iff.
  - reflexivity.
  - exact (conj H1 (conj H2 (conj H3 H4))).
Defined.

(** X27. The file name of a clip is a plain file name, whatever the
    query: every character of [output_name] is alphanumeric or one of
    "._-", so it holds no path separator, no space and no control
    character, and it begins with "snippet_". *)
Theorem output_name_is_a_plain_file_name (query : string) (i : nat) (start end_ : Q) :
  let name := api.output_name query i start end_ in
  Forall (fun c => api.isalnum c = true ∨ c ∈ ["."; "_"; "-"]%char)
         (String.list_ascii_of_string name)
  ∧ ("/"%char ∉ String.list_ascii_of_string name)
  ∧ ("\"%char ∉ String.list_ascii_of_string name)
  ∧ (" "%char ∉ String.list_ascii_of_string name)
  ∧ Forall (fun c => (32 < nat_of_ascii c)%nat) (String.list_ascii_of_string name)
  ∧ String.prefix "snippet_" name = true.
Proof.
  intros name. subst name. unfold api.output_name. cbv zeta.
  set (rest := (String.substring 0 20 query +:+ _)%string). clearbody rest.
  assert (Forall (fun c => api.isalnum c = true ∨ c ∈ ["."; "_"; "-"]%char)
            (String.list_ascii_of_string
               (String.string_of_list_ascii
                  ((fun c =>
                      if api.isalnum c
                         || existsb (Ascii.eqb c) (String.list_ascii_of_string "._-")
                      then c else "_"%char)
                     <$> String.list_ascii_of_string ("snippet_" +:+ rest)))))
    as Hsafe.
  { rewrite String.list_ascii_of_string_of_list_ascii.
    apply Forall_fmap, Forall_forall. intros c _. cbn [compose].
    destruct (api.isalnum c) eqn:Halnum; [by left |]. cbn [orb].
    destruct (existsb _ _) eqn:Hpunct; [| right; rewrite !elem_of_cons; auto].
    right. cbn [String.list_ascii_of_string existsb] in Hpunct.
    rewrite !orb_true_iff, !Ascii.eqb_eq in Hpunct.
    destruct Hpunct as [-> | [-> | [-> | [=]]]]; rewrite !elem_of_cons; auto. }
  assert (∀ bad : ascii,
            api.isalnum bad = false → bad ∉ ["."; "_"; "-"]%char →
            bad ∉ String.list_ascii_of_string
                    (String.string_of_list_ascii
                       ((fun c =>
                           if api.isalnum c
                              || existsb (Ascii.eqb c) (String.list_ascii_of_string "._-")
                           then c else "_"%char)
                          <$> String.list_ascii_of_string ("snippet_" +:+ rest))))
    as Hbad.
  { intros bad Halnum Hpunct Hin.
    apply (proj1 (Forall_forall _ _) Hsafe) in Hin as [Hin | Hin]; [congruence | done]. }
  split_and!.
  - exact Hsafe.
  - apply Hbad; [reflexivity |]. rewrite !elem_of_cons, elem_of_nil.
    intros [[=] | [[=] | [[=] | []]]].
  - apply Hbad; [reflexivity |]. rewrite !elem_of_cons, elem_of_nil.
    intros [[=] | [[=] | [[=] | []]]].
  - apply Hbad; [reflexivity |]. rewrite !elem_of_cons, elem_of_nil.
    intros [[=] | [[=] | [[=] | []]]].
  - eapply Forall_impl; [exact Hsafe |]. intros c [Halnum | Hpunct].
    + unfold api.isalnum in Halnum. cbv zeta in Halnum.
      cbn [existsb] in Halnum. rewrite !orb_true_iff, !andb_true_iff in Halnum.
      rewrite !Nat.leb_le in Halnum. lia.
    + rewrite !elem_of_cons, elem_of_nil in Hpunct.
      destruct Hpunct as [-> | [-> | [-> | []]]]; vm_compute; lia.
  - match goal with
    | |- String.prefix _ (String.string_of_list_ascii (?f <$> _)) = true =>
        replace (String.string_of_list_ascii
                   (f <$> String.list_ascii_of_string ("snippet_" +:+ rest)))
          with ("snippet_"
                +:+ String.string_of_list_ascii (f <$> String.list_ascii_of_string rest))
          by (vm_compute; reflexivity)
    end.
    apply String.prefix_correct. apply (substring_app_prefix "snippet_").
Qed.

(** * Indexing with a service that answers *)

Section dependable_service.
Context `{Services}.
Import rag_engine.

(** X28. Indexing succeeds whenever the collaborators do their part: if
    the store accepts the collection name and holds no collection of that
    name yet, the chunks are no more than one [add] may carry, and the
    embedding service answers every non-empty batch of at most 100 texts
    with one vector per text, all vectors of one dimension [d > 0], then
    [index_transcript] returns for every transcript with at least one
    segment; it returns the collection name, makes that collection
    current, leaves it with exactly one member per chunk and leaves every
    other collection as it was. *)
Theorem index_transcript_succeeds (t : transcript) (video_id : option string) (w : world)
    (d : nat) :
  segments t ≠ [] →
  valid_collection_name (collection_name_of t video_id) = true →
  collections w !! collection_name_of t video_id = None →
  length (chunk_transcript t 100) ≤ max_batch_size →
  (0 < d)%nat →
  (∀ batch : list json,
     batch ≠ [] → (length batch <= 100)%nat →
     ∃ vectors,
       embeddings_create batch = Ok vectors
       ∧ length vectors = length batch
       ∧ Forall (fun v => length v = d) vectors) →
  ∃ (w1 : world) (members : gmap string item),
    index_transcript t video_id w = (Ok (collection_name_of t video_id), w1)
    ∧ _current_collection_name w1 = Some (collection_name_of t video_id)
    ∧ collections w1 !! collection_name_of t video_id = Some members
    ∧ size members = length (chunk_transcript t 100)
    ∧ (∀ other : string,
         other ≠ collection_name_of t video_id →
         collections w1 !! other = collections w !! other).
Proof.
  intros Hsegs Hvalid Hfresh Hbatch Hd Hservice.
  set (texts := JStr <$> (chunk_text <$> chunk_transcript t 100)).
  destruct (batches_cover (length texts)) as [Hup Hdown].
  destruct (generate_embeddings_prefix (fun _ v => length v = d) texts) with
    (m := ((length texts + 99) / 100)%nat) as (embeddings & Hemb & Hrel); [| lia |].
  { intros batch Hne Hlen.
    destruct (Hservice batch Hne Hlen) as (vectors & -> & Hvectors & Hdim).
    exists vectors. split; [done |]. apply Forall2_same_length_lookup_2; [done |].
    intros i text v _ Hv. by apply (proj1 (Forall_lookup _ _) Hdim i). }
  rewrite <- generate_embeddings_unfold in Hemb.
  rewrite take_ge in Hrel by lia.
  assert (length embeddings = length (chunk_transcript t 100)) as Hlen.
  { apply Forall2_length in Hrel. rewrite <- Hrel. unfold texts.
    by rewrite !length_fmap. }
  assert (Forall (fun v => length v = d) embeddings) as Hdim.
  { apply Forall_lookup_2. intros i v Hv.
    destruct (Forall2_lookup_r _ _ _ _ _ Hrel Hv) as (text & _ & Hdone). exact Hdone. }
  pose proof (chunk_transcript_nonempty t 100 Hsegs) as Hne.
  assert (storable (chunk_transcript t 100) embeddings) as Hstore.
  { split_and!; [done | done | | done].
    unfold chroma_client.dimension.
    destruct embeddings as [| first rest]; [by destruct (chunk_transcript t 100) |].
    apply Forall_cons in Hdim as Hboth. destruct Hboth as [Hfirst Hrest].
    rewrite bool_decide_true; [by eexists |].
    split; [destruct first; [simpl in Hfirst; lia | done] |].
    rewrite Hfirst. exact Hdim. }
  eexists _, _.
  split.
  { apply (index_transcript_returns t video_id w embeddings); try done.
    intros c. by rewrite Hfresh. }
  unfold repopulated. cbn [collections _current_collection_name].
  split_and!; [done | apply lookup_insert_eq | by apply indexed_members_size |].
  intros other Hother. by rewrite lookup_insert_ne.
Qed.

End dependable_service.

Lemma index_transcript_succeeds_witness :
  ∃ (w1 : world) (members : gmap string item),
    @rag_engine.index_transcript obtuse talk_b None indexed_world
    = (Ok (rag_engine.collection_name_of talk_b None), w1)
    ∧ _current_collection_name w1 = Some (rag_engine.collection_name_of talk_b None)
    ∧ collections w1 !! rag_engine.collection_name_of talk_b None = Some members
    ∧ size members = length (rag_engine.chunk_transcript talk_b 100)
    ∧ (∀ other : string,
         other ≠ rag_engine.collection_name_of talk_b None →
         collections w1 !! other = collections indexed_world !! other).
Proof.
  apply (@index_transcript_succeeds obtuse talk_b None indexed_world 2).
  - discriminate.
  - vm_compute. reflexivity.
  - vm_compute. reflexivity.
  - vm_compute. lia.
  - lia.
  - intros batch _ _. exists ((fun _ => [1; 0]) <$> batch).
    split; [reflexivity |]. split; [by rewrite length_fmap |].
    apply Forall_fmap, Forall_true. reflexivity.
Defined.

(** * Links to a moment of a video *)

Lemma split_nonempty (sep : ascii) (s : string) : video_transcriber.split sep s ≠ [].
Proof.
  induction s as [| c s IH]; [done |]. cbn [video_transcriber.split].
  destruct (Ascii.eqb c sep); [done |]. by destruct (video_transcriber.split sep s).
Qed.

Lemma split_has_no_separator (sep : ascii) (s : string) :
  Forall (fun piece => sep ∉ String.list_ascii_of_string piece)
         (video_transcriber.split sep s).
Proof.
  induction s as [| c s IH].
  - repeat constructor. apply not_elem_of_nil.
  - cbn [video_transcriber.split]. destruct (Ascii.eqb_spec c sep) as [-> | Hne].
    + constructor; [apply not_elem_of_nil | done].
    + destruct (video_transcriber.split sep s) as [| piece pieces].
      * repeat constructor. cbn [String.list_ascii_of_string].
        rewrite not_elem_of_cons. split; [done | apply not_elem_of_nil].
      * apply Forall_cons in IH as [Hpiece Hpieces]. constructor; [| done].
        cbn [String.list_ascii_of_string]. rewrite not_elem_of_cons. by split.
Qed.

Lemma lstrip_stripped (c : ascii) (s : string) :
  String.prefix (String c EmptyString) (video_transcriber.lstrip c s) = false.
Proof.
  induction s as [| c' s IH]; [done |]. cbn [video_transcriber.lstrip].
  destruct (Ascii.eqb_spec c' c) as [-> | Hne]; [done |].
  cbn [String.prefix]. by destruct (Ascii.ascii_dec c c') as [<- |].
Qed.

Lemma py_int_nonneg (x : Q) : 0 <= x → py_int x = Qfloor x.
Proof.
  destruct x as [n d]. unfold Qle, py_int, Qfloor. cbn [Qnum Qden]. intros Hn.
  apply Z.quot_div_nonneg; lia.
Qed.

Lemma format_timestamp_of_whole_seconds (seconds : Q) :
  video_transcriber.format_timestamp (inject_Z (Qfloor seconds))
  = video_transcriber.format_timestamp seconds.
Proof.
  unfold video_transcriber.format_timestamp. cbv zeta.
  destruct (clock_fields seconds) as (-> & -> & ->).
  destruct (clock_fields (inject_Z (Qfloor seconds))) as (-> & -> & ->).
  by rewrite Qfloor_Z.
Qed.

Section links.
Context `{video_transcriber.Urllib}.
Import video_transcriber.

(** X29. [extract_video_id] reads the id off the parsed URL and its
    subscripts never fail: for a short link (youtu.be) the id is the path
    without its leading slashes; for a page of youtube.com whose path is
    "/embed/" or "/v/" followed by [rest], it is [rest] up to its first
    slash, so the element at index 2 of the split path always exists and
    holds no slash; for any other host the id is [None]. *)
Theorem extract_video_id_reads_the_path (url : string) :
  (netloc (urlparse url) ∈ ["youtu.be"; "www.youtu.be"] →
     extract_video_id url = Ok (Some (lstrip "/" (path (urlparse url))))
     ∧ String.prefix "/" (lstrip "/" (path (urlparse url))) = false)
  ∧ (netloc (urlparse url) ∈ ["youtube.com"; "www.youtube.com"; "m.youtube.com"] →
     ∀ rest : string,
       path (urlparse url) = "/embed/" +:+ rest ∨ path (urlparse url) = "/v/" +:+ rest →
       ∃ (id : string) (more : list string),
         split "/" rest = id :: more
         ∧ extract_video_id url = Ok (Some id)
         ∧ "/"%char ∉ String.list_ascii_of_string id)
  ∧ (netloc (urlparse url)
       ∉ ["youtube.com"; "www.youtube.com"; "m.youtube.com"; "youtu.be"; "www.youtu.be"] →
     extract_video_id url = Ok None).
Proof.
  unfold extract_video_id. cbv zeta. split_and!.
  - intros Hshort. rewrite bool_decide_true by done. split; [done |].
    apply lstrip_stripped.
  - intros Hlong rest Hpath.
    rewrite bool_decide_false.
    2: { rewrite !elem_of_cons, elem_of_nil.
         rewrite !elem_of_cons, elem_of_nil in Hlong.
         intros [Hs | [Hs | []]]; destruct Hlong as [Hl | [Hl | [Hl | []]]];
           rewrite Hl in Hs; discriminate Hs. }
    rewrite bool_decide_true by done.
    pose proof (split_nonempty "/" rest) as Hne.
    pose proof (split_has_no_separator "/" rest) as Hclean.
    destruct (split "/" rest) as [| id more] eqn:Hsplit; [done |].
    apply Forall_cons in Hclean as [Hid _].
    exists id, more. split; [done |]. split; [| done].
    destruct Hpath as [-> | ->].
    + change (("/embed/" +:+ rest =? "/watch")%string) with false. cbv iota.
      replace (String.prefix "/embed/" ("/embed/" +:+ rest)) with true
        by (symmetry; apply String.prefix_correct, (substring_app_prefix "/embed/")).
      change (split "/" ("/embed/" +:+ rest)) with ("" :: "embed" :: split "/" rest).
      by rewrite Hsplit.
    + change (("/v/" +:+ rest =? "/watch")%string) with false. cbv iota.
      change (String.prefix "/embed/" ("/v/" +:+ rest)) with false. cbv iota.
      replace (String.prefix "/v/" ("/v/" +:+ rest)) with true
        by (symmetry; apply String.prefix_correct, (substring_app_prefix "/v/")).
      change (split "/" ("/v/" +:+ rest)) with ("" :: "v" :: split "/" rest).
      by rewrite Hsplit.
  - intros Hother. rewrite !not_elem_of_cons in Hother.
    rewrite !bool_decide_false; [done | |]; rewrite !elem_of_cons, elem_of_nil; tauto.
Qed.

(** X30. The links to a clip agree with each other.  When no video id
    can be read off the URL (none, or an empty one) the three link
    generators raise [ValueError].  Otherwise, for a clip that starts at
    or after 0 and ends no earlier than it starts,
    [generate_youtube_snippet_links] returns links whose start and end
    are the whole seconds of the two times, whose duration is their
    difference, not negative and less than a second away from the
    duration asked for, and whose time stamps show exactly those whole
    seconds; its watch link is the one of
    [generate_youtube_timestamp_link] and its embed link the one of
    [generate_youtube_embed_link], unless the end is 0, which the latter
    takes for no end at all. *)
Theorem snippet_links_agree (url : string) (start end_ : Q) (video_id : option string) :
  extract_video_id url = Ok video_id →
  (rag_engine.truthy video_id = false →
     generate_youtube_snippet_links url start end_ = Raise ValueError
     ∧ generate_youtube_timestamp_link url start = Raise ValueError
     ∧ generate_youtube_embed_link url start (Some end_) = Raise ValueError)
  ∧ (rag_engine.truthy video_id = true →
     0 <= start →
     start <= end_ →
     ∃ links : snippet_links,
       generate_youtube_snippet_links url start end_ = Ok links
       ∧ start_time links = Qfloor start
       ∧ end_time links = Qfloor end_
       ∧ duration links = (end_time links - start_time links)%Z
       ∧ (0 <= duration links)%Z
       ∧ inject_Z (duration links) - 1 < end_ - start
       ∧ end_ - start < inject_Z (duration links) + 1
       ∧ timestamp_display links
         = format_timestamp (inject_Z (start_time links)) +:+ " - "
           +:+ format_timestamp (inject_Z (end_time links))
       ∧ generate_youtube_timestamp_link url start = Ok (watch_url links)
       ∧ (¬ end_ == 0 →
          generate_youtube_embed_link url start (Some end_) = Ok (embed_url links))).
Proof.
  intros Hid.
  unfold generate_youtube_snippet_links, generate_youtube_timestamp_link,
    generate_youtube_embed_link.
  rewrite Hid. cbn [rbind]. split.
  - by intros ->.
  - intros -> Hstart Hspan. cbn [negb]. cbv zeta.
    assert (0 <= end_) as Hend by (by eapply Qle_trans).
    rewrite (py_int_nonneg start Hstart), (py_int_nonneg end_ Hend).
    eexists. split; [done |].
    cbn [start_time end_time duration timestamp_display watch_url embed_url].
    pose proof (Qfloor_le start) as Hs1. pose proof (Qlt_floor start) as Hs2.
    pose proof (Qfloor_le end_) as He1. pose proof (Qlt_floor end_) as He2.
    pose proof (Qfloor_resp_le start end_ Hspan) as Hfloors.
    rewrite inject_Z_plus in Hs2, He2.
    assert (inject_Z (Qfloor end_ - Qfloor start)
            = inject_Z (Qfloor end_) - inject_Z (Qfloor start)) as Hdiff.
    { unfold Zminus. by rewrite inject_Z_plus, inject_Z_opp. }
    split_and!; try done.
    + lia.
    + rewrite Hdiff. change (inject_Z 1) with 1 in *. lra.
    + rewrite Hdiff. change (inject_Z 1) with 1 in *. lra.
    + by rewrite !format_timestamp_of_whole_seconds.
    + intros Hnonzero.
      replace (Qeq_bool end_ 0) with false; [by rewrite !string_app_assoc |].
      symmetry. apply not_true_iff_false. by rewrite Qeq_bool_iff.
Qed.

End links.

Lemma extract_video_id_reads_the_path_witness :
  ∃ (id : string) (more : list string),
    video_transcriber.split "/" "dQw4w9WgXcQ/extra" = id :: more
    ∧ @video_transcriber.extract_video_id player_page "https://www.youtube.com/embed/dQw4w9WgXcQ/extra"
      = Ok (Some id)
    ∧ "/"%char ∉ String.list_ascii_of_string id.
Proof.
  apply (proj1 (proj2 (@extract_video_id_reads_the_path player_page
                         "https://www.youtube.com/embed/dQw4w9WgXcQ/extra"))).
  - cbn. rewrite !elem_of_cons. auto.
  - left. reflexivity.
Defined.

Lemma snippet_links_agree_witness :
  ∃ links : video_transcriber.snippet_links,
    @video_transcriber.generate_youtube_snippet_links player_page
      "https://www.youtube.com/embed/dQw4w9WgXcQ/extra" (151 # 2) (271 # 2) = Ok links
    ∧ video_transcriber.start_time links = 75%Z
    ∧ video_transcriber.end_time links = 135%Z
    ∧ video_transcriber.duration links = 60%Z
    ∧ video_transcriber.timestamp_display links = "00:01:15 - 00:02:15".
Proof.
  destruct (proj2 (@snippet_links_agree player_page
                     "https://www.youtube.com/embed/dQw4w9WgXcQ/extra" (151 # 2) (271 # 2)
                     (Some "dQw4w9WgXcQ") eq_refl) eq_refl)
    as (links & Hlinks & Hstart & Hend & Hduration & _ & _ & _ & Hdisplay & _).
  - by apply Qle_bool_iff.
  - by apply Qle_bool_iff.
  - exists links. rewrite Hduration, Hdisplay, Hstart, Hend.
    split; [exact Hlinks |]. repeat split; vm_compute; reflexivity.
Defined.
